(** * Verification of the org-mode movie catalogue scripts

    A shallow embedding of the matching, scoring and rewriting code of
    [match_movies.py], [enrich_org_tmdb.py], [update_tmdb_from_suggested.py],
    [deduplicate_properties.py] and [inject_knowledge_properties.py].

    Conventions of the embedding:
    - a Python [str] is a list of characters; characters are the code points
      below 256 (this covers ASCII, the umlauts and the acute accent the
      headings use), and the character classes of [str.strip], [str.lower]
      and of the [re] module are the Unicode ones restricted to that range;
    - a Python [float] is a rational number ([Q]); an [int] is a [Z]; the
      sum [pynum] keeps the distinction where Python's [min] and [round]
      return one or the other. [Fuzz.ratio] and what is computed from it
      hold the exact values, which the code rounds to binary floating
      point: two scores that are equal here may differ in the last bit
      there. What depends on which of two scores is the larger is
      therefore proved of [AnyScore] and [AnyConfidence], the same
      functions with the scorer as a parameter;
    - a Python [dict] is an association list in insertion order;
    - an exception is a value of [exn] carried by [result];
    - the remote lookup [search_tmdb] is a function from the query and the
      optional year to the list of candidates it returns (an empty list
      when the request fails);
    - a file is the list of its lines, as [readlines] returns them, and
      the strings given to [writelines] are taken for the lines of the
      file written: they are, when each ends with its newline and holds
      no other line end ([TextIO]).

    Printing, the pauses between requests and the backup copy have no
    part in what is written to the file or returned, and are left out.
    The counters of the statistics are kept apart from the loops that
    write, in [DedupStats] and [EnrichStats]; where reading a written
    file back matters, its text is that of [TextIO]. *)

From Stdlib Require Import List Ascii String ZArith QArith Qminmax Qround Bool Lia Arith.
From Stdlib Require DecimalString.
Import ListNotations.

Set Implicit Arguments.
Open Scope nat_scope.

(** ** Python primitives *)

Module Py.

Definition str := list ascii.

Definition lit (x : string) : str := list_ascii_of_string x.

Definition nl : ascii := ascii_of_nat 10.

(** A line of text as [readlines] yields it: the text and its newline. *)
Definition ln (x : string) : str := lit x ++ [nl].

Definition code (c : ascii) : nat := nat_of_ascii c.

Definition between (lo hi n : nat) : bool := (lo <=? n) && (n <=? hi).

(** [str.isspace] on one character. *)
Definition isspace (c : ascii) : bool :=
  let n := code c in
  between 9 13 n || between 28 32 n || (n =? 133) || (n =? 160).

(** The class [\d] of [re]: decimal digits. *)
Definition isdigit (c : ascii) : bool := between 48 57 (code c).

(** The class [\w] of [re]: alphanumeric characters and the underscore. *)
Definition isword (c : ascii) : bool :=
  let n := code c in
  between 48 57 n || between 65 90 n || between 97 122 n || (n =? 95)
  || (n =? 170) || (n =? 178) || (n =? 179) || (n =? 181) || (n =? 185)
  || (n =? 186) || between 188 190 n || between 192 214 n
  || between 216 246 n || between 248 255 n.

Definition lower_char (c : ascii) : ascii :=
  let n := code c in
  if between 65 90 n || between 192 214 n || between 216 222 n
  then ascii_of_nat (n + 32) else c.

(** [s.lower()] *)
Definition lower (s : str) : str := map lower_char s.

Definition eqb_char (a b : ascii) : bool := Ascii.eqb a b.

Fixpoint eqb_str (a b : str) : bool :=
  match a, b with
  | [], [] => true
  | x :: a', y :: b' => eqb_char x y && eqb_str a' b'
  | _, _ => false
  end.

Fixpoint lstrip (s : str) : str :=
  match s with
  | c :: s' => if isspace c then lstrip s' else s
  | [] => []
  end.

Definition rstrip (s : str) : str := rev (lstrip (rev s)).

(** [s.strip()] *)
Definition strip (s : str) : str := rstrip (lstrip s).

(** [s.startswith(p)] *)
Fixpoint startswith (p s : str) : bool :=
  match p, s with
  | [], _ => true
  | x :: p', y :: s' => eqb_char x y && startswith p' s'
  | _ :: _, [] => false
  end.

(** [s.endswith(p)] *)
Definition endswith (p s : str) : bool := startswith (rev p) (rev s).

(** The characters of [s] before the first [c]: [s.split(c)[0]], and
    [s.split(c, 2)[0]]. *)
Fixpoint before (c : ascii) (s : str) : str :=
  match s with
  | [] => []
  | x :: s' => if eqb_char x c then [] else x :: before c s'
  end.

(** The characters of [s] after the first [c], when there is one. *)
Fixpoint after (c : ascii) (s : str) : option str :=
  match s with
  | [] => None
  | x :: s' => if eqb_char x c then Some s' else after c s'
  end.

(** [c in s] *)
Definition contains (c : ascii) (s : str) : bool := existsb (eqb_char c) s.

Definition digit_val (c : ascii) : Z := Z.of_nat (code c - 48).

Local Open Scope Z_scope.

(** The digits of an integer literal: a digit, then digits each optionally
    preceded by one underscore. *)
Fixpoint int_digits (acc : Z) (s : str) : option Z :=
  match s with
  | [] => Some acc
  | c :: s' =>
      if isdigit c then int_digits (10 * acc + digit_val c) s'
      else if eqb_char c "_"%char then
        match s' with
        | d :: s'' =>
            if isdigit d then int_digits (10 * acc + digit_val d) s''
            else None
        | [] => None
        end
      else None
  end.

Definition int_unsigned (s : str) : option Z :=
  match s with
  | c :: s' => if isdigit c then int_digits (digit_val c) s' else None
  | [] => None
  end.

(** [int(s)] on a string: surrounding whitespace, an optional sign, the
    digits. [None] is [ValueError]. *)
Definition int (s : str) : option Z :=
  match strip s with
  | c :: s' =>
      if eqb_char c "+"%char then int_unsigned s'
      else if eqb_char c "-"%char then option_map Z.opp (int_unsigned s')
      else int_unsigned (c :: s')
  | [] => None
  end.

Local Close Scope Z_scope.

(** [str(z)] for an [int]. *)
Definition str_of_Z (z : Z) : str :=
  list_ascii_of_string (DecimalString.NilZero.string_of_int (Z.to_int z)).

(** The leading elements that satisfy [f], and what follows them: the
    loops [while i < len(lines) and f(lines[i]): ...; i += 1]. *)
Fixpoint take_while {A} (f : A -> bool) (l : list A) : list A :=
  match l with
  | x :: l' => if f x then x :: take_while f l' else []
  | [] => []
  end.

Fixpoint drop_while {A} (f : A -> bool) (l : list A) : list A :=
  match l with
  | x :: l' => if f x then drop_while f l' else l
  | [] => []
  end.

(** [l[start:stop] = new] for indices that are not negative. *)
Definition slice_assign {A} (start stop : nat) (new l : list A) : list A :=
  firstn start l ++ new ++ skipn (Nat.max start stop) l.

(** Exceptions the modelled code can raise. *)
Inductive exn := ValueError | TypeError | KeyError | IndexError.

Inductive result (A : Type) :=
| Ok (a : A)
| Raise (e : exn).

Arguments Raise {A} e.

Definition bind {A B} (r : result A) (k : A -> result B) : result B :=
  match r with
  | Ok a => k a
  | Raise e => Raise e
  end.

Definition is_ok {A} (r : result A) : bool :=
  match r with Ok _ => true | Raise _ => false end.

(** Numbers: Python keeps [int] and [float] apart. *)
Inductive pynum :=
| PyInt (z : Z)
| PyFloat (q : Q).

Definition num_val (n : pynum) : Q :=
  match n with
  | PyInt z => inject_Z z
  | PyFloat q => q
  end.

Definition Qlt_bool (a b : Q) : bool := negb (Qle_bool b a).

(** [min(a, b)]: the first argument unless the second is smaller. *)
Definition py_min (a b : pynum) : pynum :=
  if Qlt_bool (num_val b) (num_val a) then b else a.

(** [max(a, b)]: the first argument unless the second is larger. *)
Definition py_max (a b : pynum) : pynum :=
  if Qlt_bool (num_val a) (num_val b) then b else a.

(** [x + k] for a float [x] and an int [k]: a float. *)
Definition py_add_int (x : pynum) (k : Z) : pynum :=
  PyFloat (num_val x + inject_Z k)%Q.

Definition digit_char (d : Z) : ascii := ascii_of_nat (48 + Z.to_nat d).

(** [str(x)] of a number; a float is one that [round(_, 2)] returned, not
    negative: its digits stop at the hundredths and a zero hundredth is not
    printed. *)
Definition str_of_num (x : pynum) : str :=
  match x with
  | PyInt z => str_of_Z z
  | PyFloat q =>
      let h := Qfloor (q * 100) in
      let tenths := ((h mod 100) / 10)%Z in
      let hundredths := (h mod 10)%Z in
      str_of_Z (h / 100) ++ ["."%char; digit_char tenths]
      ++ (if (hundredths =? 0)%Z then [] else [digit_char hundredths])
  end.

(** [f"{x:.2f}"] of a number that is not negative: [h] is the number of
    hundredths, rounded to the nearest, a tie to the even one. *)
Definition hundredths_of (q : Q) : Z :=
  let h := (q * 100)%Q in
  let f := Qfloor h in
  let d := (h - inject_Z f)%Q in
  if Qlt_bool d (1 # 2) then f
  else if Qlt_bool (1 # 2) d then (f + 1)%Z
  else if Z.even f then f else (f + 1)%Z.

Definition format_2f (x : pynum) : str :=
  let h := hundredths_of (num_val x) in
  str_of_Z (h / 100)
  ++ ["."%char; digit_char ((h mod 100) / 10); digit_char (h mod 10)].

(** [round(x, 2)]: an int stays as it is, a float goes to the nearest
    hundredth. *)
Definition round2 (x : pynum) : pynum :=
  match x with
  | PyInt z => PyInt z
  | PyFloat q => PyFloat (hundredths_of q # 100)
  end.

(** An optional value inside an f-string: [None] prints as its name. *)
Definition fmt_opt (o : option str) : str :=
  match o with Some s => s | None => lit "None" end.

(** Truth value of an optional int: [None] and [0] are false. *)
Definition truthy_int (o : option Z) : bool :=
  match o with
  | Some z => negb (z =? 0)%Z
  | None => false
  end.

(** Truth value of an optional string: [None] and [''] are false. *)
Definition truthy_str (o : option str) : bool :=
  match o with
  | Some (_ :: _) => true
  | _ => false
  end.

(** Ordered dictionaries. *)
Definition dict (V : Type) := list (str * V).

Fixpoint dict_get {V} (k : str) (d : dict V) : option V :=
  match d with
  | [] => None
  | (k', v) :: d' => if eqb_str k k' then Some v else dict_get k d'
  end.

Definition dict_mem {V} (k : str) (d : dict V) : bool :=
  match dict_get k d with Some _ => true | None => false end.

(** [d[k] = v]: an existing key keeps its place, a new key goes last. *)
Fixpoint dict_set {V} (k : str) (v : V) (d : dict V) : dict V :=
  match d with
  | [] => [(k, v)]
  | (k', v') :: d' =>
      if eqb_str k k' then (k', v) :: d' else (k', v') :: dict_set k v d'
  end.

(** [d.update(e)] *)
Definition dict_update {V} (d e : dict V) : dict V :=
  fold_left (fun acc kv => dict_set (fst kv) (snd kv) acc) e d.

End Py.

Import Py.

(** ** rapidfuzz: [fuzz.ratio] *)

Module Fuzz.

(** Length of a longest common subsequence. *)
Fixpoint lcs (a b : str) : nat :=
  match a with
  | [] => 0
  | x :: a' =>
      (fix go (b : str) : nat :=
         match b with
         | [] => 0
         | y :: b' =>
             if eqb_char x y then S (lcs a' b')
             else Nat.max (lcs a' b) (go b')
         end) b
  end.

(** [fuzz.ratio(a, b)]: the normalized Indel similarity in percent,
    [100 * (1 - (len a + len b - 2 * lcs) / (len a + len b))], and [100]
    for two empty strings. *)
Definition ratio (a b : str) : Q :=
  match (List.length a + List.length b)%nat with
  | O => 100
  | S n => Z.of_nat (200 * lcs a b)%nat # Pos.of_succ_nat n
  end.

End Fuzz.

(** ** Title Normalizer

    [parse_org_entry] of [match_movies.py] and [parse_org_title] of
    [enrich_org_tmdb.py] run the same regular expressions; the functions
    below are those expressions, one by one. *)

Module Normalizer.

Definition star : ascii := "*"%char.
Definition acute : ascii := ascii_of_nat 180.
Definition apostrophe : ascii := ascii_of_nat 39.

(** The class [[´']]. *)
Definition isquote (c : ascii) : bool := eqb_char c acute || eqb_char c apostrophe.

Definition has_newline (s : str) : bool := contains nl s.

(** [re.match(r'^\*\s+(.+)$', line.strip())], then [group(1).strip()].
    On a stripped string the greedy [\s+] takes the whole run of whitespace
    after the star, and [(.+)$] must cover the rest, which [.] does unless
    it holds a newline. *)
Definition heading_text (line : str) : option str :=
  match strip line with
  | c :: r =>
      let t := lstrip r in
      if eqb_char c star
         && (List.length t <? List.length r)
         && negb (List.length t =? 0)
         && negb (has_newline t)
      then Some (strip t) else None
  | [] => None
  end.

(** [(\d{4})] at the start of [s]. *)
Definition digits4 (s : str) : option str :=
  match s with
  | a :: b :: c :: d :: _ =>
      if isdigit a && isdigit b && isdigit c && isdigit d
      then Some [a; b; c; d] else None
  | _ => None
  end.

(** [[´']?(\d{4})] at the start of [s]: with the quote first, then
    without. *)
Definition year_at (s : str) : option str :=
  match s with
  | c :: s' =>
      match (if isquote c then digits4 s' else None) with
      | Some g => Some g
      | None => digits4 s
      end
  | [] => None
  end.

(** [re.search(r"[´']?(\d{4})", s)]: the leftmost match; the result is
    [group(1)]. *)
Fixpoint search_year (s : str) : option str :=
  match s with
  | [] => None
  | _ :: s' =>
      match year_at s with
      | Some g => Some g
      | None => search_year s'
      end
  end.

(** The year hint: the first match, kept when it is a plausible year. *)
Definition year_hint_of (full_title : str) : option Z :=
  match search_year full_title with
  | Some g =>
      match Py.int g with
      | Some potential_year =>
          if ((1920 <=? potential_year) && (potential_year <=? 2025))%Z
          then Some potential_year else None
      | None => None
      end
  | None => None
  end.

(** [re.sub(r'\([^)]*\)', '', s)]: [buf] holds, reversed, the text since
    an opening parenthesis that is still waiting for its closing one. *)
Fixpoint sub_parens_go (buf : option str) (s : str) : str :=
  match s with
  | [] => match buf with Some b => rev b | None => [] end
  | c :: s' =>
      match buf with
      | None =>
          if eqb_char c "("%char then sub_parens_go (Some [c]) s'
          else c :: sub_parens_go None s'
      | Some b =>
          if eqb_char c ")"%char then sub_parens_go None s'
          else sub_parens_go (Some (c :: b)) s'
      end
  end.

Definition sub_parens (s : str) : str := sub_parens_go None s.

(** [re.sub(r"[´']", '', s)] *)
Definition sub_quotes (s : str) : str := filter (fun c => negb (isquote c)) s.

(** [re.sub(r'[_/]\s*$', '', s)]: the pattern matches at the last
    character that is not whitespace, when it is an underscore or a
    slash. *)
Definition sub_trailing (s : str) : str :=
  match lstrip (rev s) with
  | c :: r =>
      if eqb_char c "_"%char || eqb_char c "/"%char then rev r else s
  | [] => s
  end.

(** [re.sub(r'\s+', ' ', s)]: [in_ws] tells that the run of whitespace
    being read has already been replaced. *)
Fixpoint sub_spaces_go (in_ws : bool) (s : str) : str :=
  match s with
  | [] => []
  | c :: s' =>
      if isspace c
      then (if in_ws then sub_spaces_go true s'
            else " "%char :: sub_spaces_go true s')
      else c :: sub_spaces_go false s'
  end.

Definition sub_spaces (s : str) : str := sub_spaces_go false s.

Definition clean_title (full_title : str) : str :=
  let cleaned := strip (sub_parens full_title) in
  let cleaned := sub_quotes cleaned in
  let cleaned := sub_trailing cleaned in
  strip (sub_spaces cleaned).

(** [parse_org_title(line)] of [enrich_org_tmdb.py]:
    [(full_title, cleaned, year)] or [None]. *)
Definition parse_org_title (line : str) : option (str * str * option Z) :=
  match heading_text line with
  | Some full_title =>
      Some (full_title, clean_title full_title, year_hint_of full_title)
  | None => None
  end.

Record parsed_entry := {
  line_number : nat;
  original_title : str;
  cleaned_title : str;
  year_hint : option Z
}.

(** [parse_org_entry(line, line_number)] of [match_movies.py]. *)
Definition parse_org_entry (line : str) (n : nat) : option parsed_entry :=
  match heading_text line with
  | Some full_title =>
      Some {| line_number := n;
              original_title := full_title;
              cleaned_title := clean_title full_title;
              year_hint := year_hint_of full_title |}
  | None => None
  end.

End Normalizer.

(** ** Match Scorer *)

Module Scorer.

(** One result of the lookup: the keys the scripts read. [None] is a key
    that the result does not have. *)
Record candidate := {
  c_id : option Z;
  c_title : option str;
  c_original_title : option str;
  c_release_date : option str
}.

(** [result.get(key, '')] *)
Definition get_or_empty (o : option str) : str :=
  match o with Some s => s | None => [] end.

Definition HIGH_CONFIDENCE_THRESHOLD : Q := 85.
Definition MEDIUM_CONFIDENCE_THRESHOLD : Q := 70.

(** The year part of [calculate_match_score]: everything after
    [base_score] is computed. *)
Definition boost (base_score : pynum) (year_hint : option Z)
    (tmdb_year : option str) : result pynum :=
  if truthy_int year_hint && truthy_str tmdb_year then
    match year_hint, tmdb_year with
    | Some hint, Some date =>
        match Py.int (before "-"%char date) with
        | Some tmdb_year_int =>
            if (tmdb_year_int =? hint)%Z
            then Ok (py_min (PyInt 100) (py_add_int base_score 10))
            else if (Z.abs (tmdb_year_int - hint) <=? 1)%Z
            then Ok (py_min (PyInt 100) (py_add_int base_score 5))
            else Ok base_score
        | None => Raise ValueError
        end
    | _, _ => Ok base_score
    end
  else Ok base_score.

(** [calculate_match_score] of [match_movies.py],
    [match_movies_suggested.py] and [enrich_org_tmdb.py] (the three
    bodies are the same). *)
Definition calculate_match_score (original tmdb_title tmdb_original_title : str)
    (year_hint : option Z) (tmdb_year : option str) : result pynum :=
  let score_title := PyFloat (Fuzz.ratio (lower original) (lower tmdb_title)) in
  let score_original :=
    PyFloat (Fuzz.ratio (lower original) (lower tmdb_original_title)) in
  let base_score := py_max score_title score_original in
  boost base_score year_hint tmdb_year.

Definition score_candidate (title : str) (year_hint : option Z)
    (r : candidate) : result pynum :=
  calculate_match_score title
    (get_or_empty (c_title r)) (get_or_empty (c_original_title r))
    year_hint (c_release_date r).

(** The loop [for result in results: ... scored_results.append(...)]; the
    first exception ends it. *)
Fixpoint score_all (title : str) (year_hint : option Z)
    (results : list candidate) : result (list (pynum * candidate)) :=
  match results with
  | [] => Ok []
  | r :: rs =>
      bind (score_candidate title year_hint r) (fun score =>
      bind (score_all title year_hint rs) (fun rest =>
      Ok ((score, r) :: rest)))
  end.

(** [scored_results.sort(reverse=True, key=lambda x: x[0])]: the sort is
    stable, so entries of equal score keep the order they had. It is
    written here as the insertion sort that puts an entry before the first
    one whose score is not larger. *)
Fixpoint insert_desc (x : pynum * candidate) (l : list (pynum * candidate))
    : list (pynum * candidate) :=
  match l with
  | [] => [x]
  | y :: l' =>
      if Qlt_bool (num_val (fst x)) (num_val (fst y))
      then y :: insert_desc x l' else x :: l
  end.

Definition sort_desc (l : list (pynum * candidate)) : list (pynum * candidate) :=
  fold_right insert_desc [] l.

Inductive status := NO_RESULTS | HIGH_CONFIDENCE | MEDIUM_CONFIDENCE | LOW_CONFIDENCE.

Definition classify (best_score : pynum) : status :=
  if Qle_bool HIGH_CONFIDENCE_THRESHOLD (num_val best_score) then HIGH_CONFIDENCE
  else if Qle_bool MEDIUM_CONFIDENCE_THRESHOLD (num_val best_score)
  then MEDIUM_CONFIDENCE else LOW_CONFIDENCE.

(** A call of [search_tmdb]: the title and the year passed to it. *)
Definition query := (str * option Z)%type.

Definition search_fn := str -> option Z -> list candidate.

(** The two-step lookup at the head of [find_best_match]: with the year,
    and again without it when that found nothing. The second component
    lists the calls made. *)
Definition lookup (search : search_fn) (title : str) (year_hint : option Z)
    : list candidate * list query :=
  let results := search title year_hint in
  match results with
  | [] =>
      if truthy_int year_hint
      then (search title None, [(title, year_hint); (title, None)])
      else (results, [(title, year_hint)])
  | _ :: _ => (results, [(title, year_hint)])
  end.

(** The best entry: the head of the sorted scores of the first ten
    results. *)
Definition best_scored (title : str) (year_hint : option Z)
    (results : list candidate) : result (option (pynum * candidate)) :=
  bind (score_all title year_hint (firstn 10 results)) (fun scored_results =>
  Ok (hd_error (sort_desc scored_results))).

End Scorer.

(** ** match_movies.py *)

Module MatchMovies.
Import Normalizer Scorer.

Record match_info := {
  tmdb_id : option Z;
  confidence : pynum;
  tmdb_title : option str;
  tmdb_original_title : option str;
  year : option str;
  needs_review : bool;
  match_status : status
}.

(** [find_best_match(parsed, api_key)]; the [genres] entry, which is always
    [None], is left out. [scored_results[0]] raises [IndexError] on an
    empty list, which the scores of a list that is not empty never are. *)
Definition find_best_match (search : search_fn) (parsed : parsed_entry)
    : result match_info :=
  let cleaned_title := cleaned_title parsed in
  let year_hint := year_hint parsed in
  let results := fst (lookup search cleaned_title year_hint) in
  match results with
  | [] =>
      Ok {| tmdb_id := None;
            confidence := PyInt 0;
            tmdb_title := None;
            tmdb_original_title := None;
            year := None;
            needs_review := true;
            match_status := NO_RESULTS |}
  | _ :: _ =>
      bind (best_scored cleaned_title year_hint results) (fun best =>
      match best with
      | Some (best_score, best_result) =>
          Ok {| tmdb_id := c_id best_result;
                confidence := round2 best_score;
                tmdb_title := c_title best_result;
                tmdb_original_title := c_original_title best_result;
                year := if truthy_str (c_release_date best_result)
                        then Some (before "-"%char
                                     (get_or_empty (c_release_date best_result)))
                        else None;
                needs_review :=
                  Qlt_bool (num_val best_score) HIGH_CONFIDENCE_THRESHOLD;
                match_status := classify best_score |}
      | None => Raise IndexError
      end)
  end.

End MatchMovies.

(** ** The ranking of match_movies.py, whatever the scores

    The code computes its scores in binary floating point, where the
    functions above hold their exact values: two candidates may tie above
    and differ in the last bit in the code. What depends on which of two
    scores is the larger is therefore told of the functions below: they
    are [score_all], [best_scored] and [find_best_match] again, with
    [calculate_match_score] as a parameter. A floating-point number is a
    rational number, and Python compares numbers by their exact values:
    the scores of the code are one such parameter. *)

Module AnyScore.
Import Normalizer Scorer MatchMovies.

Section Scored.

Variable calculate_match_score :
  str -> str -> str -> option Z -> option str -> result pynum.

Definition score_candidate (title : str) (year_hint : option Z)
    (r : candidate) : result pynum :=
  calculate_match_score title
    (get_or_empty (c_title r)) (get_or_empty (c_original_title r))
    year_hint (c_release_date r).

Fixpoint score_all (title : str) (year_hint : option Z)
    (results : list candidate) : result (list (pynum * candidate)) :=
  match results with
  | [] => Ok []
  | r :: rs =>
      bind (score_candidate title year_hint r) (fun score =>
      bind (score_all title year_hint rs) (fun rest =>
      Ok ((score, r) :: rest)))
  end.

Definition best_scored (title : str) (year_hint : option Z)
    (results : list candidate) : result (option (pynum * candidate)) :=
  bind (score_all title year_hint (firstn 10 results)) (fun scored_results =>
  Ok (hd_error (sort_desc scored_results))).

Definition find_best_match (search : search_fn) (parsed : parsed_entry)
    : result match_info :=
  let cleaned_title := cleaned_title parsed in
  let year_hint := year_hint parsed in
  let results := fst (lookup search cleaned_title year_hint) in
  match results with
  | [] =>
      Ok {| tmdb_id := None;
            confidence := PyInt 0;
            tmdb_title := None;
            tmdb_original_title := None;
            year := None;
            needs_review := true;
            match_status := NO_RESULTS |}
  | _ :: _ =>
      bind (best_scored cleaned_title year_hint results) (fun best =>
      match best with
      | Some (best_score, best_result) =>
          Ok {| tmdb_id := c_id best_result;
                confidence := round2 best_score;
                tmdb_title := c_title best_result;
                tmdb_original_title := c_original_title best_result;
                year := if truthy_str (c_release_date best_result)
                        then Some (before "-"%char
                                     (get_or_empty (c_release_date best_result)))
                        else None;
                needs_review :=
                  Qlt_bool (num_val best_score) HIGH_CONFIDENCE_THRESHOLD;
                match_status := classify best_score |}
      | None => Raise IndexError
      end)
  end.

End Scored.

End AnyScore.

(** ** The run of match_movies.py over a file *)

Module MatchMoviesFile.
Import Normalizer Scorer MatchMovies.

(** A row of the result, [{**parsed, **match_info}]: the two dictionaries
    share no key. *)
Definition row := (parsed_entry * match_info)%type.

(** The loop [for line_num, line in enumerate(lines, start=1)]; an
    exception of [find_best_match] ends it and nothing is returned. *)
Fixpoint process_lines (search : search_fn) (line_num : nat)
    (lines : list str) : result (list row) :=
  match lines with
  | [] => Ok []
  | line :: lines' =>
      if negb (startswith [star] (strip line))
      then process_lines search (S line_num) lines'
      else
        match parse_org_entry line line_num with
        | None => process_lines search (S line_num) lines'
        | Some parsed =>
            bind (find_best_match search parsed) (fun match_info =>
            bind (process_lines search (S line_num) lines') (fun matches =>
            Ok ((parsed, match_info) :: matches)))
        end
  end.

(** [process_org_file(org_path, api_key)] on a file whose lines are
    [lines]. *)
Definition process_org_file (search : search_fn) (lines : list str)
    : result (list row) :=
  process_lines search 1 lines.

End MatchMoviesFile.

(** ** enrich_org_tmdb.py *)

Module EnrichOrgTmdb.
Import Normalizer Scorer.

Record match_info := {
  tmdb_id : option Z;
  confidence : pynum;
  tmdb_title : option str;
  tmdb_original_title : option str;
  needs_review : bool;
  match_status : status
}.

(** [find_best_match(cleaned_title, year_hint, api_key)], with the calls
    of [search_tmdb] it made. *)
Definition find_best_match (search : search_fn) (cleaned_title : str)
    (year_hint : option Z) : result match_info * list query :=
  let (results, calls) := lookup search cleaned_title year_hint in
  (match results with
   | [] =>
       Ok {| tmdb_id := None;
             confidence := PyInt 0;
             tmdb_title := None;
             tmdb_original_title := None;
             needs_review := true;
             match_status := NO_RESULTS |}
   | _ :: _ =>
       bind (best_scored cleaned_title year_hint results) (fun best =>
       match best with
       | Some (best_score, best_result) =>
           Ok {| tmdb_id := c_id best_result;
                 confidence := round2 best_score;
                 tmdb_title := c_title best_result;
                 tmdb_original_title := c_original_title best_result;
                 needs_review :=
                   Qlt_bool (num_val best_score) HIGH_CONFIDENCE_THRESHOLD;
                 match_status := classify best_score |}
       | None => Raise IndexError
       end)
   end, calls).

Definition is_heading (line : str) : bool := startswith [star] (strip line).
Definition not_heading (line : str) : bool := negb (is_heading line).
Definition is_properties (line : str) : bool :=
  eqb_str (strip line) (lit ":PROPERTIES:").
Definition is_end (line : str) : bool := eqb_str (strip line) (lit ":END:").
Definition not_end (line : str) : bool := negb (is_end line).

(** [re.match] of the stripped line against the pattern made of [^:],
    the group [(\w+)], [:], [\s*], a group of any characters but newlines
    and [$]; the result is [group(1)] and [group(2).strip()]. The key is
    the run of word characters after the first colon; the value is what
    follows the whitespace after the second colon, and must hold no
    newline for the second group to reach the end. *)
Definition prop_match (line : str) : option (str * str) :=
  match strip line with
  | c :: r =>
      if eqb_char c ":"%char then
        let key := take_while isword r in
        match key, drop_while isword r with
        | _ :: _, c' :: r' =>
            let value := lstrip r' in
            if eqb_char c' ":"%char && negb (has_newline value)
            then Some (key, strip value) else None
        | _, _ => None
        end
      else None
  | [] => None
  end.

(** The loop that fills [properties] from the lines after [:PROPERTIES:],
    up to the first [:END:]. *)
Definition read_properties (after_start : list str) : dict str :=
  fold_left
    (fun properties line =>
       match prop_match line with
       | Some (key, value) => dict_set key value properties
       | None => properties
       end)
    (take_while not_end after_start) [].

Definition is_suggested (line : str) : bool :=
  startswith (lit ":SUGGESTED_SEARCH:") (strip line).

(** The truth value of [match_info['tmdb_id']]. *)
Definition found (m : match_info) : bool := truthy_int (tmdb_id m).

(** The lines written for a match: the identifier, title and confidence
    when an identifier was found, then the review flag. *)
Definition tmdb_lines (m : match_info) : list str :=
  (if found m then
     [lit ":TMDB_ID: " ++ fmt_opt (option_map str_of_Z (tmdb_id m)) ++ [nl];
      lit ":TMDB_TITLE: " ++ fmt_opt (tmdb_title m) ++ [nl];
      lit ":TMDB_CONFIDENCE: " ++ str_of_num (confidence m) ++ [nl]]
   else [])
  ++ (if needs_review m then [ln ":NEEDS_REVIEW: true"] else []).

(** The state of the loop of [process_org_file]: the lines from index [i]
    on, the lines written so far, the content of the file on disk and the
    lookups made. The counters of [stats] are left out. *)
Record state := {
  rest : list str;
  output_lines : list str;
  disk : list str;
  calls : list query
}.

(** The outcome of a run: the exception that ended it, if any, the file
    and the lookups made. *)
Record run := {
  raised : option exn;
  final_disk : list str;
  final_calls : list query
}.

(** [properties.get('AI_VERIFIED') == 'true' and
    properties.get('NEEDS_REVIEW') == 'false'] *)
Definition ai_verified (properties : dict str) : bool :=
  match dict_get (lit "AI_VERIFIED") properties,
        dict_get (lit "NEEDS_REVIEW") properties with
  | Some a, Some n => eqb_str a (lit "true") && eqb_str n (lit "false")
  | _, _ => false
  end.

(** A record that is skipped: its heading and the lines up to the next
    heading are copied. *)
Definition skip_entry (line : str) (tl : list str) (st : state) : state :=
  {| rest := drop_while not_heading tl;
     output_lines := output_lines st ++ line :: take_while not_heading tl;
     disk := disk st;
     calls := calls st |}.

(** The end of the work on a matched record: the lines up to the next
    heading are copied and the file is written. *)
Definition finish_entry (out remaining : list str) (log : list query) : state :=
  let out := out ++ take_while not_heading remaining in
  let remaining := drop_while not_heading remaining in
  {| rest := remaining;
     output_lines := out;
     disk := out ++ remaining;
     calls := log |}.

(** One turn of the [while] loop at [line], the first of the remaining
    lines [line :: tl]. *)
Definition step (search : search_fn) (line : str) (tl : list str) (st : state)
    : result state * list query :=
  let copy_line :=
    {| rest := tl; output_lines := output_lines st ++ [line];
       disk := disk st; calls := calls st |} in
  if is_heading line then
    match parse_org_title line with
    | Some (original_title, cleaned_title, year_hint) =>
        let has_properties :=
          match tl with l1 :: _ => is_properties l1 | [] => false end in
        let properties :=
          if has_properties then read_properties (skipn 1 tl) else [] in
        if ai_verified properties
        then (Ok (skip_entry line tl st), calls st)
        else if dict_mem (lit "TMDB_ID") properties
        then (Ok (skip_entry line tl st), calls st)
        else
          let search_query :=
            match dict_get (lit "SUGGESTED_SEARCH") properties with
            | Some v => v
            | None => cleaned_title
            end in
          let (r, made) := find_best_match search search_query year_hint in
          let log := calls st ++ made in
          match r with
          | Raise e => (Raise e, log)
          | Ok m =>
              if has_properties then
                let out := output_lines st ++ line :: firstn 1 tl in
                let block := take_while not_end (skipn 1 tl) in
                let at_end := drop_while not_end (skipn 1 tl) in
                let props_lines :=
                  filter (fun l => negb (is_suggested l && found m)) block in
                let out := out ++ props_lines ++ tmdb_lines m in
                (Ok (finish_entry (out ++ firstn 1 at_end) (skipn 1 at_end) log),
                 log)
              else
                let out :=
                  output_lines st ++ [line] ++ [ln ":PROPERTIES:"]
                  ++ tmdb_lines m ++ [ln ":END:"] in
                (Ok (finish_entry out tl log), log)
          end
    | None => (Ok copy_line, calls st)
    end
  else (Ok copy_line, calls st).

(** The [while i < len(lines)] loop and the last write. [None] is a loop
    that did not end within [fuel] turns. *)
Fixpoint process_loop (search : search_fn) (fuel : nat) (st : state)
    : option run :=
  match rest st with
  | [] =>
      Some {| raised := None;
              final_disk :=
                match output_lines st with
                | [] => disk st
                | _ :: _ => output_lines st
                end;
              final_calls := calls st |}
  | line :: tl =>
      match fuel with
      | O => None
      | S fuel' =>
          match step search line tl st with
          | (Ok st', _) => process_loop search fuel' st'
          | (Raise e, log) =>
              Some {| raised := Some e;
                      final_disk := disk st;
                      final_calls := log |}
          end
      end
  end.

(** [process_org_file(org_path, api_key, backup)] on a file whose lines are
    [lines]; the backup copy is not part of the result. *)
Definition process_org_file (search : search_fn) (lines : list str)
    : option run :=
  process_loop search (List.length lines)
    {| rest := lines; output_lines := []; disk := lines; calls := [] |}.

End EnrichOrgTmdb.

(** ** The statistics of enrich_org_tmdb.py

    [process_org_file] returns [stats]. The counters are kept here beside
    the state of the loop above, by the same tests, turn by turn. *)

Module EnrichStats.
Import Normalizer Scorer EnrichOrgTmdb.

Record stats := {
  total : nat;
  high_confidence : nat;
  medium_confidence : nat;
  low_confidence : nat;
  no_match : nat;
  skipped : nat;
  skipped_verified : nat;
  used_suggested_search : nat
}.

Definition no_stats : stats :=
  {| total := 0; high_confidence := 0; medium_confidence := 0;
     low_confidence := 0; no_match := 0; skipped := 0;
     skipped_verified := 0; used_suggested_search := 0 |}.

(** [stats[key] += 1] for each of the keys. *)
Definition count_total (s : stats) : stats :=
  {| total := S (total s); high_confidence := high_confidence s;
     medium_confidence := medium_confidence s;
     low_confidence := low_confidence s; no_match := no_match s;
     skipped := skipped s; skipped_verified := skipped_verified s;
     used_suggested_search := used_suggested_search s |}.

Definition count_high (s : stats) : stats :=
  {| total := total s; high_confidence := S (high_confidence s);
     medium_confidence := medium_confidence s;
     low_confidence := low_confidence s; no_match := no_match s;
     skipped := skipped s; skipped_verified := skipped_verified s;
     used_suggested_search := used_suggested_search s |}.

Definition count_medium (s : stats) : stats :=
  {| total := total s; high_confidence := high_confidence s;
     medium_confidence := S (medium_confidence s);
     low_confidence := low_confidence s; no_match := no_match s;
     skipped := skipped s; skipped_verified := skipped_verified s;
     used_suggested_search := used_suggested_search s |}.

Definition count_low (s : stats) : stats :=
  {| total := total s; high_confidence := high_confidence s;
     medium_confidence := medium_confidence s;
     low_confidence := S (low_confidence s); no_match := no_match s;
     skipped := skipped s; skipped_verified := skipped_verified s;
     used_suggested_search := used_suggested_search s |}.

Definition count_no_match (s : stats) : stats :=
  {| total := total s; high_confidence := high_confidence s;
     medium_confidence := medium_confidence s;
     low_confidence := low_confidence s; no_match := S (no_match s);
     skipped := skipped s; skipped_verified := skipped_verified s;
     used_suggested_search := used_suggested_search s |}.

Definition count_skipped (s : stats) : stats :=
  {| total := total s; high_confidence := high_confidence s;
     medium_confidence := medium_confidence s;
     low_confidence := low_confidence s; no_match := no_match s;
     skipped := S (skipped s); skipped_verified := skipped_verified s;
     used_suggested_search := used_suggested_search s |}.

Definition count_skipped_verified (s : stats) : stats :=
  {| total := total s; high_confidence := high_confidence s;
     medium_confidence := medium_confidence s;
     low_confidence := low_confidence s; no_match := no_match s;
     skipped := skipped s; skipped_verified := S (skipped_verified s);
     used_suggested_search := used_suggested_search s |}.

Definition count_used_suggested_search (s : stats) : stats :=
  {| total := total s; high_confidence := high_confidence s;
     medium_confidence := medium_confidence s;
     low_confidence := low_confidence s; no_match := no_match s;
     skipped := skipped s; skipped_verified := skipped_verified s;
     used_suggested_search := S (used_suggested_search s) |}.

(** The counter of a match: [no_match] when [tmdb_id] is [None], else by
    the confidence written. *)
Definition count_match (m : match_info) (s : stats) : stats :=
  match tmdb_id m with
  | None => count_no_match s
  | Some _ =>
      if Qle_bool HIGH_CONFIDENCE_THRESHOLD (num_val (confidence m))
      then count_high s
      else if Qle_bool MEDIUM_CONFIDENCE_THRESHOLD (num_val (confidence m))
      then count_medium s
      else count_low s
  end.

(** The counters after the turn of the loop at [line]; when the lookup
    raises, the counters are lost with the run. *)
Definition stats_step (search : search_fn) (line : str) (tl : list str)
    (s : stats) : stats :=
  if is_heading line then
    match parse_org_title line with
    | Some (original_title, cleaned_title, year_hint) =>
        let s := count_total s in
        let has_properties :=
          match tl with l1 :: _ => is_properties l1 | [] => false end in
        let properties :=
          if has_properties then read_properties (skipn 1 tl) else [] in
        if ai_verified properties then count_skipped_verified s
        else if dict_mem (lit "TMDB_ID") properties then count_skipped s
        else
          let (search_query, s) :=
            match dict_get (lit "SUGGESTED_SEARCH") properties with
            | Some v => (v, count_used_suggested_search s)
            | None => (cleaned_title, s)
            end in
          match fst (find_best_match search search_query year_hint) with
          | Ok m => count_match m s
          | Raise _ => s
          end
    | None => s
    end
  else s.

(** The loop with its counters. *)
Fixpoint stats_loop (search : search_fn) (fuel : nat) (st : state)
    (s : stats) : option (result stats) :=
  match rest st with
  | [] => Some (Ok s)
  | line :: tl =>
      match fuel with
      | O => None
      | S fuel' =>
          match step search line tl st with
          | (Ok st', _) =>
              stats_loop search fuel' st' (stats_step search line tl s)
          | (Raise e, _) => Some (Raise e)
          end
      end
  end.

(** What [process_org_file] returns. *)
Definition process_org_file_stats (search : search_fn) (lines : list str)
    : option (result stats) :=
  stats_loop search (List.length lines)
    {| rest := lines; output_lines := []; disk := lines; calls := [] |}
    no_stats.

(** [processed] of [print_statistics]. *)
Definition processed (s : stats) : nat :=
  total s - skipped s - skipped_verified s.

End EnrichStats.

(** ** The parser of update_tmdb_from_suggested.py and
       inject_knowledge_properties.py

    The two files hold the same [parse_org_file] but for the names of two
    keys ([line_number] and [heading] in the first, [start_line] and
    [title] in the second). *)

Module OrgParser.

Record entry := {
  line_number : nat;
  heading : str;
  properties_start : option nat;
  properties_end : option nat;
  properties : dict str;
  end_line : option nat
}.

Definition set_start (e : entry) (i : nat) : entry :=
  {| line_number := line_number e; heading := heading e;
     properties_start := Some i; properties_end := properties_end e;
     properties := properties e; end_line := end_line e |}.

Definition set_end (e : entry) (i : nat) : entry :=
  {| line_number := line_number e; heading := heading e;
     properties_start := properties_start e; properties_end := Some i;
     properties := properties e; end_line := end_line e |}.

Definition set_properties (e : entry) (d : dict str) : entry :=
  {| line_number := line_number e; heading := heading e;
     properties_start := properties_start e;
     properties_end := properties_end e;
     properties := d; end_line := end_line e |}.

Definition close (e : entry) (i : nat) : entry :=
  {| line_number := line_number e; heading := heading e;
     properties_start := properties_start e;
     properties_end := properties_end e;
     properties := properties e; end_line := Some i |}.

(** [s.rstrip("\n")] *)
Definition rstrip_newlines (s : str) : str :=
  rev (drop_while (eqb_char nl) (rev s)).

(** [re.match] of the stripped line against [:], the group [([^:]+)],
    [:], [\s*] and a group of any characters but newlines; the result is
    [group(1)] and [group(2)]. *)
Definition prop_match (line : str) : option (str * str) :=
  match strip line with
  | c :: r =>
      if eqb_char c ":"%char then
        match before ":"%char r, after ":"%char r with
        | (_ :: _) as prop_name, Some r' =>
            Some (prop_name, before nl (lstrip r'))
        | _, _ => None
        end
      else None
  | [] => None
  end.

Definition is_properties (line : str) : bool :=
  eqb_str (strip line) (lit ":PROPERTIES:").
Definition is_end (line : str) : bool := eqb_str (strip line) (lit ":END:").
Definition is_headline (line : str) : bool := startswith (lit "* ") line.

(** The state of the loop: the entries closed so far and the open one. *)
Definition pstate := (list entry * option entry)%type.

(** The body of [for i, line in enumerate(lines)]. *)
Definition parse_line (st : pstate) (i : nat) (line : str) : pstate :=
  let (entries, current_entry) := st in
  if is_headline line then
    (match current_entry with
     | Some e => entries ++ [close e i]
     | None => entries
     end,
     Some {| line_number := i;
             heading := rstrip_newlines (skipn 2 line);
             properties_start := None;
             properties_end := None;
             properties := [];
             end_line := None |})
  else
    match current_entry with
    | Some e =>
        if is_properties line then (entries, Some (set_start e i))
        else if is_end line then (entries, Some (set_end e i))
        else
          match properties_start e, properties_end e with
          | Some _, None =>
              match prop_match line with
              | Some (prop_name, prop_value) =>
                  (entries,
                   Some (set_properties e
                           (dict_set prop_name prop_value (properties e))))
              | None => st
              end
          | _, _ => st
          end
    | None => st
    end.

Fixpoint parse_lines (st : pstate) (i : nat) (lines : list str) : pstate :=
  match lines with
  | [] => st
  | line :: lines' => parse_lines (parse_line st i line) (S i) lines'
  end.

(** [parse_org_file]: the entries; the lines are the argument. *)
Definition parse_org_file (lines : list str) : list entry :=
  let (entries, current_entry) := parse_lines ([], None) 0 lines in
  match current_entry with
  | Some e => entries ++ [close e (List.length lines)]
  | None => entries
  end.

(** The rebuilt block: [":PROPERTIES:\n"], a line [f":{name}: {value}\n"]
    for each item of the mapping, [":END:\n"]. *)
Definition prop_line (kv : str * str) : str :=
  ":"%char :: fst kv ++ lit ": " ++ snd kv ++ [nl].

Definition build_prop_lines (props : dict str) : list str :=
  [ln ":PROPERTIES:"] ++ map prop_line props ++ [ln ":END:"].

(** [start = entry["properties_start"]; end = entry["properties_end"] + 1;
    lines[start:end] = prop_lines]: adding one to [None] raises
    [TypeError], and a slice that starts at [None] starts at the first
    line. *)
Definition replace_block (e : entry) (prop_lines lines : list str)
    : result (list str) :=
  match properties_end e with
  | Some pe =>
      let start := match properties_start e with Some s => s | None => 0 end in
      Ok (slice_assign start (pe + 1) prop_lines lines)
  | None => Raise TypeError
  end.

End OrgParser.

(** ** update_tmdb_from_suggested.py *)

Module UpdateFromSuggested.
Import Scorer OrgParser.

(** [calculate_confidence(original, suggested, tmdb_title, year_hint,
    tmdb_year)]: the [except] clause turns a failed conversion into no
    bonus. *)
Definition calculate_confidence (original suggested tmdb_title : str)
    (year_hint : option Z) (tmdb_year : option str) : pynum :=
  let title_ratio := Fuzz.ratio (lower suggested) (lower tmdb_title) in
  let year_bonus : Z :=
    if truthy_int year_hint && truthy_str tmdb_year then
      match year_hint, tmdb_year with
      | Some hint, Some date =>
          match Py.int (firstn 4 date) with
          | Some tmdb_year_int =>
              if (tmdb_year_int =? hint)%Z then 20%Z
              else if (Z.abs (tmdb_year_int - hint) <=? 1)%Z then 10%Z
              else 0%Z
          | None => 0%Z
          end
      | _, _ => 0%Z
      end
    else 0%Z in
  py_min (PyInt 100) (PyFloat (title_ratio + inject_Z year_bonus)).

(** The filter that builds [to_process]. *)
Definition needs_processing (e : entry) : bool :=
  let props := properties e in
  if negb (dict_mem (lit "SUGGESTED_SEARCH") props) then false
  else if dict_mem (lit "TMDB_ID") props
          && negb (match dict_get (lit "NEEDS_REVIEW") props with
                   | Some v => eqb_str v (lit "true")
                   | None => false
                   end)
  then false
  else true.

(** [19\d{2}|20[0-2]\d] at the start of [s], followed by a word
    boundary. *)
Definition year_at (s : str) : option str :=
  match s with
  | a :: b :: c :: d :: s' =>
      if ((eqb_char a "1"%char && eqb_char b "9"%char && isdigit c && isdigit d)
          || (eqb_char a "2"%char && eqb_char b "0"%char
              && between 48 50 (code c) && isdigit d))
         && match s' with e :: _ => negb (isword e) | [] => true end
      then Some [a; b; c; d] else None
  | _ => None
  end.

(** [re.search(r'\b(19\d{2}|20[0-2]\d)\b', s)]: [prev_word] tells that
    the character before [s] is a word character. *)
Fixpoint search_year (prev_word : bool) (s : str) : option str :=
  match s with
  | [] => None
  | c :: s' =>
      match (if prev_word then None else year_at s) with
      | Some g => Some g
      | None => search_year (isword c) s'
      end
  end.

(** The year hint of an entry: the [YEAR] property when it converts to a
    number that is not zero, else a year found in the search string. *)
Definition year_hint_of (props : dict str) (suggested_search : str) : option Z :=
  let year_hint :=
    match dict_get (lit "YEAR") props with
    | Some v => Py.int v
    | None => None
    end in
  if truthy_int year_hint then year_hint
  else
    match search_year false suggested_search with
    | Some g => Py.int g
    | None => year_hint
    end.

(** The loop over [results[:5]]: the first result of the highest
    confidence above zero. *)
Definition best_step (heading suggested_search : str) (year_hint : option Z)
    (best : option candidate * pynum) (r : candidate)
    : option candidate * pynum :=
  let confidence :=
    calculate_confidence heading suggested_search
      (get_or_empty (c_title r)) year_hint (c_release_date r) in
  if Qlt_bool (num_val (snd best)) (num_val confidence)
  then (Some r, confidence) else best.

Definition best_of (heading suggested_search : str) (year_hint : option Z)
    (results : list candidate) : option candidate * pynum :=
  fold_left (best_step heading suggested_search year_hint)
    (firstn 5 results) (None, PyInt 0).

(** The state of the loop over [to_process]: the lines, the count of
    updates and the lookups made. *)
Record ustate := {
  lines_now : list str;
  updates : nat;
  calls : list query
}.

(** The body of the loop for one entry. [best_match["id"]] raises
    [KeyError] when the result has no identifier. *)
Definition update_entry (search : search_fn) (dry_run : bool)
    (st : ustate) (e : entry) : result ustate :=
  let props := properties e in
  let suggested_search :=
    match dict_get (lit "SUGGESTED_SEARCH") props with
    | Some v => v
    | None => []
    end in
  let year_hint := year_hint_of props suggested_search in
  let results := search suggested_search year_hint in
  let log := calls st ++ [(suggested_search, year_hint)] in
  let skipped :=
    {| lines_now := lines_now st; updates := updates st; calls := log |} in
  match results with
  | [] => Ok skipped
  | _ :: _ =>
      match best_of (heading e) suggested_search year_hint results with
      | (Some best_match, best_confidence) =>
          match c_id best_match with
          | None => Raise KeyError
          | Some tmdb_id =>
              if dry_run then Ok skipped
              else
                let props := dict_set (lit "TMDB_ID") (str_of_Z tmdb_id) props in
                let props :=
                  dict_set (lit "TMDB_TITLE")
                    (get_or_empty (c_title best_match)) props in
                let props :=
                  dict_set (lit "TMDB_CONFIDENCE")
                    (format_2f best_confidence) props in
                bind (replace_block e (build_prop_lines props) (lines_now st))
                  (fun lines' =>
                     Ok {| lines_now := lines';
                           updates := S (updates st);
                           calls := log |})
          end
      | (None, _) => Ok skipped
      end
  end.

Fixpoint update_loop (search : search_fn) (dry_run : bool)
    (st : ustate) (to_process : list entry) : result ustate :=
  match to_process with
  | [] => Ok st
  | e :: es =>
      bind (update_entry search dry_run st e) (fun st' =>
      update_loop search dry_run st' es)
  end.

(** [update_org_entries(org_path, api_key, dry_run)] on a file whose lines
    are [lines]: the lines of the file afterwards, the count of updates
    and the lookups made. *)
Definition update_org_entries (search : search_fn) (dry_run : bool)
    (lines : list str) : result ustate :=
  let entries := parse_org_file lines in
  let to_process := filter needs_processing entries in
  update_loop search dry_run
    {| lines_now := lines; updates := 0; calls := [] |} to_process.

End UpdateFromSuggested.

(** ** The update of update_tmdb_from_suggested.py, whatever the
       confidences

    [best_of], [update_entry], [update_loop] and [update_org_entries]
    again, with [calculate_confidence] as a parameter: the confidences
    the code computes in binary floating point are one such parameter,
    and [f"{best_confidence:.2f}"] rounds the exact value of the
    number it is given. *)

Module AnyConfidence.
Import Scorer OrgParser UpdateFromSuggested.

Section Confident.

Variable calculate_confidence :
  str -> str -> str -> option Z -> option str -> pynum.

Definition best_step (heading suggested_search : str) (year_hint : option Z)
    (best : option candidate * pynum) (r : candidate)
    : option candidate * pynum :=
  let confidence :=
    calculate_confidence heading suggested_search
      (get_or_empty (c_title r)) year_hint (c_release_date r) in
  if Qlt_bool (num_val (snd best)) (num_val confidence)
  then (Some r, confidence) else best.

Definition best_of (heading suggested_search : str) (year_hint : option Z)
    (results : list candidate) : option candidate * pynum :=
  fold_left (best_step heading suggested_search year_hint)
    (firstn 5 results) (None, PyInt 0).

Definition update_entry (search : search_fn) (dry_run : bool)
    (st : ustate) (e : entry) : result ustate :=
  let props := properties e in
  let suggested_search :=
    match dict_get (lit "SUGGESTED_SEARCH") props with
    | Some v => v
    | None => []
    end in
  let year_hint := year_hint_of props suggested_search in
  let results := search suggested_search year_hint in
  let log := calls st ++ [(suggested_search, year_hint)] in
  let skipped :=
    {| lines_now := lines_now st; updates := updates st; calls := log |} in
  match results with
  | [] => Ok skipped
  | _ :: _ =>
      match best_of (heading e) suggested_search year_hint results with
      | (Some best_match, best_confidence) =>
          match c_id best_match with
          | None => Raise KeyError
          | Some tmdb_id =>
              if dry_run then Ok skipped
              else
                let props := dict_set (lit "TMDB_ID") (str_of_Z tmdb_id) props in
                let props :=
                  dict_set (lit "TMDB_TITLE")
                    (get_or_empty (c_title best_match)) props in
                let props :=
                  dict_set (lit "TMDB_CONFIDENCE")
                    (format_2f best_confidence) props in
                bind (replace_block e (build_prop_lines props) (lines_now st))
                  (fun lines' =>
                     Ok {| lines_now := lines';
                           updates := S (updates st);
                           calls := log |})
          end
      | (None, _) => Ok skipped
      end
  end.

Fixpoint update_loop (search : search_fn) (dry_run : bool)
    (st : ustate) (to_process : list entry) : result ustate :=
  match to_process with
  | [] => Ok st
  | e :: es =>
      bind (update_entry search dry_run st e) (fun st' =>
      update_loop search dry_run st' es)
  end.

Definition update_org_entries (search : search_fn) (dry_run : bool)
    (lines : list str) : result ustate :=
  let entries := parse_org_file lines in
  let to_process := filter needs_processing entries in
  update_loop search dry_run
    {| lines_now := lines; updates := 0; calls := [] |} to_process.

End Confident.

End AnyConfidence.

(** ** inject_knowledge_properties.py *)

Module InjectKnowledge.
Import OrgParser.

(** One record of a batch file: the keys the script reads. *)
Record knowledge_entry := {
  k_tmdb_id : option Z;
  k_suggested_search : option str;
  k_corrected : option str;
  k_year : option Z;
  k_notes : option str
}.

Definition add_if_some (key : string) (v : option str) (d : dict str) : dict str :=
  match v with
  | Some x => dict_set (lit key) x d
  | None => d
  end.

(** A string that is present and not empty. *)
Definition nonempty (o : option str) : option str :=
  if truthy_str o then o else None.

(** The properties to add or update, in the order the script sets them. *)
Definition new_props_of (k : knowledge_entry) : dict str :=
  let d := add_if_some "TMDB_ID" (option_map str_of_Z (k_tmdb_id k)) [] in
  let d := add_if_some "SUGGESTED_SEARCH" (nonempty (k_suggested_search k)) d in
  let d := add_if_some "AI_TITLE" (nonempty (k_corrected k)) d in
  let d := add_if_some "YEAR" (option_map str_of_Z (k_year k)) d in
  add_if_some "AI_NOTES" (nonempty (k_notes k)) d.

(** Merging and rebuilding: [merged_props = entry["properties"].copy();
    merged_props.update(new_props)] and the block built from it. *)
Definition merged_block (e : entry) (new_props : dict str) : list str :=
  build_prop_lines (dict_update (properties e) new_props).

(** The body of [for entry in reversed(entries)]. *)
Definition inject_entry (knowledge : dict knowledge_entry)
    (st : list str * nat) (e : entry) : result (list str * nat) :=
  match dict_get (heading e) knowledge with
  | None => Ok st
  | Some k =>
      match new_props_of k with
      | [] => Ok st
      | (_ :: _) as new_props =>
          bind (replace_block e (merged_block e new_props) (fst st))
            (fun lines' => Ok (lines', S (snd st)))
      end
  end.

Fixpoint inject_loop (knowledge : dict knowledge_entry)
    (st : list str * nat) (es : list entry) : result (list str * nat) :=
  match es with
  | [] => Ok st
  | e :: es' =>
      bind (inject_entry knowledge st e) (fun st' =>
      inject_loop knowledge st' es')
  end.

(** [update_org_file(org_path, knowledge)] on a file whose lines are
    [lines]: the lines written back and the count of updates. *)
Definition update_org_file (knowledge : dict knowledge_entry)
    (lines : list str) : result (list str * nat) :=
  inject_loop knowledge (lines, 0) (rev (parse_org_file lines)).

End InjectKnowledge.

(** ** The knowledge base of inject_knowledge_properties.py *)

Module KnowledgeBatches.
Import InjectKnowledge.

(** One object of a batch file: its title, if it has one, and the keys
    read from it later. *)
Definition batch_entry := (option str * knowledge_entry)%type.

(** [title = entry.get("title"); if title: knowledge[title] = entry] *)
Definition load_entry (knowledge : dict knowledge_entry) (entry : batch_entry)
    : dict knowledge_entry :=
  match fst entry with
  | Some ((_ :: _) as title) => dict_set title (snd entry) knowledge
  | _ => knowledge
  end.

(** [load_knowledge_batches(batches_dir)]: [batches] holds the content of
    the batch files in the order of their sorted paths. *)
Definition load_knowledge_batches (batches : list (list batch_entry))
    : dict knowledge_entry :=
  fold_left (fun knowledge entries => fold_left load_entry entries knowledge)
    batches [].

End KnowledgeBatches.

(** ** deduplicate_properties.py *)

Module Dedup.

(** The name of the property a line of a block holds, for the lines the
    script takes for property lines: the stripped text starts with a
    colon, does not end with one and has a second colon. The name is
    [property_line.split(':', 2)[1]]. *)
Definition prop_name (line : str) : option str :=
  match strip line with
  | c :: r =>
      if eqb_char c ":"%char
         && negb (endswith [":"%char] (c :: r))
         && contains ":"%char r
      then Some (before ":"%char r) else None
  | [] => None
  end.

Definition is_properties (line : str) : bool :=
  eqb_str (strip line) (lit ":PROPERTIES:").
Definition is_end (line : str) : bool := eqb_str (strip line) (lit ":END:").

(** The loop that deletes the first occurrence from [result_lines]: the
    last line equal to [x] goes. *)
Fixpoint remove_first (x : str) (l : list str) : list str :=
  match l with
  | [] => []
  | y :: l' => if eqb_str y x then l' else y :: remove_first x l'
  end.

Definition remove_last (x : str) (l : list str) : list str :=
  rev (remove_first x (rev l)).

(** The state of the loop: the lines kept, whether a block is open, and
    for each property name seen in it the index and the text of its
    line. The statistics are left out. *)
Record dstate := {
  result_lines : list str;
  in_properties : bool;
  current_properties : dict (nat * str)
}.

(** The body of the loop at index [i], [line = lines[i]]. *)
Definition dedup_line (lines : list str) (st : dstate) (i : nat) (line : str)
    : dstate :=
  if is_properties line then
    {| result_lines := result_lines st ++ [line];
       in_properties := true;
       current_properties := [] |}
  else if is_end line then
    {| result_lines := result_lines st ++ [line];
       in_properties := false;
       current_properties := [] |}
  else
    match (if in_properties st then prop_name line else None) with
    | Some name =>
        match dict_get name (current_properties st) with
        | Some (first_occurrence_idx, _) =>
            {| result_lines :=
                 remove_last (nth first_occurrence_idx lines [])
                   (result_lines st) ++ [line];
               in_properties := in_properties st;
               current_properties :=
                 dict_set name (i, line) (current_properties st) |}
        | None =>
            {| result_lines := result_lines st ++ [line];
               in_properties := in_properties st;
               current_properties :=
                 dict_set name (i, line) (current_properties st) |}
        end
    | None =>
        {| result_lines := result_lines st ++ [line];
           in_properties := in_properties st;
           current_properties := current_properties st |}
    end.

Fixpoint dedup_loop (lines : list str) (st : dstate) (i : nat)
    (remaining : list str) : dstate :=
  match remaining with
  | [] => st
  | line :: remaining' =>
      dedup_loop lines (dedup_line lines st i line) (S i) remaining'
  end.

(** [deduplicate_properties(input_file, output_file)]: the lines written
    to the output file for the lines read from the input file. *)
Definition deduplicate_properties (lines : list str) : list str :=
  result_lines
    (dedup_loop lines
       {| result_lines := []; in_properties := false;
          current_properties := [] |} 0 lines).

End Dedup.

(** ** Files as text

    The scripts open their files in text mode: what [writelines] is given
    is written one string after the other, and [readlines] splits the
    text after each newline, a carriage return, alone or before a
    newline, counting as one. *)

Module TextIO.

Definition cr : ascii := ascii_of_nat 13.

(** [f.writelines(lines)]: the text of the file. *)
Definition writelines (lines : list str) : str := List.concat lines.

(** [f.readlines()] on a text; [cur] holds, reversed, the line being
    read. *)
Fixpoint readlines_go (cur : str) (text : str) : list str :=
  match text with
  | [] => match cur with [] => [] | _ :: _ => [rev cur] end
  | c :: t =>
      if eqb_char c nl then rev (nl :: cur) :: readlines_go [] t
      else if eqb_char c cr then
        match t with
        | d :: t' =>
            if eqb_char d nl then rev (nl :: cur) :: readlines_go [] t'
            else rev (nl :: cur) :: readlines_go [] t
        | [] => [rev (nl :: cur)]
        end
      else readlines_go (c :: cur) t
  end.

Definition readlines (text : str) : list str := readlines_go [] text.

(** A character that ends no line. *)
Definition inline (c : ascii) : bool :=
  negb (eqb_char c nl) && negb (eqb_char c cr).

(** A string that is one line of a file: it ends with a newline and holds
    no other line end. *)
Definition proper_line (l : str) : bool :=
  match rev l with
  | c :: r => eqb_char c nl && forallb inline r
  | [] => false
  end.

End TextIO.

(** ** The statistics of deduplicate_properties.py

    [deduplicate_properties] returns [stats]; the lines it writes are the
    function above. The counters are kept here beside the state of the
    loop, by the same tests, line by line. *)

Module DedupStats.
Import Dedup.

(** One entry of [stats['duplicate_details']]. *)
Record detail := {
  d_entry : str;
  d_property : str;
  d_first_value : str;
  d_second_value : str;
  d_line_number : nat
}.

Record stats := {
  total_entries : nat;
  entries_with_duplicates : nat;
  total_duplicates_removed : nat;
  duplicates_by_property : dict nat;
  duplicate_details : list detail
}.

(** [s.split(':', 2)[2].strip() if len(s.split(':', 2)) > 2 else ""]:
    the text after the second colon, stripped. *)
Definition value_of (s : str) : str :=
  match after ":"%char s with
  | Some r =>
      match after ":"%char r with
      | Some v => strip v
      | None => []
      end
  | None => []
  end.

(** What the loop holds besides the state of the lines. *)
Record sstate := {
  st_stats : stats;
  duplicates_in_current_block : list str;
  current_entry_title : option str
}.

(** [current_entry_title or '(unknown)'] *)
Definition title_or_unknown (t : option str) : str :=
  match t with
  | Some ((_ :: _) as title) => title
  | _ => lit "(unknown)"
  end.

Definition count_of (name : str) (d : dict nat) : nat :=
  match dict_get name d with Some n => n | None => 0 end.

(** The body of the loop at index [i], for what it does to the counters.
    [st] is the state of the lines before the line is read. *)
Definition stats_line (st : dstate) (ss : sstate) (i : nat) (line : str)
    : sstate :=
  let s := st_stats ss in
  let title :=
    if startswith (lit "* ") (strip line) && negb (in_properties st)
    then Some (strip (skipn 2 (strip line)))
    else current_entry_title ss in
  if is_properties line then
    {| st_stats :=
         {| total_entries := total_entries s + 1;
            entries_with_duplicates := entries_with_duplicates s;
            total_duplicates_removed := total_duplicates_removed s;
            duplicates_by_property := duplicates_by_property s;
            duplicate_details := duplicate_details s |};
       duplicates_in_current_block := [];
       current_entry_title := title |}
  else if is_end line then
    {| st_stats :=
         {| total_entries := total_entries s;
            entries_with_duplicates :=
              match duplicates_in_current_block ss with
              | [] => entries_with_duplicates s
              | _ :: _ => entries_with_duplicates s + 1
              end;
            total_duplicates_removed := total_duplicates_removed s;
            duplicates_by_property := duplicates_by_property s;
            duplicate_details := duplicate_details s |};
       duplicates_in_current_block := [];
       current_entry_title := title |}
  else
    match (if in_properties st then prop_name line else None) with
    | Some name =>
        match dict_get name (current_properties st) with
        | Some (_, first_line_content) =>
            {| st_stats :=
                 {| total_entries := total_entries s;
                    entries_with_duplicates := entries_with_duplicates s;
                    total_duplicates_removed := total_duplicates_removed s + 1;
                    duplicates_by_property :=
                      dict_set name
                        (count_of name (duplicates_by_property s) + 1)
                        (duplicates_by_property s);
                    duplicate_details :=
                      duplicate_details s
                      ++ [{| d_entry := title_or_unknown title;
                             d_property := name;
                             d_first_value :=
                               value_of (strip first_line_content);
                             d_second_value := value_of (strip line);
                             d_line_number := i + 1 |}] |};
               duplicates_in_current_block :=
                 duplicates_in_current_block ss ++ [name];
               current_entry_title := title |}
        | None =>
            {| st_stats := s;
               duplicates_in_current_block := duplicates_in_current_block ss;
               current_entry_title := title |}
        end
    | None =>
        {| st_stats := s;
           duplicates_in_current_block := duplicates_in_current_block ss;
           current_entry_title := title |}
    end.

(** The loop with its counters. *)
Fixpoint stats_loop (lines : list str) (st : dstate) (ss : sstate) (i : nat)
    (remaining : list str) : dstate * sstate :=
  match remaining with
  | [] => (st, ss)
  | line :: remaining' =>
      stats_loop lines (dedup_line lines st i line) (stats_line st ss i line)
        (S i) remaining'
  end.

(** The value [deduplicate_properties(input_file, output_file)]
    returns. *)
Definition deduplicate_properties_stats (lines : list str) : stats :=
  st_stats
    (snd (stats_loop lines
            {| result_lines := []; in_properties := false;
               current_properties := [] |}
            {| st_stats :=
                 {| total_entries := 0;
                    entries_with_duplicates := 0;
                    total_duplicates_removed := 0;
                    duplicates_by_property := [];
                    duplicate_details := [] |};
               duplicates_in_current_block := [];
               current_entry_title := None |}
            0 lines)).

End DedupStats.

(** ** The words of the specification

    Definitions that follow the specification's sentences, to be compared
    with the functions above. *)

Module Spec.
Import Scorer.

(** The release year of a candidate: the number before the first dash of
    its release date, when the date is there and starts with one. *)
Definition release_year (tmdb_year : option str) : option Z :=
  match tmdb_year with
  | Some ((_ :: _) as date) => Py.int (before "-"%char date)
  | _ => None
  end.

(** The year-agreement bonus: 10 when the hint is the release year, 5
    when they differ by exactly one, nothing otherwise. *)
Definition year_bonus (year_hint release : option Z) : Q :=
  match year_hint, release with
  | Some h, Some y =>
      if (y =? h)%Z then 10
      else if (Z.abs (y - h) =? 1)%Z then 5
      else 0
  | _, _ => 0
  end.

(** The precondition of the score: a candidate whose release date, when
    there is a hint to compare it with, starts with a number. *)
Definition scorable (year_hint : option Z) (tmdb_year : option str) : bool :=
  negb (truthy_int year_hint && truthy_str tmdb_year)
  || match release_year tmdb_year with Some _ => true | None => false end.

(** A score is the best one of the results: some candidate among the
    first ten has it, and none has more. *)
Definition is_best_score (title : str) (year_hint : option Z)
    (results : list candidate) (best : pynum) : Prop :=
  (exists c, In c (firstn 10 results) /\
             score_candidate title year_hint c = Ok best) /\
  (forall c s, In c (firstn 10 results) ->
               score_candidate title year_hint c = Ok s ->
               (num_val s <= num_val best)%Q).

(** The tier of a score and the review flag: HIGH from 85, MEDIUM from
    70, else LOW; review is needed unless the tier is HIGH. *)
Definition tiered (best : Q) (tier : status) (needs_review : bool) : Prop :=
  ((85 <= best)%Q -> tier = HIGH_CONFIDENCE) /\
  ((70 <= best)%Q -> (best < 85)%Q -> tier = MEDIUM_CONFIDENCE) /\
  ((best < 70)%Q -> tier = LOW_CONFIDENCE) /\
  (needs_review = true <-> tier <> HIGH_CONFIDENCE).

(** The leftmost run of four digits of a text. *)
Fixpoint first_digits4 (s : str) : option str :=
  match s with
  | [] => None
  | _ :: s' =>
      match Normalizer.digits4 s with
      | Some g => Some g
      | None => first_digits4 s'
      end
  end.

(** The value of a run of four digits. *)
Definition decimal4 (g : str) : Z :=
  match g with
  | [a; b; c; d] =>
      1000 * digit_val a + 100 * digit_val b + 10 * digit_val c + digit_val d
  | _ => 0
  end%Z.

Definition plausible_year (y : Z) : bool := ((1920 <=? y) && (y <=? 2025))%Z.

(** A line that names the property [name], for the script. *)
Definition has_name (name : str) (line : str) : bool :=
  match Dedup.prop_name line with
  | Some name' => eqb_str name' name
  | None => false
  end.

(** The property names of the lines of a block, in order. *)
Definition names (body : list str) : list str :=
  flat_map (fun line => match Dedup.prop_name line with
                        | Some name => [name]
                        | None => []
                        end) body.

(** The lines of a block that stay when, of the lines that name the same
    property, only the last is kept. *)
Fixpoint keep_last (body : list str) : list str :=
  match body with
  | [] => []
  | line :: body' =>
      match Dedup.prop_name line with
      | Some name =>
          if existsb (has_name name) body'
          then keep_last body' else line :: keep_last body'
      | None => line :: keep_last body'
      end
  end.

(** A line that is neither of the two markers of a block. *)
Definition unmarked (line : str) : bool :=
  negb (Dedup.is_properties line) && negb (Dedup.is_end line).

(** A text without whitespace at its ends. *)
Definition no_edge_space (v : str) : bool :=
  match v with [] => true | c :: _ => negb (isspace c) end
  && match rev v with [] => true | c :: _ => negb (isspace c) end.

(** A property in the form the rebuilt block gives it: a name that is not
    empty and holds no colon, a value without newline and without
    whitespace at its ends, and not one of the two marker lines. *)
Definition canonical (kv : str * str) : bool :=
  let (k, v) := kv in
  negb (List.length k =? 0)
  && negb (contains ":"%char k)
  && negb (contains nl v)
  && no_edge_space v
  && negb (eqb_str v [] && (eqb_str k (lit "PROPERTIES") || eqb_str k (lit "END"))).

(** A line that opens or closes nothing: not a headline, not a marker. *)
Definition plain (line : str) : bool :=
  negb (OrgParser.is_headline line)
  && negb (OrgParser.is_properties line)
  && negb (OrgParser.is_end line).


(** Parsing a block and building it again with nothing to merge. *)
Definition reserialized (e : OrgParser.entry) : list str :=
  InjectKnowledge.merged_block e [].

End Spec.

(** ** Auxiliary notions of the proofs *)

Module Aux.

(** The lines kept of a block after one more line [l]: the kept lines
    that name the same property go. *)
Definition absorb (K : list str) (l : str) : list str :=
  match Dedup.prop_name l with
  | Some name => filter (fun x => negb (Spec.has_name name x)) K ++ [l]
  | None => K ++ [l]
  end.

(** A kept line survives the lines [body] that follow when none of them
    names its property. *)
Definition survive (body : list str) (x : str) : bool :=
  match Dedup.prop_name x with
  | Some name => negb (existsb (Spec.has_name name) body)
  | None => true
  end.

(** The tracker of the loop agrees with the kept lines [K] of the open
    block: a tracked name points at its line of the file, which is kept,
    and a name that is not tracked has no kept line. *)
Definition tracks (lines : list str) (cur : dict (nat * str)) (K : list str)
    : Prop :=
  forall name,
    match dict_get name cur with
    | Some (idx, c) =>
        nth idx lines [] = c /\ Dedup.prop_name c = Some name /\ In c K
    | None => forall x, In x K -> Spec.has_name name x = false
    end.

(** The lines written for the lines [lines], told without the tracker:
    [open] holds the kept lines of the block that is open, if one is. *)
Fixpoint dedup_spec (open : option (list str)) (lines : list str) : list str :=
  let flush := match open with Some K => K | None => [] end in
  match lines with
  | [] => flush
  | l :: ls =>
      if Dedup.is_properties l then flush ++ l :: dedup_spec (Some []) ls
      else if Dedup.is_end l then flush ++ l :: dedup_spec None ls
      else
        match open with
        | Some K => dedup_spec (Some (absorb K l)) ls
        | None => l :: dedup_spec None ls
        end
  end.

(** The state of the loop that goes with [open], after the lines [R0]
    written before the open block. *)
Definition state_ok (lines : list str) (st : Dedup.dstate) (R0 : list str)
    (open : option (list str)) : Prop :=
  match open with
  | Some K =>
      Dedup.result_lines st = R0 ++ K /\
      Dedup.in_properties st = true /\
      tracks lines (Dedup.current_properties st) K /\
      NoDup (Spec.names K)
  | None =>
      Dedup.result_lines st = R0 /\ Dedup.in_properties st = false
  end.

(** The text after the second colon of the stripped line: nothing for an
    empty value, a space and the value otherwise. *)
Definition tail_of (v : str) : str :=
  match v with [] => [] | _ :: _ => " "%char :: v end.

(** A run of [process_org_file] behind lines [pfx] already written. *)
Definition prepend_state (pfx : list str) (st : EnrichOrgTmdb.state)
    : EnrichOrgTmdb.state :=
  {| EnrichOrgTmdb.rest := EnrichOrgTmdb.rest st;
     EnrichOrgTmdb.output_lines := pfx ++ EnrichOrgTmdb.output_lines st;
     EnrichOrgTmdb.disk := pfx ++ EnrichOrgTmdb.disk st;
     EnrichOrgTmdb.calls := EnrichOrgTmdb.calls st |}.

Definition prepend_run (pfx : list str) (r : EnrichOrgTmdb.run)
    : EnrichOrgTmdb.run :=
  {| EnrichOrgTmdb.raised := EnrichOrgTmdb.raised r;
     EnrichOrgTmdb.final_disk := pfx ++ EnrichOrgTmdb.final_disk r;
     EnrichOrgTmdb.final_calls := EnrichOrgTmdb.final_calls r |}.

Definition map_result {A B} (f : A -> B) (r : result A) : result B :=
  match r with
  | Ok a => Ok (f a)
  | Raise e => Raise e
  end.

(** The state [process_org_file] starts from. *)
Definition initial (lines : list str) : EnrichOrgTmdb.state :=
  {| EnrichOrgTmdb.rest := lines;
     EnrichOrgTmdb.output_lines := [];
     EnrichOrgTmdb.disk := lines;
     EnrichOrgTmdb.calls := [] |}.

(** The confidence [update_org_entries] gives a result, for
    [calculate_confidence] as the parameter of [AnyConfidence]. *)
Definition confidence_of
    (calculate_confidence :
       str -> str -> str -> option Z -> option str -> pynum)
    (heading suggested_search : str)
    (year_hint : option Z) (c : Scorer.candidate) : pynum :=
  calculate_confidence heading suggested_search
    (Scorer.get_or_empty (Scorer.c_title c)) year_hint
    (Scorer.c_release_date c).

(** What the loop of [update_org_entries] holds after the results [cs],
    of confidences [conf]: the first of them of the highest confidence,
    when that confidence is above zero, and nothing otherwise. *)
Definition held (conf : Scorer.candidate -> pynum)
    (cs : list Scorer.candidate) (b : option Scorer.candidate * pynum)
    : Prop :=
  match b with
  | (Some c, best) =>
      exists i,
        nth_error cs i = Some c /\ best = conf c /\ (0 < num_val best)%Q /\
        forall j c', nth_error cs j = Some c' ->
          (num_val (conf c') <= num_val best)%Q
          /\ (j < i -> (num_val (conf c') < num_val best)%Q)
  | (None, best) =>
      best = PyInt 0 /\
      forall j c', nth_error cs j = Some c' -> (num_val (conf c') <= 0)%Q
  end.

End Aux.

(** ** Notions of the further properties *)

Module Notions.

(** [a] is [b] with some of its elements left out: nothing added, nothing
    changed, the order kept. *)
Inductive subseq {A : Type} : list A -> list A -> Prop :=
| subseq_nil : subseq [] []
| subseq_keep (x : A) (a b : list A) : subseq a b -> subseq (x :: a) (x :: b)
| subseq_drop (x : A) (a b : list A) : subseq a b -> subseq a (x :: b).

(** What the counters of the de-duplicator keep, whatever the lines: a
    detail for each removal, and no more blocks with duplicates than
    blocks. *)
Definition counters_ok (st : Dedup.dstate) (ss : DedupStats.sstate) : Prop :=
  List.length (DedupStats.duplicate_details (DedupStats.st_stats ss))
  = DedupStats.total_duplicates_removed (DedupStats.st_stats ss)
  /\ if Dedup.in_properties st
     then DedupStats.entries_with_duplicates (DedupStats.st_stats ss) + 1
          <= DedupStats.total_entries (DedupStats.st_stats ss)
     else DedupStats.duplicates_in_current_block ss = []
          /\ DedupStats.entries_with_duplicates (DedupStats.st_stats ss)
             <= DedupStats.total_entries (DedupStats.st_stats ss).

(** A line that [parse_org_title] reads as a heading. *)
Definition parses (line : str) : bool :=
  match Normalizer.parse_org_title line with
  | Some _ => true
  | None => false
  end.

(** A line that is not a line of the search hint. *)
Definition not_suggested (line : str) : bool :=
  negb (EnrichOrgTmdb.is_suggested line).

(** The headlines of a file, each with its index and the title it gives:
    the text after the star and the space, without the newline. [i] is
    the index of the first line. *)
Fixpoint headlines (i : nat) (lines : list str) : list (nat * str) :=
  match lines with
  | [] => []
  | l :: ls =>
      if OrgParser.is_headline l
      then (i, OrgParser.rstrip_newlines (skipn 2 l)) :: headlines (S i) ls
      else headlines (S i) ls
  end.

(** The entries the headlines stand for: each runs from its headline to
    the next one, the last to the end of the file. *)
Fixpoint outline (hs : list (nat * str)) (len : nat)
    : list (nat * str * option nat) :=
  match hs with
  | [] => []
  | (i, h) :: hs' =>
      (i, h, Some match hs' with [] => len | (j, _) :: _ => j end)
      :: outline hs' len
  end.

(** Where an entry starts, how it is titled and where it ends. *)
Definition extent (e : OrgParser.entry) : nat * str * option nat :=
  (OrgParser.line_number e, OrgParser.heading e, OrgParser.end_line e).

(** What the parser knows of the entry it is reading at line [i] of
    [lines]: the entry started before, its markers lie after its headline
    and are lines that mark, and it has properties only once a block was
    opened. *)
Definition entry_ok (lines : list str) (i : nat) (e : OrgParser.entry) : Prop :=
  OrgParser.line_number e < i
  /\ (forall s, OrgParser.properties_start e = Some s ->
                OrgParser.line_number e < s < i
                /\ OrgParser.is_properties (nth s lines []) = true)
  /\ (forall t, OrgParser.properties_end e = Some t ->
                OrgParser.line_number e < t < i
                /\ OrgParser.is_end (nth t lines []) = true)
  /\ (OrgParser.properties_start e = None -> OrgParser.properties e = []).

(** The lookup [update_org_entries] makes for an entry: its search hint,
    with the year hint that goes with it. *)
Definition hint_query (e : OrgParser.entry) : Scorer.query :=
  let suggested_search :=
    match dict_get (lit "SUGGESTED_SEARCH") (OrgParser.properties e) with
    | Some v => v
    | None => []
    end in
  (suggested_search,
   UpdateFromSuggested.year_hint_of (OrgParser.properties e) suggested_search).

(** A record of a file in the form the scripts write it: its headline,
    its properties, and the lines that follow its block. *)
Record record := {
  r_headline : str;
  r_props : dict str;
  r_body : list str
}.

(** The lines of a record: the headline, the block, the other lines. *)
Definition render (r : record) : list str :=
  r_headline r :: OrgParser.build_prop_lines (r_props r) ++ r_body r.

(** A record in that form: a headline, properties that are canonical and
    named once each, and then lines that are no headlines and no
    markers. *)
Definition well_formed (r : record) : Prop :=
  OrgParser.is_headline (r_headline r) = true
  /\ Forall (fun kv => Spec.canonical kv = true) (r_props r)
  /\ NoDup (map fst (r_props r))
  /\ Forall (fun l => Spec.plain l = true) (r_body r).

(** The title of a record, as the parser reads it off the headline. *)
Definition title_of (r : record) : str :=
  OrgParser.rstrip_newlines (skipn 2 (r_headline r)).

(** The entries of records that follow each other from line [off] on. *)
Fixpoint entries_of (off : nat) (recs : list record) : list OrgParser.entry :=
  match recs with
  | [] => []
  | r :: rs =>
      {| OrgParser.line_number := off;
         OrgParser.heading := title_of r;
         OrgParser.properties_start := Some (off + 1);
         OrgParser.properties_end := Some (off + 2 + List.length (r_props r));
         OrgParser.properties := r_props r;
         OrgParser.end_line := Some (off + List.length (render r)) |}
      :: entries_of (off + List.length (render r)) rs
  end.

(** What the notes add to a record: the properties of the note filed
    under its title, if there is one. *)
Definition additions (knowledge : dict InjectKnowledge.knowledge_entry)
    (r : record) : dict str :=
  match dict_get (title_of r) knowledge with
  | Some k => InjectKnowledge.new_props_of k
  | None => []
  end.

Definition has_additions (knowledge : dict InjectKnowledge.knowledge_entry)
    (r : record) : bool :=
  match additions knowledge r with [] => false | _ :: _ => true end.

(** The record with the additions merged into its properties: a property
    it has takes the new value in its place, a new one goes last. *)
Definition injected (knowledge : dict InjectKnowledge.knowledge_entry)
    (r : record) : record :=
  {| r_headline := r_headline r;
     r_props := dict_update (r_props r) (additions knowledge r);
     r_body := r_body r |}.

(** An entry known by its properties only. *)
Definition entry_with (props : dict str) : OrgParser.entry :=
  {| OrgParser.line_number := 0;
     OrgParser.heading := [];
     OrgParser.properties_start := None;
     OrgParser.properties_end := None;
     OrgParser.properties := props;
     OrgParser.end_line := None |}.

(** Whether [update_org_entries] processes a record: it has a search
    hint, and no identifier or a review flag that is set. *)
Definition needs (r : record) : bool :=
  UpdateFromSuggested.needs_processing (entry_with (r_props r)).

(** The lookup made for a record. *)
Definition record_query (r : record) : Scorer.query :=
  hint_query (entry_with (r_props r)).

(** The three properties a match writes are there already. *)
Definition has_match_props (r : record) : bool :=
  dict_mem (lit "TMDB_ID") (r_props r)
  && dict_mem (lit "TMDB_TITLE") (r_props r)
  && dict_mem (lit "TMDB_CONFIDENCE") (r_props r).

(** The match [update_org_entries] finds for a record it processes: the
    identifier and the title of the best of the first five results, and
    its confidence; none when the lookup returns nothing, when no result
    has a confidence above zero, or when the best one has no identifier.
    [calculate_confidence] is the parameter of [AnyConfidence]. *)
Definition match_of
    (calculate_confidence :
       str -> str -> str -> option Z -> option str -> pynum)
    (search : Scorer.search_fn) (r : record) : option (Z * str * pynum) :=
  if needs r then
    let (suggested_search, year_hint) := record_query r in
    match AnyConfidence.best_of calculate_confidence (title_of r)
            suggested_search year_hint (search suggested_search year_hint) with
    | (Some best_match, best_confidence) =>
        match Scorer.c_id best_match with
        | Some tmdb_id =>
            Some (tmdb_id, Scorer.get_or_empty (Scorer.c_title best_match),
                  best_confidence)
        | None => None
        end
    | (None, _) => None
    end
  else None.

Definition is_rematched
    (calculate_confidence :
       str -> str -> str -> option Z -> option str -> pynum)
    (search : Scorer.search_fn) (r : record) : bool :=
  match match_of calculate_confidence search r with
  | Some _ => true
  | None => false
  end.

(** The record with the three properties of its match set: a property it
    had takes the new value in its place, a new one goes last. *)
Definition rematched
    (calculate_confidence :
       str -> str -> str -> option Z -> option str -> pynum)
    (search : Scorer.search_fn) (r : record) : record :=
  match match_of calculate_confidence search r with
  | Some (tmdb_id, tmdb_title, best_confidence) =>
      {| r_headline := r_headline r;
         r_props :=
           dict_set (lit "TMDB_CONFIDENCE") (format_2f best_confidence)
             (dict_set (lit "TMDB_TITLE") tmdb_title
                (dict_set (lit "TMDB_ID") (str_of_Z tmdb_id) (r_props r)));
         r_body := r_body r |}
  | None => r
  end.

(** A text whose whitespace is single spaces: every whitespace character
    is a space, and no two of them stand next to each other. *)
Fixpoint single_spaced (s : str) : bool :=
  match s with
  | a :: s' =>
      (negb (isspace a) || eqb_char a " "%char)
      && match s' with
         | b :: _ => negb (isspace a && isspace b)
         | [] => true
         end
      && single_spaced s'
  | [] => true
  end.

(** A text without a parenthesised group: after its first opening
    parenthesis, if it has one, no closing parenthesis follows. *)
Fixpoint no_group (s : str) : bool :=
  match s with
  | c :: s' =>
      if eqb_char c "("%char then negb (contains ")"%char s')
      else no_group s'
  | [] => true
  end.

(** The parentheses of a text. *)
Definition parens (s : str) : str :=
  filter (fun c => eqb_char c "("%char || eqb_char c ")"%char) s.

(** A text without whitespace. *)
Definition solid (s : str) : bool := forallb (fun c => negb (isspace c)) s.

(** [has_properties] of [process_org_file] in [enrich_org_tmdb.py], for
    the lines [tl] after a heading. *)
Definition has_properties (tl : list str) : bool :=
  match tl with
  | l1 :: _ => EnrichOrgTmdb.is_properties l1
  | [] => false
  end.

(** The [properties] it reads there. *)
Definition block_properties (tl : list str) : dict str :=
  if has_properties tl then EnrichOrgTmdb.read_properties (skipn 1 tl)
  else [].

(** The two checks that make it skip a record. *)
Definition exempt (properties : dict str) : bool :=
  EnrichOrgTmdb.ai_verified properties || dict_mem (lit "TMDB_ID") properties.

(** No property block that follows a heading holds a heading before its
    [:END:] line, or before the end of the file when it has none. *)
Fixpoint blocks_closed (lines : list str) : bool :=
  match lines with
  | [] => true
  | line :: tl =>
      (if EnrichOrgTmdb.is_heading line && has_properties tl
       then forallb EnrichOrgTmdb.not_heading
              (take_while EnrichOrgTmdb.not_end (skipn 1 tl))
       else true)
      && blocks_closed tl
  end.

(** A result with an identifier that is not zero and a title of one
    line. *)
Definition usable (c : Scorer.candidate) : bool :=
  truthy_int (Scorer.c_id c)
  && forallb TextIO.inline (fmt_opt (Scorer.c_title c)).

(** An object of a batch file that has the title [title], which is not
    empty. *)
Definition titled (title : str) (e : KnowledgeBatches.batch_entry) : bool :=
  match fst e with
  | Some ((_ :: _) as t) => eqb_str t title
  | _ => false
  end.

Definition has_title (e : KnowledgeBatches.batch_entry) : bool :=
  truthy_str (fst e).

(** The last object of that title. *)
Definition last_titled (title : str)
    (entries : list KnowledgeBatches.batch_entry)
    : option InjectKnowledge.knowledge_entry :=
  option_map snd (find (titled title) (rev entries)).

(** The headings of a file whose first line has the number [n]: what
    [parse_org_entry] makes of each line, under its number. *)
Definition headings_from (n : nat) (lines : list str)
    : list Normalizer.parsed_entry :=
  flat_map
    (fun il =>
       match Normalizer.parse_org_entry (snd il) (fst il) with
       | Some p => [p]
       | None => []
       end)
    (combine (seq n (List.length lines)) lines).

(** The counters of [enrich_org_tmdb.py] add up, and fit the lookups
    [log] made so far: each record looked up took one or two. *)
Definition looked_up (s : EnrichStats.stats) : nat :=
  EnrichStats.high_confidence s + EnrichStats.medium_confidence s
  + EnrichStats.low_confidence s + EnrichStats.no_match s.

Definition stats_ok (s : EnrichStats.stats) (log : list Scorer.query) : Prop :=
  EnrichStats.total s
  = EnrichStats.skipped_verified s + EnrichStats.skipped s + looked_up s
  /\ EnrichStats.used_suggested_search s <= looked_up s
  /\ looked_up s <= List.length log <= 2 * looked_up s.

(** A string that ends with a newline. *)
Definition terminated (l : str) : bool :=
  match rev l with
  | c :: _ => eqb_char c nl
  | [] => false
  end.

End Notions.

(** ** Examples

    The data of the specification's examples and of the inputs the
    properties below are evaluated at. *)

Module Examples.
Import Scorer.

(** The candidate of the end-to-end example: titled Heat, released on
    1995-12-15, identifier 123. *)
Definition heat : candidate :=
  {| c_id := Some 123%Z;
     c_title := Some (lit "Heat");
     c_original_title := Some (lit "Heat");
     c_release_date := Some (lit "1995-12-15") |}.

(** A candidate whose release date does not start with a number. *)
Definition undated : candidate :=
  {| c_id := Some 7%Z;
     c_title := Some (lit "Heat");
     c_original_title := Some (lit "Heat");
     c_release_date := Some (lit "unknown") |}.

(** The lookup of the end-to-end example: one candidate, whatever the
    query. *)
Definition stub : search_fn := fun _ _ => [heat].

(** The entry parsed from the heading "* Heat (1995)" at line 1. *)
Definition heat_entry : Normalizer.parsed_entry :=
  {| Normalizer.line_number := 1;
     Normalizer.original_title := lit "Heat (1995)";
     Normalizer.cleaned_title := lit "Heat";
     Normalizer.year_hint := Some 1995%Z |}.

(** The heading of the specification's example, with its acute accent. *)
Definition film_heading : str :=
  lit "* Film Title (" ++ [Normalizer.acute] ++ ln "1964_/Trailer)".

Definition film_full_title : str :=
  lit "Film Title (" ++ [Normalizer.acute] ++ lit "1964_/Trailer)".

(** A heading with a number before its year. *)
Definition nacht_heading : str := ln "* 1001 Nacht (1964)".

(** A block in which an empty YEAR property comes before a YEAR with a
    value. *)
Definition empty_year_block : list str :=
  [ln ":PROPERTIES:"; ln ":YEAR:"; ln ":YEAR: 2001"; ln ":END:"].

(** The document of the end-to-end example, under a heading that carries
    the year of the candidate. *)
Definition heat_doc : list str :=
  [ln "* Heat (1995)"; ln ":PROPERTIES:"; ln ":SUGGESTED_SEARCH: Heat 1995";
   ln ":END:"].

(** The same record under a heading without year. *)
Definition heat_doc_plain : list str :=
  [ln "* Heat"; ln ":PROPERTIES:"; ln ":SUGGESTED_SEARCH: Heat 1995";
   ln ":END:"].

(** A record that has an identifier, a review flag and a search hint. *)
Definition flagged_doc : list str :=
  [ln "* Heat (1995)"; ln ":PROPERTIES:"; ln ":TMDB_ID: 949";
   ln ":NEEDS_REVIEW: true"; ln ":SUGGESTED_SEARCH: Heat 1995"; ln ":END:"].

(** A record with an identifier, followed by another heading. *)
Definition kept_doc : list str :=
  [ln "* Heat (1995)"; ln ":PROPERTIES:"; ln ":TMDB_ID: 949";
   ln ":NEEDS_REVIEW: true"; ln ":END:"; ln "Seen twice."; ln "* Ronin"].

(** The match the end-to-end example gives in [enrich_org_tmdb.py]. *)
Definition heat_match : EnrichOrgTmdb.match_info :=
  {| EnrichOrgTmdb.tmdb_id := Some 123%Z;
     EnrichOrgTmdb.confidence := PyFloat (7154 # 100);
     EnrichOrgTmdb.tmdb_title := Some (lit "Heat");
     EnrichOrgTmdb.tmdb_original_title := Some (lit "Heat");
     EnrichOrgTmdb.needs_review := true;
     EnrichOrgTmdb.match_status := MEDIUM_CONFIDENCE |}.


(** A note for the record above. *)
Definition alien_note : dict InjectKnowledge.knowledge_entry :=
  [(lit "Alien",
    {| InjectKnowledge.k_tmdb_id := None;
       InjectKnowledge.k_suggested_search := None;
       InjectKnowledge.k_corrected := None;
       InjectKnowledge.k_year := None;
       InjectKnowledge.k_notes := Some (lit "Director's cut") |})].

End Examples.

(** ** Inputs of the further properties *)

Module Samples.
Import Scorer.

(** The lines of a block that names YEAR three times, with a note between
    them. *)
Definition years_body : list str :=
  [ln ":YEAR: 1999"; ln ":GENRE: Drama"; ln ":YEAR: 2000"; ln "a note";
   ln ":YEAR: 2001"].

(** A record without property block. *)
Definition bare_doc : list str := [ln "* Alien"; ln "Seen in 1992."].

(** Two records in the form the scripts write. *)
Definition alien_record : Notions.record :=
  {| Notions.r_headline := ln "* Alien";
     Notions.r_props := [(lit "YEAR", lit "1979")];
     Notions.r_body := [ln "Seen in 1992."] |}.

Definition ronin_record : Notions.record :=
  {| Notions.r_headline := ln "* Ronin";
     Notions.r_props := [(lit "GENRE", lit "Crime")];
     Notions.r_body := [] |}.

(** The record of the end-to-end example, in that form. *)
Definition heat_record : Notions.record :=
  {| Notions.r_headline := ln "* Heat (1995)";
     Notions.r_props := [(lit "SUGGESTED_SEARCH", lit "Heat 1995")];
     Notions.r_body := [ln "Seen twice."] |}.

(** A file of three records: one to look up, one that has an identifier
    and one without block. *)
Definition three_doc : list str :=
  [ln "My films"; ln "* Heat (1995)"; ln ":PROPERTIES:";
   ln ":SUGGESTED_SEARCH: Heat 1995"; ln ":END:"; ln "Seen twice.";
   ln "* Ronin"; ln ":PROPERTIES:"; ln ":TMDB_ID: 8195"; ln ":END:";
   ln "* Alien"; ln "Seen in 1992."].

(** A record that has a match and a review flag, with a search hint. *)
Definition flagged_record : Notions.record :=
  {| Notions.r_headline := ln "* Hat (1995)";
     Notions.r_props :=
       [(lit "TMDB_ID", lit "949"); (lit "TMDB_TITLE", lit "Hat");
        (lit "TMDB_CONFIDENCE", lit "50.00");
        (lit "NEEDS_REVIEW", lit "true");
        (lit "SUGGESTED_SEARCH", lit "Heat 1995")];
     Notions.r_body := [ln "To be checked."] |}.

(** Three results: a sequel, then the film of the title twice, under two
    identifiers. *)
Definition sequel : candidate :=
  {| c_id := Some 5%Z;
     c_title := Some (lit "Heat 2");
     c_original_title := Some (lit "Heat 2");
     c_release_date := Some (lit "1995-12-15") |}.

Definition heat_again : candidate :=
  {| c_id := Some 456%Z;
     c_title := Some (lit "Heat");
     c_original_title := Some (lit "Heat");
     c_release_date := Some (lit "1995-12-15") |}.

Definition three_results : search_fn :=
  fun _ _ => [sequel; Examples.heat; heat_again].

(** Another film, then the film of the title twice. *)
Definition ronin : candidate :=
  {| c_id := Some 8195%Z;
     c_title := Some (lit "Ronin");
     c_original_title := Some (lit "Ronin");
     c_release_date := Some (lit "1998-09-25") |}.

Definition tied_results : search_fn :=
  fun _ _ => [ronin; Examples.heat; heat_again].

(** A record whose block does not start on the line after its heading. *)
Definition gap_doc : list str :=
  [ln "* Heat (1995)"; ln "SCHEDULED: <2024-01-01>"; ln ":PROPERTIES:";
   ln ":TMDB_ID: 949"; ln ":END:"].

(** A record with a second drawer after its property block. *)
Definition drawer_doc : list str :=
  [ln "* Alien"; ln ":PROPERTIES:"; ln ":YEAR: 1979"; ln ":END:";
   ln ":LOGBOOK:"; ln "CLOCK: [2024-01-01]"; ln ":END:"].

End Samples.

(** * Properties *)

(** ** Strings and numbers *)

Section PyFacts.

Lemma eqb_char_eq (a b : ascii) : eqb_char a b = true <-> a = b.
Proof. unfold eqb_char. apply Ascii.eqb_eq. Qed.

Lemma eqb_char_refl (a : ascii) : eqb_char a a = true.
Proof. apply eqb_char_eq. reflexivity. Qed.

Lemma eqb_str_eq (a b : str) : eqb_str a b = true <-> a = b.
Proof.
  revert b. induction a as [|x a IH]; intros [|y b]; simpl; split;
    try congruence; try reflexivity.
  - intros H. apply andb_true_iff in H. destruct H as [H1 H2].
    apply eqb_char_eq in H1. apply IH in H2. congruence.
  - intros H. injection H as -> ->. rewrite eqb_char_refl. simpl.
    apply IH. reflexivity.
Qed.

Lemma eqb_str_refl (a : str) : eqb_str a a = true.
Proof. apply eqb_str_eq. reflexivity. Qed.

Lemma eqb_str_neq (a b : str) : eqb_str a b = false <-> a <> b.
Proof.
  destruct (eqb_str a b) eqn:E.
  - apply eqb_str_eq in E. split; congruence.
  - split; [|reflexivity]. intros _ H. apply eqb_str_eq in H. congruence.
Qed.

Lemma Qlt_bool_iff (a b : Q) : Qlt_bool a b = true <-> (a < b)%Q.
Proof.
  unfold Qlt_bool. rewrite negb_true_iff. split.
  - intros H. apply Qnot_le_lt. intros L. apply Qle_bool_iff in L. congruence.
  - intros H. destruct (Qle_bool b a) eqn:E; [|reflexivity].
    apply Qle_bool_iff in E. exfalso. apply (Qlt_not_le _ _ H E).
Qed.

Lemma Qlt_bool_false (a b : Q) : Qlt_bool a b = false <-> (b <= a)%Q.
Proof.
  unfold Qlt_bool. rewrite negb_false_iff. apply Qle_bool_iff.
Qed.

Lemma py_min_val (a b : pynum) :
  (num_val (py_min a b) == Qmin (num_val a) (num_val b))%Q.
Proof.
  unfold py_min. destruct (Qlt_bool (num_val b) (num_val a)) eqn:E.
  - apply Qlt_bool_iff in E. symmetry. apply Q.min_r. apply Qlt_le_weak, E.
  - apply Qlt_bool_false in E. symmetry. apply Q.min_l. exact E.
Qed.

Lemma py_max_val (a b : pynum) :
  (num_val (py_max a b) == Qmax (num_val a) (num_val b))%Q.
Proof.
  unfold py_max. destruct (Qlt_bool (num_val a) (num_val b)) eqn:E.
  - apply Qlt_bool_iff in E. symmetry. apply Q.max_r. apply Qlt_le_weak, E.
  - apply Qlt_bool_false in E. symmetry. apply Q.max_l. exact E.
Qed.

End PyFacts.

(** ** The similarity ratio stays within 0 and 100 *)

Section RatioFacts.

Lemma lcs_le_l (a b : str) : Fuzz.lcs a b <= List.length a.
Proof.
  revert b. induction a as [|x a IH]; intros b; simpl; [lia|].
  induction b as [|y b IHb]; [lia|].
  destruct (eqb_char x y).
  - specialize (IH b). lia.
  - specialize (IH (y :: b)). lia.
Qed.

Lemma lcs_le_r (a b : str) : Fuzz.lcs a b <= List.length b.
Proof.
  revert b. induction a as [|x a IH]; intros b; simpl; [lia|].
  induction b as [|y b IHb]; [lia|].
  destruct (eqb_char x y).
  - specialize (IH b). simpl. lia.
  - specialize (IH (y :: b)). simpl in *. lia.
Qed.

Lemma ratio_bounds (a b : str) : (0 <= Fuzz.ratio a b <= 100)%Q.
Proof.
  unfold Fuzz.ratio.
  destruct (List.length a + List.length b) as [|n] eqn:E.
  - split; unfold Qle; simpl; lia.
  - pose proof (lcs_le_l a b). pose proof (lcs_le_r a b).
    split; unfold Qle; simpl Qnum; simpl Qden.
    + lia.
    + rewrite Zpos_P_of_succ_nat. lia.
Qed.

End RatioFacts.

(** ** The score of one candidate *)

Section ScoreFacts.
Import Scorer Examples.

(** The score without the error case: what [boost] returns when the
    release year can be read. *)
Lemma boost_unfold (base : pynum) (year_hint : option Z) (tmdb_year : option str) :
  boost base year_hint tmdb_year =
  if truthy_int year_hint && truthy_str tmdb_year then
    match year_hint, Spec.release_year tmdb_year with
    | Some hint, Some y =>
        if (y =? hint)%Z then Ok (py_min (PyInt 100) (py_add_int base 10))
        else if (Z.abs (y - hint) <=? 1)%Z
        then Ok (py_min (PyInt 100) (py_add_int base 5))
        else Ok base
    | _, _ => Raise ValueError
    end
  else Ok base.
Proof.
  unfold boost, Spec.release_year.
  destruct year_hint as [h|]; cbn [truthy_int andb]; [|reflexivity].
  destruct tmdb_year as [[|c d]|]; cbn [truthy_str];
    rewrite ?andb_false_r; reflexivity.
Qed.

Lemma boost_ok_iff (base : pynum) (year_hint : option Z) (tmdb_year : option str) :
  is_ok (boost base year_hint tmdb_year) = Spec.scorable year_hint tmdb_year.
Proof.
  rewrite boost_unfold. unfold Spec.scorable.
  destruct (truthy_int year_hint && truthy_str tmdb_year) eqn:E; simpl;
    [|reflexivity].
  destruct year_hint as [h|]; [|discriminate].
  destruct (Spec.release_year tmdb_year) as [y|]; [|reflexivity].
  destruct (y =? h)%Z; [reflexivity|].
  destruct (Z.abs (y - h) <=? 1)%Z; reflexivity.
Qed.

(** The bonus [boost] adds, read off the code: the value the final score
    is compared with below. *)
Lemma boost_value (base : pynum) (year_hint : option Z) (tmdb_year : option str) :
  year_hint <> Some 0%Z ->
  Spec.scorable year_hint tmdb_year = true ->
  (num_val base <= 100)%Q ->
  exists s,
    boost base year_hint tmdb_year = Ok s /\
    (num_val s ==
     Qmin 100 (num_val base
               + Spec.year_bonus year_hint (Spec.release_year tmdb_year)))%Q.
Proof.
  intros Hh Hs Hb. rewrite boost_unfold. unfold Spec.scorable in Hs.
  assert (Hplain : (num_val base == Qmin 100 (num_val base + 0))%Q).
  { rewrite Qplus_0_r. symmetry. apply Q.min_r. exact Hb. }
  destruct year_hint as [h|].
  2:{ simpl. exists base. split; [reflexivity|]. exact Hplain. }
  assert (Hnz : (h =? 0)%Z = false).
  { apply Z.eqb_neq. intros ->. apply Hh. reflexivity. }
  simpl truthy_int in *. rewrite Hnz in *. simpl negb in *.
  rewrite andb_true_l in *.
  destruct (truthy_str tmdb_year) eqn:Et.
  - simpl in Hs. destruct (Spec.release_year tmdb_year) as [y|]; [|discriminate].
    simpl. destruct (y =? h)%Z eqn:E1.
    + eexists. split; [reflexivity|]. rewrite py_min_val. simpl. reflexivity.
    + destruct (Z.abs (y - h) <=? 1)%Z eqn:E2.
      * assert (E3 : (Z.abs (y - h) =? 1)%Z = true).
        { apply Z.eqb_neq in E1. apply Z.leb_le in E2. apply Z.eqb_eq. lia. }
        rewrite E3. eexists. split; [reflexivity|]. rewrite py_min_val.
        simpl. reflexivity.
      * assert (E3 : (Z.abs (y - h) =? 1)%Z = false).
        { apply Z.leb_gt in E2. apply Z.eqb_neq. lia. }
        rewrite E3. exists base. split; [reflexivity|]. exact Hplain.
  - exists base. split; [reflexivity|].
    assert (Spec.release_year tmdb_year = None) as ->.
    { destruct tmdb_year as [[|c d]|]; try reflexivity. discriminate. }
    exact Hplain.
Qed.

Lemma base_score_val (a b : str) (c : str) :
  (num_val (py_max (PyFloat (Fuzz.ratio c a)) (PyFloat (Fuzz.ratio c b)))
   == Qmax (Fuzz.ratio c a) (Fuzz.ratio c b))%Q.
Proof. rewrite py_max_val. reflexivity. Qed.

Lemma base_score_le_100 (a b c : str) :
  (num_val (py_max (PyFloat (Fuzz.ratio c a)) (PyFloat (Fuzz.ratio c b)))
   <= 100)%Q.
Proof.
  rewrite py_max_val. simpl. apply Q.max_lub; apply ratio_bounds.
Qed.

(** C1. For a query, a year hint and a candidate whose release date can be
    read, the score of the candidate is the larger of the two similarity
    ratios of the lowercased query, with the candidate's title and with
    its original title, plus 10 when the hint is the release year and 5
    when they differ by one, capped at 100. *)
Theorem C1_candidate_score (title : str) (year_hint : option Z) (r : candidate) :
  year_hint <> Some 0%Z ->
  Spec.scorable year_hint (c_release_date r) = true ->
  exists s,
    score_candidate title year_hint r = Ok s /\
    (num_val s ==
     Qmin 100
       (Qmax (Fuzz.ratio (lower title) (lower (get_or_empty (c_title r))))
             (Fuzz.ratio (lower title)
                (lower (get_or_empty (c_original_title r))))
        + Spec.year_bonus year_hint
            (Spec.release_year (c_release_date r))))%Q.
Proof.
  intros Hh Hs. unfold score_candidate, calculate_match_score.
  destruct (boost_value
              (py_max (PyFloat (Fuzz.ratio (lower title)
                                  (lower (get_or_empty (c_title r)))))
                      (PyFloat (Fuzz.ratio (lower title)
                                  (lower (get_or_empty (c_original_title r))))))
              (c_release_date r) Hh Hs (base_score_le_100 _ _ _))
    as [s [E V]].
  exists s. split; [exact E|]. rewrite V. rewrite base_score_val. reflexivity.
Qed.

Lemma C1_candidate_score_witness :
  exists s,
    score_candidate (lit "Heat 1995") (Some 1995%Z) heat = Ok s /\
    (num_val s ==
     Qmin 100
       (Qmax (Fuzz.ratio (lower (lit "Heat 1995"))
                (lower (get_or_empty (c_title heat))))
             (Fuzz.ratio (lower (lit "Heat 1995"))
                (lower (get_or_empty (c_original_title heat))))
        + Spec.year_bonus (Some 1995%Z)
            (Spec.release_year (c_release_date heat))))%Q.
Proof.
  apply (@C1_candidate_score (lit "Heat 1995") (Some 1995%Z) heat).
  - discriminate.
  - reflexivity.
Defined.

End ScoreFacts.

Section ScoreOrder.
Import Scorer Examples UpdateFromSuggested.


(** The year part of the score as a capped sum: a bonus that depends on
    the hint and the date only. Without a bonus the base score is returned
    as it is. *)
Lemma boost_capped (year_hint : option Z) (tmdb_year : option str) :
  Spec.scorable year_hint tmdb_year = true ->
  exists bonus : Q,
    (0 <= bonus)%Q /\
    (((bonus == 0)%Q /\ forall base, boost base year_hint tmdb_year = Ok base)
     \/
     (forall base,
        exists s, boost base year_hint tmdb_year = Ok s /\
                  (num_val s == Qmin 100 (num_val base + bonus))%Q)).
Proof.
  intros Hs. pose proof (boost_ok_iff (PyInt 0) year_hint tmdb_year) as Hok.
  rewrite Hs in Hok. clear Hs.
  rewrite boost_unfold in Hok.
  destruct (truthy_int year_hint && truthy_str tmdb_year) eqn:E.
  - destruct year_hint as [h|]; [|discriminate].
    destruct (Spec.release_year tmdb_year) as [y|] eqn:Ey; [|discriminate].
    destruct (y =? h)%Z eqn:E1; [|destruct (Z.abs (y - h) <=? 1)%Z eqn:E2].
    + exists 10%Q. split; [discriminate|]. right. intros base.
      rewrite boost_unfold, E, Ey, E1. eexists. split; [reflexivity|].
      rewrite py_min_val. reflexivity.
    + exists 5%Q. split; [discriminate|]. right. intros base.
      rewrite boost_unfold, E, Ey, E1, E2. eexists. split; [reflexivity|].
      rewrite py_min_val. reflexivity.
    + exists 0%Q. split; [discriminate|]. left. split; [reflexivity|].
      intros base. rewrite boost_unfold, E, Ey, E1, E2. reflexivity.
  - exists 0%Q. split; [discriminate|]. left. split; [reflexivity|].
    intros base. rewrite boost_unfold, E. reflexivity.
Qed.

(** The score of the variant [calculate_confidence] is a capped sum as
    well. *)
Lemma confidence_capped (year_hint : option Z) (tmdb_year : option str) :
  exists bonus : Q,
    forall original suggested tmdb_title,
      (num_val (calculate_confidence original suggested tmdb_title
                  year_hint tmdb_year)
       == Qmin 100 (Fuzz.ratio (lower suggested) (lower tmdb_title) + bonus))%Q.
Proof.
  unfold calculate_confidence.
  match goal with
  | |- context [inject_Z ?b] => exists (inject_Z b)
  end.
  intros. rewrite py_min_val. reflexivity.
Qed.



(** C10. [calculate_match_score] returns a score exactly when the release
    date, if there is one and a hint to compare it with, starts with a
    number before its first dash; otherwise the conversion raises
    [ValueError]. A hint of 1995 and the release date "unknown" reach the
    error. The variant [calculate_confidence], which has an [except]
    clause, returns a score for every input, and the plain similarity,
    without bonus, when the first four characters of the date are not a
    number. *)
Theorem C10_score_partial :
  (forall original tmdb_title tmdb_original_title year_hint tmdb_year,
     match calculate_match_score original tmdb_title tmdb_original_title
             year_hint tmdb_year with
     | Ok _ => Spec.scorable year_hint tmdb_year = true
     | Raise e => e = ValueError /\ Spec.scorable year_hint tmdb_year = false
     end) /\
  (truthy_int (Some 1995%Z) = true /\
   truthy_str (c_release_date undated) = true /\
   Spec.release_year (c_release_date undated) = None /\
   score_candidate (lit "Heat") (Some 1995%Z) undated = Raise ValueError) /\
  (forall original suggested tmdb_title year_hint date,
     match Py.int (firstn 4 date) with
     | None =>
         (num_val (calculate_confidence original suggested tmdb_title
                     year_hint (Some date))
          == Qmin 100 (Fuzz.ratio (lower suggested) (lower tmdb_title)))%Q
     | Some _ => True
     end).
Proof.
  split; [|split].
  - intros. unfold calculate_match_score.
    match goal with
    | |- context [boost ?b _ _] =>
        pose proof (boost_ok_iff b year_hint tmdb_year) as H;
        pose proof (boost_unfold b year_hint tmdb_year) as U
    end.
    destruct (boost _ year_hint tmdb_year) as [s|e]; simpl in H.
    + symmetry. exact H.
    + split; [|symmetry; exact H].
      destruct (truthy_int year_hint && truthy_str tmdb_year);
        [|discriminate].
      destruct year_hint as [h|];
        [destruct (Spec.release_year tmdb_year) as [y|]|]; try congruence.
      destruct (y =? h)%Z; [discriminate|].
      destruct (Z.abs (y - h) <=? 1)%Z; discriminate.
  - repeat split; reflexivity.
  - intros. destruct (Py.int (firstn 4 date)) eqn:E; [exact I|].
    unfold calculate_confidence. rewrite py_min_val. rewrite E.
    destruct (truthy_int year_hint && truthy_str (Some date));
      destruct year_hint; simpl; rewrite Qplus_0_r; reflexivity.
Qed.

End ScoreOrder.

(** ** Ranking: the head of the sorted scores *)

Section Ranking.
Import Scorer Examples.

Lemma insert_desc_head (x : pynum * candidate) (l : list (pynum * candidate)) :
  hd_error (insert_desc x l) =
  match l with
  | [] => Some x
  | y :: _ => if Qlt_bool (num_val (fst x)) (num_val (fst y)) then Some y else Some x
  end.
Proof.
  destruct l as [|y l]; simpl; [reflexivity|].
  destruct (Qlt_bool (num_val (fst x)) (num_val (fst y))); reflexivity.
Qed.

Lemma sort_desc_nonempty (x : pynum * candidate) (l : list (pynum * candidate)) :
  sort_desc (x :: l) <> [].
Proof.
  simpl. destruct (sort_desc l) as [|y l']; simpl; [discriminate|].
  destruct (Qlt_bool (num_val (fst x)) (num_val (fst y))); discriminate.
Qed.

(** The head of the sorted list is the first entry of the highest score:
    no entry has more, and the entries before it have less. *)
Lemma sort_desc_head (l : list (pynum * candidate)) :
  l <> [] ->
  exists i x,
    nth_error l i = Some x /\
    hd_error (sort_desc l) = Some x /\
    forall j y, nth_error l j = Some y ->
                (num_val (fst y) <= num_val (fst x))%Q /\ (j < i -> (num_val (fst y) < num_val (fst x))%Q).
Proof.
  induction l as [|x l IH]; [congruence|]. intros _.
  destruct l as [|x' l'].
  - exists 0, x. split; [reflexivity|]. split; [reflexivity|].
    intros [|j] y E; simpl in E.
    + injection E as <-. split; [apply Qle_refl|lia].
    + destruct j; discriminate.
  - destruct IH as [i [m [Hn [Hh Hmax]]]]; [discriminate|].
    change (sort_desc (x :: x' :: l')) with (insert_desc x (sort_desc (x' :: l'))).
    rewrite insert_desc_head.
    destruct (sort_desc (x' :: l')) as [|m' rest'] eqn:Es.
    { exfalso. exact (@sort_desc_nonempty x' l' Es). }
    simpl in Hh. injection Hh as ->.
    destruct (Qlt_bool (num_val (fst x)) (num_val (fst m))) eqn:E.
    + apply Qlt_bool_iff in E. exists (S i), m.
      split; [exact Hn|]. split; [reflexivity|].
      intros [|j] y Ey; simpl in Ey.
      * injection Ey as <-. split; [apply Qlt_le_weak, E|intros _; exact E].
      * destruct (Hmax j y Ey) as [H1 H2]. split; [exact H1|].
        intros Hlt. apply H2. lia.
    + apply Qlt_bool_false in E. exists 0, x.
      split; [reflexivity|]. split; [reflexivity|].
      intros [|j] y Ey; simpl in Ey.
      * injection Ey as <-. split; [apply Qle_refl|lia].
      * destruct (Hmax j y Ey) as [H1 _]. split; [|lia].
        apply Qle_trans with (num_val (fst m)); assumption.
Qed.

(** Scoring succeeds when every candidate can be scored, and keeps the
    candidates in their order. *)
Lemma score_all_ok (title : str) (year_hint : option Z) (rs : list candidate) :
  (forall c, In c rs -> Spec.scorable year_hint (c_release_date c) = true) ->
  exists scored,
    score_all title year_hint rs = Ok scored /\
    List.length scored = List.length rs /\
    forall j sc, nth_error scored j = Some sc ->
      nth_error rs j = Some (snd sc) /\
      score_candidate title year_hint (snd sc) = Ok (fst sc).
Proof.
  induction rs as [|r rs IH]; intros H.
  - exists []. split; [reflexivity|]. split; [reflexivity|].
    intros [|j] sc E; discriminate.
  - destruct IH as [scored [E [L N]]].
    { intros c Hc. apply H. right. exact Hc. }
    assert (Hr : is_ok (score_candidate title year_hint r) = true).
    { unfold score_candidate, calculate_match_score. rewrite boost_ok_iff.
      apply H. left. reflexivity. }
    destruct (score_candidate title year_hint r) as [s|e] eqn:Er;
      [|discriminate].
    exists ((s, r) :: scored). simpl. rewrite Er. simpl. rewrite E. simpl.
    split; [reflexivity|]. split; [congruence|].
    intros [|j] sc Ej; simpl in Ej.
    + injection Ej as <-. split; [reflexivity|exact Er].
    + apply N. exact Ej.
Qed.

(** The best entry is the first candidate of the highest score among the
    first ten results. *)
Lemma best_scored_first_max (title : str) (year_hint : option Z)
    (results : list candidate) :
  results <> [] ->
  (forall c, In c (firstn 10 results) ->
             Spec.scorable year_hint (c_release_date c) = true) ->
  exists i c s,
    nth_error (firstn 10 results) i = Some c /\
    score_candidate title year_hint c = Ok s /\
    best_scored title year_hint results = Ok (Some (s, c)) /\
    forall j c' s',
      nth_error (firstn 10 results) j = Some c' ->
      score_candidate title year_hint c' = Ok s' ->
      (num_val s' <= num_val s)%Q /\ (j < i -> (num_val s' < num_val s)%Q).
Proof.
  intros Hne Hs.
  destruct (@score_all_ok title year_hint (firstn 10 results) Hs)
    as [scored [E [L N]]].
  assert (Hsne : scored <> []).
  { intros ->. destruct results; [congruence|discriminate]. }
  destruct (@sort_desc_head scored Hsne) as [i [[s c] [Hn [Hh Hmax]]]].
  destruct (N i (s, c) Hn) as [Hi Hsc]. cbn [fst snd] in Hi, Hsc.
  exists i, c, s. split; [exact Hi|]. split; [exact Hsc|]. split.
  - unfold best_scored. rewrite E. simpl. rewrite Hh. reflexivity.
  - intros j c' s' Hj Hs'.
    assert (Hlt : j < List.length scored).
    { rewrite L. apply nth_error_Some. congruence. }
    destruct (nth_error scored j) as [[s'' c'']|] eqn:Ej.
    2:{ apply nth_error_None in Ej. lia. }
    destruct (N j _ Ej) as [Hj' Hs'']. cbn [fst snd] in Hj', Hs''.
    assert (c'' = c') by congruence. subst c''.
    assert (s'' = s') by congruence. subst s''.
    exact (Hmax j _ Ej).
Qed.

Lemma best_is_best_score (title : str) (year_hint : option Z)
    (results : list candidate) (i : nat) (c : candidate) (s : pynum) :
  nth_error (firstn 10 results) i = Some c ->
  score_candidate title year_hint c = Ok s ->
  (forall j c' s',
      nth_error (firstn 10 results) j = Some c' ->
      score_candidate title year_hint c' = Ok s' ->
      (num_val s' <= num_val s)%Q /\ (j < i -> (num_val s' < num_val s)%Q)) ->
  Spec.is_best_score title year_hint results s.
Proof.
  intros Hn Hs Hmax. split.
  - exists c. split; [|exact Hs]. eapply nth_error_In. exact Hn.
  - intros c' s' Hin Hs'. apply In_nth_error in Hin. destruct Hin as [j Hj].
    exact (proj1 (Hmax j c' s' Hj Hs')).
Qed.

Lemma classify_tiered (best : pynum) :
  Spec.tiered (num_val best) (classify best)
    (Qlt_bool (num_val best) HIGH_CONFIDENCE_THRESHOLD).
Proof.
  unfold Spec.tiered, classify, HIGH_CONFIDENCE_THRESHOLD,
    MEDIUM_CONFIDENCE_THRESHOLD.
  destruct (Qle_bool 85 (num_val best)) eqn:E1.
  - assert (N : Qlt_bool (num_val best) 85 = false).
    { unfold Qlt_bool. rewrite E1. reflexivity. }
    rewrite N. apply Qle_bool_iff in E1. repeat split; try congruence.
    + intros _ H. exfalso. exact (Qlt_not_le _ _ H E1).
    + intros H. exfalso. apply (Qlt_not_le _ _ H).
      apply Qle_trans with 85%Q; [discriminate|exact E1].
  - assert (N : Qlt_bool (num_val best) 85 = true).
    { unfold Qlt_bool. rewrite E1. reflexivity. }
    rewrite N. apply Qlt_bool_iff in N.
    destruct (Qle_bool 70 (num_val best)) eqn:E2.
    + apply Qle_bool_iff in E2. repeat split; try congruence.
      * intros H. exfalso. exact (Qlt_not_le _ _ N H).
      * intros H. exfalso. exact (Qlt_not_le _ _ H E2).
    + assert (L : (num_val best < 70)%Q).
      { apply Qnot_le_lt. intros H. apply Qle_bool_iff in H. congruence. }
      repeat split; try congruence.
      * intros H. exfalso. exact (Qlt_not_le _ _ N H).
      * intros H _. exfalso. exact (Qlt_not_le _ _ L H).
Qed.

End Ranking.

(** ** The best match *)

Section BestMatch.
Import Normalizer Scorer Examples.

(** C2. When every candidate can be scored, [find_best_match] returns a
    result. For an empty list of results it has no identifier, the status
    NO_RESULTS and the review flag set. Otherwise its status is HIGH for a
    best score of 85 or more, MEDIUM from 70 up to 85, LOW below, and the
    review flag is set exactly when the status is not HIGH. The same holds
    for the copy in [enrich_org_tmdb.py]. *)
Theorem C2_tier (search : search_fn) (parsed : parsed_entry) :
  let title := cleaned_title parsed in
  let hint := year_hint parsed in
  let results := fst (lookup search title hint) in
  (forall c, In c (firstn 10 results) ->
             Spec.scorable hint (c_release_date c) = true) ->
  exists m m',
    MatchMovies.find_best_match search parsed = Ok m /\
    fst (EnrichOrgTmdb.find_best_match search title hint) = Ok m' /\
    match results with
    | [] =>
        MatchMovies.tmdb_id m = None /\
        MatchMovies.needs_review m = true /\
        MatchMovies.match_status m = NO_RESULTS /\
        EnrichOrgTmdb.tmdb_id m' = None /\
        EnrichOrgTmdb.needs_review m' = true /\
        EnrichOrgTmdb.match_status m' = NO_RESULTS
    | _ :: _ =>
        exists best,
          Spec.is_best_score title hint results best /\
          Spec.tiered (num_val best) (MatchMovies.match_status m)
            (MatchMovies.needs_review m) /\
          Spec.tiered (num_val best) (EnrichOrgTmdb.match_status m')
            (EnrichOrgTmdb.needs_review m')
    end.
Proof.
  intros title hint results Hs. subst results.
  unfold MatchMovies.find_best_match, EnrichOrgTmdb.find_best_match.
  cbv zeta. fold title. fold hint. fold title in Hs. fold hint in Hs.
  destruct (lookup search title hint) as [rs log] eqn:El.
  cbn [fst] in *.
  destruct rs as [|r0 rs'] eqn:Er.
  - do 2 eexists. repeat split; reflexivity.
  - assert (Hne : r0 :: rs' <> []) by discriminate.
    destruct (@best_scored_first_max title hint (r0 :: rs') Hne Hs)
      as [i [c [s [Hn [Hsc [Hb Hmax]]]]]].
    rewrite Hb. cbn [bind]. do 2 eexists.
    split; [reflexivity|]. split; [reflexivity|].
    exists s. split; [|split].
    + exact (@best_is_best_score title hint (r0 :: rs') i c s Hn Hsc Hmax).
    + apply classify_tiered.
    + apply classify_tiered.
Qed.

Lemma C2_tier_witness :
  exists m m',
    MatchMovies.find_best_match stub heat_entry = Ok m /\
    fst (EnrichOrgTmdb.find_best_match stub (cleaned_title heat_entry)
           (year_hint heat_entry)) = Ok m' /\
    match fst (lookup stub (cleaned_title heat_entry) (year_hint heat_entry)) with
    | [] =>
        MatchMovies.tmdb_id m = None /\
        MatchMovies.needs_review m = true /\
        MatchMovies.match_status m = NO_RESULTS /\
        EnrichOrgTmdb.tmdb_id m' = None /\
        EnrichOrgTmdb.needs_review m' = true /\
        EnrichOrgTmdb.match_status m' = NO_RESULTS
    | _ :: _ =>
        exists best,
          Spec.is_best_score (cleaned_title heat_entry) (year_hint heat_entry)
            (fst (lookup stub (cleaned_title heat_entry) (year_hint heat_entry)))
            best /\
          Spec.tiered (num_val best) (MatchMovies.match_status m)
            (MatchMovies.needs_review m) /\
          Spec.tiered (num_val best) (EnrichOrgTmdb.match_status m')
            (EnrichOrgTmdb.needs_review m')
    end.
Proof.
  apply (@C2_tier stub heat_entry).
  intros c H. simpl in H. destruct H as [<-|[]]. reflexivity.
Defined.

End BestMatch.

(** ** The year hint of a heading *)

Unset Implicit Arguments.

Section YearHint.
Import Normalizer Examples.

Lemma digit_not_special (c : ascii) :
  isdigit c = true ->
  isspace c = false /\ eqb_char c "+"%char = false
  /\ eqb_char c "-"%char = false /\ isquote c = false.
Proof.
  destruct c as [[] [] [] [] [] [] [] []]; intros H;
    solve [discriminate H | repeat split; reflexivity].
Qed.

Lemma digits4_inv (s g : str) :
  digits4 s = Some g ->
  exists a b c d s',
    s = a :: b :: c :: d :: s' /\ g = [a; b; c; d] /\
    isdigit a = true /\ isdigit b = true /\ isdigit c = true
    /\ isdigit d = true.
Proof.
  destruct s as [|a [|b [|c [|d s']]]]; simpl; try discriminate.
  destruct (isdigit a) eqn:Ea; [|discriminate].
  destruct (isdigit b) eqn:Eb; [|discriminate].
  destruct (isdigit c) eqn:Ec; [|discriminate].
  destruct (isdigit d) eqn:Ed; [|discriminate].
  simpl. intros H. injection H as <-. exists a, b, c, d, s'. auto 10.
Qed.

(** The pattern with its optional quote finds the same digits as the
    plain search for four digits. *)
Lemma search_year_first_digits4 (s : str) :
  search_year s = Spec.first_digits4 s.
Proof.
  induction s as [|c s IH]; [reflexivity|].
  cbn [search_year Spec.first_digits4]. unfold year_at.
  destruct (isquote c) eqn:Eq.
  - assert (Hd : digits4 (c :: s) = None).
    { destruct (digits4 (c :: s)) as [g|] eqn:E; [|reflexivity].
      apply digits4_inv in E.
      destruct E as [a [b [c' [d [s' [E1 [_ [Ha _]]]]]]]].
      injection E1 as -> _. apply digit_not_special in Ha.
      destruct Ha as [_ [_ [_ Hq]]]. congruence. }
    rewrite Hd. destruct (digits4 s) as [g|] eqn:E.
    + destruct s as [|c' s']; [discriminate|].
      cbn [Spec.first_digits4]. rewrite E. reflexivity.
    + exact IH.
  - destruct (digits4 (c :: s)); [reflexivity|exact IH].
Qed.

Lemma int_digits4 (a b c d : ascii) :
  isdigit a = true -> isdigit b = true -> isdigit c = true ->
  isdigit d = true ->
  Py.int [a; b; c; d] = Some (Spec.decimal4 [a; b; c; d]).
Proof.
  intros Ha Hb Hc Hd.
  destruct (digit_not_special _ Ha) as [Sa [Pa [Ma _]]].
  destruct (digit_not_special _ Hb) as [Sb _].
  destruct (digit_not_special _ Hc) as [Sc _].
  destruct (digit_not_special _ Hd) as [Sd _].
  unfold Py.int, strip, rstrip. cbn [lstrip]. rewrite Sa.
  cbn [rev app lstrip]. rewrite Sd. cbn [rev app].
  rewrite Pa, Ma. unfold int_unsigned. rewrite Ha.
  cbn [int_digits]. rewrite Hb, Hc, Hd. unfold Spec.decimal4.
  f_equal. lia.
Qed.

Lemma year_hint_of_spec (full : str) :
  year_hint_of full =
  match Spec.first_digits4 full with
  | Some g =>
      if Spec.plausible_year (Spec.decimal4 g)
      then Some (Spec.decimal4 g) else None
  | None => None
  end.
Proof.
  unfold year_hint_of. rewrite search_year_first_digits4.
  destruct (Spec.first_digits4 full) as [g|] eqn:E; [|reflexivity].
  assert (Hg : exists s, digits4 s = Some g).
  { clear -E. induction full as [|c s IH]; [discriminate|].
    cbn [Spec.first_digits4] in E.
    destruct (digits4 (c :: s)) eqn:Ed.
    - injection E as <-. eexists. exact Ed.
    - apply IH. exact E. }
  destruct Hg as [s Hg]. apply digits4_inv in Hg.
  destruct Hg as [a [b [c [d [s' [_ [-> [Ha [Hb [Hc Hd]]]]]]]]]].
  rewrite (int_digits4 a b c d Ha Hb Hc Hd). reflexivity.
Qed.

(** C7, as the code has it. The year hint of a heading is the value of
    the leftmost run of four digits of its title when that value lies
    within 1920 and 2025, and there is no hint otherwise: not when the
    title has no such run, and not when its first run is out of range,
    whatever follows. [parse_org_entry] and [parse_org_title] agree on it.
    The heading of the example gives the title "Film Title" and the year
    1964. *)
Theorem C7_year_hint (line full cleaned : str) (y : option Z) :
  parse_org_title line = Some (full, cleaned, y) ->
  y = match Spec.first_digits4 full with
      | Some g =>
          if Spec.plausible_year (Spec.decimal4 g)
          then Some (Spec.decimal4 g) else None
      | None => None
      end
  /\ (forall n, option_map year_hint (parse_org_entry line n) = Some y)
  /\ (forall v, y = Some v -> (1920 <= v <= 2025)%Z)
  /\ parse_org_title film_heading
     = Some (film_full_title, lit "Film Title", Some 1964%Z).
Proof.
  intros H. unfold parse_org_title in H.
  destruct (heading_text line) as [t|] eqn:Et; [|discriminate].
  injection H as <- <- <-.
  assert (E := year_hint_of_spec t).
  split; [exact E|]. split; [|split].
  - intros n. unfold parse_org_entry. rewrite Et. reflexivity.
  - intros v Hv. rewrite E in Hv.
    destruct (Spec.first_digits4 t) as [g|]; [|discriminate].
    destruct (Spec.plausible_year (Spec.decimal4 g)) eqn:P; [|discriminate].
    injection Hv as <-. unfold Spec.plausible_year in P.
    apply andb_true_iff in P. destruct P as [P1 P2].
    apply Z.leb_le in P1. apply Z.leb_le in P2. lia.
  - vm_compute. reflexivity.
Qed.

Lemma C7_year_hint_witness :
  Some 1964%Z
  = match Spec.first_digits4 film_full_title with
    | Some g =>
        if Spec.plausible_year (Spec.decimal4 g)
        then Some (Spec.decimal4 g) else None
    | None => None
    end
  /\ (forall n,
        option_map year_hint (parse_org_entry film_heading n)
        = Some (Some 1964%Z))
  /\ (forall v, Some 1964%Z = Some v -> (1920 <= v <= 2025)%Z)
  /\ parse_org_title film_heading
     = Some (film_full_title, lit "Film Title", Some 1964%Z).
Proof.
  apply (C7_year_hint film_heading film_full_title (lit "Film Title")
           (Some 1964%Z)).
  vm_compute. reflexivity.
Defined.

(** C7, as the specification states it, fails: the title "1001 Nacht (1964)" holds
    the four digits 1964, within the range, and the hint is none, since
    the search stops at 1001. *)
Lemma C7_first_run_only :
  parse_org_title nacht_heading
  = Some (lit "1001 Nacht (1964)", lit "1001 Nacht", None)
  /\ lit "1001 Nacht (1964)" = lit "1001 Nacht (" ++ lit "1964" ++ lit ")"
  /\ Py.int (lit "1964") = Some 1964%Z
  /\ Spec.plausible_year 1964 = true
  /\ ~ (forall line full cleaned y pre g post v,
          parse_org_title line = Some (full, cleaned, y) ->
          full = pre ++ g ++ post ->
          digits4 g = Some g ->
          Py.int g = Some v ->
          Spec.plausible_year v = true ->
          y = Some v).
Proof.
  split; [vm_compute; reflexivity|]. split; [reflexivity|].
  split; [reflexivity|]. split; [reflexivity|].
  intros H.
  specialize (H nacht_heading (lit "1001 Nacht (1964)") (lit "1001 Nacht")
                None (lit "1001 Nacht (") (lit "1964") (lit ")") 1964%Z).
  assert (C : @None Z = Some 1964%Z).
  { apply H; vm_compute; reflexivity. }
  discriminate C.
Qed.

End YearHint.

(** ** Removing duplicate properties *)

Section DedupFacts.
Import Dedup Aux.

Lemma dict_get_set_same {V} (k : str) (v : V) (d : dict V) :
  dict_get k (dict_set k v d) = Some v.
Proof.
  induction d as [|[k' v'] d IH]; simpl.
  - rewrite eqb_str_refl. reflexivity.
  - destruct (eqb_str k k') eqn:E; simpl; rewrite E; [reflexivity|exact IH].
Qed.

Lemma dict_get_set_other {V} (k k' : str) (v : V) (d : dict V) :
  k <> k' -> dict_get k' (dict_set k v d) = dict_get k' d.
Proof.
  intros N. induction d as [|[k0 v0] d IH]; simpl.
  - apply eqb_str_neq in N. destruct (eqb_str k' k) eqn:E; [|reflexivity].
    apply eqb_str_eq in E. apply eqb_str_neq in N. congruence.
  - destruct (eqb_str k k0) eqn:E; simpl.
    + apply eqb_str_eq in E. subst k0.
      destruct (eqb_str k' k) eqn:E'; [|reflexivity].
      apply eqb_str_eq in E'. congruence.
    + rewrite IH. reflexivity.
Qed.

Lemma remove_first_app (x : str) (a b : list str) :
  ~ In x a -> remove_first x (a ++ x :: b) = a ++ b.
Proof.
  induction a as [|y a IH]; simpl; intros N.
  - rewrite eqb_str_refl. reflexivity.
  - destruct (eqb_str y x) eqn:E.
    + apply eqb_str_eq in E. exfalso. apply N. left. exact E.
    + rewrite IH; [reflexivity|]. intros H. apply N. right. exact H.
Qed.

Lemma remove_last_app (x : str) (a b : list str) :
  ~ In x b -> remove_last x (a ++ x :: b) = a ++ b.
Proof.
  intros N. unfold remove_last.
  rewrite rev_app_distr. simpl. rewrite <- app_assoc. simpl.
  rewrite remove_first_app.
  - rewrite rev_app_distr, !rev_involutive. reflexivity.
  - intros H. apply N. apply in_rev. exact H.
Qed.

Lemma in_names (n : str) (K : list str) :
  In n (Spec.names K) <-> exists x, In x K /\ prop_name x = Some n.
Proof.
  unfold Spec.names. rewrite in_flat_map. split.
  - intros [x [Hx Hn]]. exists x. split; [exact Hx|].
    destruct (prop_name x); simpl in Hn; [|contradiction].
    destruct Hn as [->|[]]. reflexivity.
  - intros [x [Hx Hn]]. exists x. split; [exact Hx|]. rewrite Hn.
    left. reflexivity.
Qed.

Lemma has_name_iff (n : str) (x : str) :
  Spec.has_name n x = true <-> prop_name x = Some n.
Proof.
  unfold Spec.has_name. destruct (prop_name x) as [m|].
  - rewrite eqb_str_eq. split; congruence.
  - split; discriminate.
Qed.

Lemma has_name_false (n : str) (x : str) :
  Spec.has_name n x = false <-> prop_name x <> Some n.
Proof.
  rewrite <- has_name_iff. destruct (Spec.has_name n x); split; congruence.
Qed.

Lemma names_app (a b : list str) :
  Spec.names (a ++ b) = Spec.names a ++ Spec.names b.
Proof. unfold Spec.names. apply flat_map_app. Qed.

Lemma filter_id {A} (f : A -> bool) (l : list A) :
  (forall x, In x l -> f x = true) -> filter f l = l.
Proof.
  induction l as [|x l IH]; simpl; intros H; [reflexivity|].
  rewrite (H x (or_introl eq_refl)). f_equal. apply IH.
  intros y Hy. apply H. right. exact Hy.
Qed.

(** In a list of kept lines without two lines of one name, dropping the
    lines of name [n] drops the one line [c] that has it. *)
Lemma filter_name_split (n c : str) (K : list str) :
  NoDup (Spec.names K) -> In c K -> prop_name c = Some n ->
  exists k1 k2,
    K = k1 ++ c :: k2 /\ ~ In c k2 /\
    filter (fun x => negb (Spec.has_name n x)) K = k1 ++ k2.
Proof.
  intros ND Hin Hc. apply in_split in Hin. destruct Hin as [k1 [k2 ->]].
  exists k1, k2. split; [reflexivity|].
  rewrite names_app in ND. simpl in ND. unfold Spec.names in ND at 2.
  simpl in ND. rewrite Hc in ND. simpl in ND.
  fold (Spec.names k2) in ND.
  assert (N1 : ~ In n (Spec.names k1)).
  { intros H. apply NoDup_remove_2 in ND. apply ND. apply in_or_app.
    left. exact H. }
  assert (N2 : ~ In n (Spec.names k2)).
  { intros H. apply NoDup_remove_2 in ND. apply ND. apply in_or_app.
    right. exact H. }
  split.
  - intros H. apply N2. apply in_names. exists c. split; assumption.
  - rewrite filter_app. simpl.
    assert (E : Spec.has_name n c = true) by (apply has_name_iff; exact Hc).
    rewrite E. simpl. rewrite !filter_id; [reflexivity| |].
    + intros x Hx. apply negb_true_iff. apply has_name_false. intros Hn.
      apply N2. apply in_names. exists x. split; assumption.
    + intros x Hx. apply negb_true_iff. apply has_name_false. intros Hn.
      apply N1. apply in_names. exists x. split; assumption.
Qed.

Lemma names_filter (n : str) (K : list str) :
  Spec.names (filter (fun x => negb (Spec.has_name n x)) K)
  = filter (fun m => negb (eqb_str m n)) (Spec.names K).
Proof.
  induction K as [|x K IH]; [reflexivity|].
  simpl. unfold Spec.has_name at 1.
  change (Spec.names (x :: K)) with
    ((match prop_name x with Some m => [m] | None => [] end) ++ Spec.names K).
  rewrite filter_app.
  destruct (prop_name x) as [m|] eqn:Ex; simpl.
  - destruct (eqb_str m n) eqn:E; simpl.
    + exact IH.
    + change (Spec.names (x :: filter _ K)) with
        ((match prop_name x with Some m => [m] | None => [] end)
         ++ Spec.names (filter (fun x => negb (Spec.has_name n x)) K)).
      rewrite Ex. simpl. f_equal. exact IH.
  - change (Spec.names (x :: filter _ K)) with
      ((match prop_name x with Some m => [m] | None => [] end)
       ++ Spec.names (filter (fun x => negb (Spec.has_name n x)) K)).
    rewrite Ex. simpl. exact IH.
Qed.

Lemma absorb_nodup (K : list str) (l : str) :
  NoDup (Spec.names K) -> NoDup (Spec.names (absorb K l)).
Proof.
  intros ND. unfold absorb. destruct (prop_name l) as [n|] eqn:El.
  - rewrite names_app, names_filter. unfold Spec.names at 2. simpl.
    rewrite El. simpl.
    rewrite <- (rev_involutive (_ ++ [n])).
    apply NoDup_rev. rewrite rev_app_distr. simpl. constructor.
    + intros Hin. apply in_rev in Hin. apply filter_In in Hin.
      destruct Hin as [_ Hin]. rewrite eqb_str_refl in Hin. discriminate.
    + apply NoDup_rev. apply NoDup_filter. exact ND.
  - rewrite names_app. unfold Spec.names at 2. simpl. rewrite El. simpl.
    rewrite app_nil_r. exact ND.
Qed.

Lemma tracks_nil (lines : list str) : tracks lines [] [].
Proof. intros name. simpl. intros x []. Qed.

(** One line of an open block: the loop and [absorb] agree, and the
    tracker goes on agreeing with the kept lines. *)
Lemma dedup_line_open (lines : list str) (st : dstate) (i : nat) (l : str)
    (R0 K : list str) :
  state_ok lines st R0 (Some K) ->
  is_properties l = false -> is_end l = false ->
  nth i lines [] = l ->
  state_ok lines (dedup_line lines st i l) R0 (Some (absorb K l)).
Proof.
  intros [Hr [Hp [Ht ND]]] HP HE Hl.
  pose proof (absorb_nodup K l ND) as ND'.
  unfold dedup_line. rewrite HP, HE, Hp. unfold absorb in *.
  destruct (prop_name l) as [n|] eqn:El.
  - pose proof (Ht n) as Hn.
    destruct (dict_get n (current_properties st)) as [[idx c]|] eqn:Eg.
    + destruct Hn as [Hidx [Hc Hin]].
      destruct (filter_name_split n c K ND Hin Hc) as [k1 [k2 [EK [Nc EF]]]].
      simpl. split; [|split; [reflexivity|split; [|exact ND']]].
      * rewrite Hidx, Hr, EF. subst K. rewrite app_assoc.
        rewrite remove_last_app by exact Nc.
        rewrite <- !app_assoc. reflexivity.
      * intros m. destruct (eqb_str n m) eqn:Enm.
        -- apply eqb_str_eq in Enm. subst m. rewrite dict_get_set_same.
           split; [exact Hl|]. split; [exact El|].
           apply in_or_app. right. left. reflexivity.
        -- apply eqb_str_neq in Enm.
           rewrite dict_get_set_other by exact Enm.
           pose proof (Ht m) as Hm.
           destruct (dict_get m (current_properties st)) as [[idx' c']|].
           ++ destruct Hm as [H1 [H2 H3]]. split; [exact H1|].
              split; [exact H2|]. apply in_or_app. left.
              apply filter_In. split; [exact H3|].
              apply negb_true_iff. apply has_name_false. congruence.
           ++ intros x Hx. apply in_app_or in Hx. destruct Hx as [Hx|[<-|[]]].
              ** apply filter_In in Hx. apply Hm. apply Hx.
              ** apply has_name_false. congruence.
    + simpl. assert (EF : filter (fun x => negb (Spec.has_name n x)) K = K).
      { apply filter_id. intros x Hx. rewrite (Hn x Hx). reflexivity. }
      rewrite EF in *.
      split; [|split; [reflexivity|split; [|exact ND']]].
      * rewrite Hr, app_assoc. reflexivity.
      * intros m. destruct (eqb_str n m) eqn:Enm.
        -- apply eqb_str_eq in Enm. subst m. rewrite dict_get_set_same.
           split; [exact Hl|]. split; [exact El|].
           apply in_or_app. right. left. reflexivity.
        -- apply eqb_str_neq in Enm.
           rewrite dict_get_set_other by exact Enm.
           pose proof (Ht m) as Hm.
           destruct (dict_get m (current_properties st)) as [[idx' c']|].
           ++ destruct Hm as [H1 [H2 H3]]. split; [exact H1|].
              split; [exact H2|]. apply in_or_app. left. exact H3.
           ++ intros x Hx. apply in_app_or in Hx. destruct Hx as [Hx|[<-|[]]].
              ** apply Hm. exact Hx.
              ** apply has_name_false. congruence.
  - simpl. split; [|split; [reflexivity|split; [|exact ND']]].
    + rewrite Hr, app_assoc. reflexivity.
    + intros m. pose proof (Ht m) as Hm.
      destruct (dict_get m (current_properties st)) as [[idx' c']|].
      * destruct Hm as [H1 [H2 H3]]. split; [exact H1|].
        split; [exact H2|]. apply in_or_app. left. exact H3.
      * intros x Hx. apply in_app_or in Hx. destruct Hx as [Hx|[<-|[]]].
        -- apply Hm. exact Hx.
        -- apply has_name_false. congruence.
Qed.

(** The loop writes what [dedup_spec] tells. *)
Lemma dedup_loop_spec (lines rem : list str) :
  forall (i : nat) (st : dstate) (R0 : list str) (open : option (list str)),
    (forall j, j < List.length rem -> nth (i + j) lines [] = nth j rem []) ->
    state_ok lines st R0 open ->
    result_lines (dedup_loop lines st i rem) = R0 ++ dedup_spec open rem.
Proof.
  induction rem as [|l rem IH]; intros i st R0 open Hc Hs.
  - simpl. destruct open as [K|]; simpl in Hs.
    + apply Hs.
    + rewrite app_nil_r. apply Hs.
  - assert (Hl : nth i lines [] = l).
    { specialize (Hc 0). rewrite Nat.add_0_r in Hc. apply Hc. simpl. lia. }
    assert (Hc' : forall j, j < List.length rem ->
                            nth (S i + j) lines [] = nth j rem []).
    { intros j Hj. specialize (Hc (S j)). simpl in Hc.
      rewrite Nat.add_succ_r in Hc. apply Hc. lia. }
    assert (Hres : result_lines st
                   = R0 ++ match open with Some K => K | None => [] end).
    { destruct open; simpl in Hs; [apply Hs|].
      rewrite app_nil_r. apply Hs. }
    cbn [dedup_loop dedup_spec].
    destruct (is_properties l) eqn:HP; [|destruct (is_end l) eqn:HE].
    + rewrite (IH (S i) _ (R0 ++ match open with Some K => K | None => [] end
                              ++ [l]) (Some []) Hc').
      * rewrite <- !app_assoc. reflexivity.
      * unfold dedup_line. rewrite HP. simpl.
        split; [|split; [reflexivity|split; [apply tracks_nil|constructor]]].
        rewrite Hres, app_nil_r, <- !app_assoc. reflexivity.
    + rewrite (IH (S i) _ (R0 ++ match open with Some K => K | None => [] end
                              ++ [l]) None Hc').
      * rewrite <- !app_assoc. reflexivity.
      * unfold dedup_line. rewrite HP, HE. simpl.
        split; [|reflexivity]. rewrite Hres, <- !app_assoc. reflexivity.
    + destruct open as [K|].
      * apply (IH (S i) _ R0 (Some (absorb K l)) Hc').
        apply dedup_line_open; assumption.
      * rewrite (IH (S i) _ (R0 ++ [l]) None Hc').
        -- rewrite <- app_assoc. reflexivity.
        -- destruct Hs as [Hr Hp]. unfold dedup_line.
           rewrite HP, HE, Hp. simpl. split; [|reflexivity].
           rewrite Hr. reflexivity.
Qed.

Lemma deduplicate_properties_spec (lines : list str) :
  deduplicate_properties lines = dedup_spec None lines.
Proof.
  unfold deduplicate_properties.
  rewrite (dedup_loop_spec lines lines 0 _ [] None).
  - reflexivity.
  - intros j _. reflexivity.
  - split; reflexivity.
Qed.

Lemma filter_filter {A} (f g : A -> bool) (l : list A) :
  filter f (filter g l) = filter (fun x => g x && f x) l.
Proof.
  induction l as [|x l IH]; [reflexivity|]. simpl.
  destruct (g x); simpl; [destruct (f x)|]; rewrite IH; reflexivity.
Qed.

Lemma eqb_str_sym (a b : str) : eqb_str a b = eqb_str b a.
Proof.
  destruct (eqb_str a b) eqn:E; symmetry.
  - apply eqb_str_eq in E. subst. apply eqb_str_refl.
  - apply eqb_str_neq. apply eqb_str_neq in E. congruence.
Qed.

Lemma survive_cons (l : str) (body : list str) (x : str) :
  survive (l :: body) x
  = match prop_name l with
    | Some n => negb (Spec.has_name n x) && survive body x
    | None => survive body x
    end.
Proof.
  unfold survive. cbn [existsb].
  destruct (prop_name x) as [m|] eqn:Ex, (prop_name l) as [n|] eqn:El.
  - assert (E1 : Spec.has_name m l = eqb_str n m).
    { unfold Spec.has_name. rewrite El. reflexivity. }
    assert (E2 : Spec.has_name n x = eqb_str m n).
    { unfold Spec.has_name. rewrite Ex. reflexivity. }
    rewrite E1, E2, negb_orb, (eqb_str_sym n m). reflexivity.
  - assert (E1 : Spec.has_name m l = false).
    { unfold Spec.has_name. rewrite El. reflexivity. }
    rewrite E1. reflexivity.
  - assert (E2 : Spec.has_name n x = false).
    { unfold Spec.has_name. rewrite Ex. reflexivity. }
    rewrite E2. reflexivity.
  - reflexivity.
Qed.

(** The kept lines of a block, line by line and at once. *)
Lemma fold_absorb (body : list str) :
  forall K, fold_left absorb body K
            = filter (survive body) K ++ Spec.keep_last body.
Proof.
  induction body as [|l body IH]; intros K.
  - simpl. rewrite app_nil_r. symmetry. apply filter_id.
    intros x _. unfold survive. destruct (prop_name x); reflexivity.
  - cbn [fold_left]. rewrite IH. unfold absorb. cbn [Spec.keep_last].
    assert (EF : forall x, survive (l :: body) x
                 = match prop_name l with
                   | Some n => negb (Spec.has_name n x) && survive body x
                   | None => survive body x
                   end) by (intros x; apply survive_cons).
    destruct (prop_name l) as [n|] eqn:El.
    + rewrite filter_app, filter_filter, <- app_assoc.
      rewrite (filter_ext _ _ EF). f_equal.
      cbn [filter]. unfold survive at 1. rewrite El.
      destruct (existsb (Spec.has_name n) body); reflexivity.
    + rewrite filter_app, <- app_assoc. rewrite (filter_ext _ _ EF).
      f_equal. cbn [filter]. unfold survive at 1. rewrite El. reflexivity.
Qed.

Lemma dedup_spec_prefix (pre : list str) (P : str) (rest : list str) :
  is_properties P = true ->
  forall open,
    dedup_spec open (pre ++ P :: rest)
    = dedup_spec open pre ++ P :: dedup_spec (Some []) rest.
Proof.
  intros HP. induction pre as [|l pre IH]; intros open.
  - cbn [app dedup_spec]. rewrite HP. reflexivity.
  - cbn [app dedup_spec].
    destruct (is_properties l); [|destruct (is_end l)].
    + rewrite IH, <- app_assoc. reflexivity.
    + rewrite IH, <- app_assoc. reflexivity.
    + destruct open as [K|]; rewrite IH; reflexivity.
Qed.

Lemma dedup_spec_body (body : list str) (E : str) (post : list str) :
  Forall (fun l => Spec.unmarked l = true) body ->
  is_properties E = false -> is_end E = true ->
  forall K,
    dedup_spec (Some K) (body ++ E :: post)
    = fold_left absorb body K ++ E :: dedup_spec None post.
Proof.
  intros HB HP HE. induction HB as [|l body Hl HB IH]; intros K.
  - cbn [app dedup_spec fold_left]. rewrite HP, HE. reflexivity.
  - cbn [app dedup_spec fold_left]. unfold Spec.unmarked in Hl.
    apply andb_true_iff in Hl. destruct Hl as [H1 H2].
    apply negb_true_iff in H1. apply negb_true_iff in H2.
    rewrite H1, H2. apply IH.
Qed.

(** The lines written for a file with a block in it: what is written for
    the lines before, the block with only the last line of each property
    kept, what is written for the lines after. *)
Lemma dedup_block (pre body post : list str) (P E : str) :
  is_properties P = true ->
  is_properties E = false -> is_end E = true ->
  Forall (fun l => Spec.unmarked l = true) body ->
  deduplicate_properties (pre ++ P :: body ++ E :: post)
  = deduplicate_properties pre ++ P :: Spec.keep_last body
    ++ E :: deduplicate_properties post.
Proof.
  intros HP HEP HE HB. rewrite !deduplicate_properties_spec.
  rewrite dedup_spec_prefix by exact HP.
  rewrite dedup_spec_body by assumption.
  rewrite fold_absorb. reflexivity.
Qed.

Lemma existsb_has_name (n : str) (body : list str) :
  existsb (Spec.has_name n) body = true <-> In n (Spec.names body).
Proof.
  rewrite existsb_exists, in_names. split; intros [x [H1 H2]]; exists x;
    (split; [exact H1|]); apply has_name_iff; exact H2.
Qed.

Lemma keep_last_app (a rest : list str) :
  NoDup (Spec.names a) ->
  (forall n, In n (Spec.names a) -> ~ In n (Spec.names rest)) ->
  Spec.keep_last (a ++ rest) = a ++ Spec.keep_last rest.
Proof.
  induction a as [|x a IH]; intros ND Hd; [reflexivity|].
  cbn [app Spec.keep_last].
  change (Spec.names (x :: a)) with
    ((match prop_name x with Some m => [m] | None => [] end) ++ Spec.names a)
    in ND, Hd.
  destruct (prop_name x) as [n|] eqn:Ex; cbn [app] in ND, Hd.
  - destruct (existsb (Spec.has_name n) (a ++ rest)) eqn:Ee.
    + exfalso. apply existsb_has_name in Ee. rewrite names_app in Ee.
      apply in_app_or in Ee. destruct Ee as [Ee|Ee].
      * apply NoDup_cons_iff in ND. apply ND. exact Ee.
      * apply (Hd n); [left; reflexivity|exact Ee].
    + f_equal. apply IH.
      * apply NoDup_cons_iff in ND. apply ND.
      * intros m Hm. apply Hd. right. exact Hm.
  - f_equal. apply IH; [exact ND|exact Hd].
Qed.

Lemma keep_last_nodup (body : list str) :
  NoDup (Spec.names body) -> Spec.keep_last body = body.
Proof.
  intros ND. rewrite <- (app_nil_r body) at 1.
  rewrite keep_last_app; [apply app_nil_r|exact ND|].
  intros n _ [].
Qed.

Lemma end_not_properties (E : str) : is_end E = true -> is_properties E = false.
Proof.
  unfold is_end, is_properties. intros H. apply eqb_str_eq in H.
  rewrite H. reflexivity.
Qed.

(** C3, as the code has it. In a block, written anywhere in a file, in
    which two lines that the script takes for property lines name the same
    property and every other property is named once, the earlier of the
    two lines is left out and every other line is written as it is, in
    its place: the block holds one line for that property, the later
    one. The lines before and after the block are written as they would
    be on their own. *)
Theorem C3_duplicate_removed (pre a b c post : list str) (P E l1 l2 name : str) :
  is_properties P = true ->
  is_end E = true ->
  prop_name l1 = Some name ->
  prop_name l2 = Some name ->
  Forall (fun l => Spec.unmarked l = true) (a ++ l1 :: b ++ l2 :: c) ->
  NoDup (Spec.names (a ++ b ++ l2 :: c)) ->
  deduplicate_properties (pre ++ P :: (a ++ l1 :: b ++ l2 :: c) ++ E :: post)
  = deduplicate_properties pre ++ P :: (a ++ b ++ l2 :: c)
    ++ E :: deduplicate_properties post
  /\ List.length (filter (Spec.has_name name) (a ++ b ++ l2 :: c)) = 1.
Proof.
  intros HP HE H1 H2 HB ND.
  assert (NDbc : NoDup (Spec.names (b ++ l2 :: c))).
  { rewrite names_app in ND. apply NoDup_app_remove_l in ND. exact ND. }
  assert (Hin2 : In name (Spec.names (b ++ l2 :: c))).
  { apply in_names. exists l2. split; [|exact H2].
    apply in_or_app. right. left. reflexivity. }
  split.
  - rewrite (dedup_block pre _ post P E HP (end_not_properties E HE) HE HB).
    f_equal. f_equal. f_equal.
    rewrite keep_last_app.
    + f_equal. cbn [Spec.keep_last]. rewrite H1.
      assert (Ee : existsb (Spec.has_name name) (b ++ l2 :: c) = true).
      { apply existsb_has_name. exact Hin2. }
      rewrite Ee. apply keep_last_nodup. exact NDbc.
    + rewrite names_app in ND. apply NoDup_app_remove_r in ND. exact ND.
    + intros n Hn Hn'.
      change (Spec.names (l1 :: b ++ l2 :: c)) with
        ((match prop_name l1 with Some m => [m] | None => [] end)
         ++ Spec.names (b ++ l2 :: c)) in Hn'.
      rewrite H1 in Hn'. cbn [app] in Hn'.
      assert (Hbc : In n (Spec.names (b ++ l2 :: c))).
      { destruct Hn' as [<-|Hn']; [exact Hin2|exact Hn']. }
      rewrite names_app in ND. clear -ND Hn Hbc.
      induction (Spec.names a) as [|m ms IH]; [contradiction|].
      simpl in ND. apply NoDup_cons_iff in ND. destruct ND as [Nm ND].
      destruct Hn as [->|Hn].
      * apply Nm. apply in_or_app. right. exact Hbc.
      * apply IH; assumption.
  - clear HB. induction a as [|x a IH].
    + cbn [app] in *. clear Hin2 NDbc.
      induction b as [|x b IHb].
      * cbn [app filter] in *.
        assert (E2 : Spec.has_name name l2 = true) by (apply has_name_iff; exact H2).
        rewrite E2. cbn [List.length]. f_equal.
        change (Spec.names (l2 :: c)) with
          ((match prop_name l2 with Some m => [m] | None => [] end)
           ++ Spec.names c) in ND.
        rewrite H2 in ND. cbn [app] in ND. apply NoDup_cons_iff in ND.
        destruct ND as [Nn _].
        rewrite (proj2 (List.length_zero_iff_nil _)); [reflexivity|].
        induction c as [|y c IHc]; [reflexivity|].
        cbn [filter].
        change (Spec.names (y :: c)) with
          ((match prop_name y with Some m => [m] | None => [] end)
           ++ Spec.names c) in Nn.
        destruct (Spec.has_name name y) eqn:Ey.
        -- apply has_name_iff in Ey. rewrite Ey in Nn. exfalso. apply Nn.
           left. reflexivity.
        -- apply IHc. intros H. apply Nn. apply in_or_app. right. exact H.
      * cbn [app filter] in *.
        change (Spec.names (x :: b ++ l2 :: c)) with
          ((match prop_name x with Some m => [m] | None => [] end)
           ++ Spec.names (b ++ l2 :: c)) in ND.
        destruct (Spec.has_name name x) eqn:Ex.
        -- exfalso. apply has_name_iff in Ex. rewrite Ex in ND.
           cbn [app] in ND. apply NoDup_cons_iff in ND. apply ND.
           apply in_names. exists l2. split; [|exact H2].
           apply in_or_app. right. left. reflexivity.
        -- apply IHb. apply NoDup_app_remove_l in ND. exact ND.
    + cbn [app filter] in *.
      change (Spec.names (x :: a ++ b ++ l2 :: c)) with
        ((match prop_name x with Some m => [m] | None => [] end)
         ++ Spec.names (a ++ b ++ l2 :: c)) in ND.
      destruct (Spec.has_name name x) eqn:Ex.
      * exfalso. apply has_name_iff in Ex. rewrite Ex in ND.
        cbn [app] in ND. apply NoDup_cons_iff in ND. apply ND.
        apply in_names. exists l2. split; [|exact H2].
        apply in_or_app. right. apply in_or_app. right. left. reflexivity.
      * apply IH. apply NoDup_app_remove_l in ND. exact ND.
Qed.

End DedupFacts.

Section DedupExamples.
Import Dedup Examples.

Lemma C3_duplicate_removed_witness :
  deduplicate_properties
    ([ln "* Film"] ++ ln ":PROPERTIES:"
     :: ([] ++ ln ":YEAR: 1999" :: [ln ":GENRE: Drama"] ++ ln ":YEAR: 2001" :: [])
     ++ ln ":END:" :: [ln "Notes"])
  = deduplicate_properties [ln "* Film"] ++ ln ":PROPERTIES:"
    :: ([] ++ [ln ":GENRE: Drama"] ++ ln ":YEAR: 2001" :: [])
    ++ ln ":END:" :: deduplicate_properties [ln "Notes"]
  /\ List.length
       (filter (Spec.has_name (lit "YEAR"))
          ([] ++ [ln ":GENRE: Drama"] ++ ln ":YEAR: 2001" :: [])) = 1.
Proof.
  apply (C3_duplicate_removed [ln "* Film"] [] [ln ":GENRE: Drama"] []
           [ln "Notes"] (ln ":PROPERTIES:") (ln ":END:")
           (ln ":YEAR: 1999") (ln ":YEAR: 2001") (lit "YEAR")).
  - reflexivity.
  - reflexivity.
  - reflexivity.
  - reflexivity.
  - repeat constructor.
  - vm_compute. apply NoDup_cons.
    + intros [H|[]]. discriminate H.
    + apply NoDup_cons; [intros []|apply NoDup_nil].
Defined.

(** C3, as the specification states it, fails: a line that ends with its closing
    colon, such as a property without value, is not taken for a property
    line. Both parsers of the repository read the two lines below as the
    property YEAR, and both lines are written. *)
Lemma C3_empty_value_kept :
  OrgParser.prop_match (ln ":YEAR:") = Some (lit "YEAR", [])
  /\ OrgParser.prop_match (ln ":YEAR: 2001") = Some (lit "YEAR", lit "2001")
  /\ EnrichOrgTmdb.prop_match (ln ":YEAR:") = Some (lit "YEAR", [])
  /\ EnrichOrgTmdb.prop_match (ln ":YEAR: 2001") = Some (lit "YEAR", lit "2001")
  /\ deduplicate_properties empty_year_block = empty_year_block
  /\ In (ln ":YEAR:") (deduplicate_properties empty_year_block).
Proof.
  repeat split; try reflexivity. vm_compute. right. left. reflexivity.
Qed.

End DedupExamples.

(** ** The run over a file *)

Section ProcessFacts.
Import Normalizer Scorer EnrichOrgTmdb Aux Examples.

Variable search : search_fn.

Lemma take_drop_while {A} (f : A -> bool) (l : list A) :
  take_while f l ++ drop_while f l = l.
Proof.
  induction l as [|x l IH]; [reflexivity|]. simpl.
  destruct (f x); simpl; [rewrite IH|]; reflexivity.
Qed.

Lemma length_drop_while {A} (f : A -> bool) (l : list A) :
  List.length (drop_while f l) <= List.length l.
Proof.
  induction l as [|x l IH]; simpl; [lia|]. destruct (f x); simpl; lia.
Qed.

Lemma length_skipn_le {A} (n : nat) (l : list A) :
  List.length (skipn n l) <= List.length l.
Proof. rewrite length_skipn. lia. Qed.

Lemma finish_entry_prepend (pfx out remaining : list str) (log : list query) :
  finish_entry (pfx ++ out) remaining log
  = prepend_state pfx (finish_entry out remaining log).
Proof.
  unfold finish_entry, prepend_state. simpl.
  rewrite <- !app_assoc. reflexivity.
Qed.

(** A turn of the loop behind lines already written is the same turn. *)
Lemma step_prepend (pfx : list str) (line : str) (tl : list str) (st : state) :
  step search line tl (prepend_state pfx st)
  = (map_result (prepend_state pfx) (fst (step search line tl st)),
     snd (step search line tl st)).
Proof.
  unfold step.
  assert (Hcopy : {| rest := tl;
                     output_lines := output_lines (prepend_state pfx st) ++ [line];
                     disk := disk (prepend_state pfx st);
                     calls := calls (prepend_state pfx st) |}
                  = prepend_state pfx
                      {| rest := tl; output_lines := output_lines st ++ [line];
                         disk := disk st; calls := calls st |}).
  { unfold prepend_state. simpl. rewrite <- app_assoc. reflexivity. }
  assert (Hskip : skip_entry line tl (prepend_state pfx st)
                  = prepend_state pfx (skip_entry line tl st)).
  { unfold skip_entry, prepend_state. simpl. rewrite <- app_assoc.
    reflexivity. }
  rewrite Hcopy, Hskip.
  destruct (is_heading line); [|reflexivity].
  destruct (parse_org_title line) as [[[o c] y]|]; [|reflexivity].
  match goal with
  | |- context [if ?b then (Ok (prepend_state pfx (skip_entry line tl st)), _)
                else _] => destruct b
  end; [reflexivity|].
  destruct (dict_mem (lit "TMDB_ID") _); [reflexivity|].
  destruct (find_best_match search _ y) as [[m|e] made]; [|reflexivity].
  cbn [calls prepend_state output_lines].
  destruct (match tl with l1 :: _ => is_properties l1 | [] => false end).
  - cbn [fst snd map_result]. f_equal.
    rewrite <- finish_entry_prepend. f_equal. f_equal.
    rewrite <- !app_assoc. reflexivity.
  - cbn [fst snd map_result]. f_equal.
    rewrite <- finish_entry_prepend. f_equal. f_equal.
    rewrite <- !app_assoc. reflexivity.
Qed.

Lemma step_output (line : str) (tl : list str) (st st' : state) (log : list query) :
  step search line tl st = (Ok st', log) ->
  output_lines st' <> [] /\ List.length (rest st') <= List.length tl.
Proof.
  unfold step.
  assert (Happ : forall (a : list str) x b, a ++ x :: b <> []).
  { intros a x b H. apply app_eq_nil in H. destruct H; discriminate. }
  assert (Hskip : output_lines (skip_entry line tl st) <> []
                  /\ List.length (rest (skip_entry line tl st))
                     <= List.length tl).
  { unfold skip_entry. simpl. split; [apply Happ|apply length_drop_while]. }
  assert (Hfin : forall out remaining lg,
             out <> [] -> List.length remaining <= List.length tl ->
             output_lines (finish_entry out remaining lg) <> []
             /\ List.length (rest (finish_entry out remaining lg))
                <= List.length tl).
  { intros out remaining lg Ho Hr. unfold finish_entry. simpl. split.
    - intros H. apply app_eq_nil in H. destruct H. contradiction.
    - pose proof (length_drop_while not_heading remaining). lia. }
  destruct (is_heading line).
  2:{ intros H. injection H as <- _. simpl. split; [apply Happ|lia]. }
  destruct (parse_org_title line) as [[[o c] y]|].
  2:{ intros H. injection H as <- _. simpl. split; [apply Happ|lia]. }
  match goal with
  | |- (if ?b then _ else _) = _ -> _ => destruct b
  end.
  { intros H. injection H as <- _. exact Hskip. }
  destruct (dict_mem (lit "TMDB_ID") _).
  { intros H. injection H as <- _. exact Hskip. }
  destruct (find_best_match search _ y) as [[m|e] made]; [|discriminate].
  destruct (match tl with l1 :: _ => is_properties l1 | [] => false end).
  - intros H. injection H as <- _. apply Hfin.
    + rewrite <- !app_assoc. apply Happ.
    + pose proof (length_skipn_le 1 (drop_while not_end (skipn 1 tl))).
      pose proof (length_drop_while not_end (skipn 1 tl)).
      pose proof (length_skipn_le 1 tl). cbn [skipn] in *. lia.
  - intros H. injection H as <- _. apply Hfin.
    + apply Happ.
    + lia.
Qed.

(** The loop ends within as many turns as there are lines left. *)
Lemma process_loop_fuel (fuel : nat) :
  forall st fuel',
    List.length (rest st) <= fuel -> List.length (rest st) <= fuel' ->
    process_loop search fuel st = process_loop search fuel' st
    /\ process_loop search fuel st <> None.
Proof.
  induction fuel as [|fuel IH]; intros st fuel' H H'.
  - destruct (rest st) as [|line tl] eqn:Er; [|simpl in H; lia].
    destruct fuel'; simpl; rewrite Er; split; try reflexivity; discriminate.
  - destruct (rest st) as [|line tl] eqn:Er.
    + destruct fuel'; simpl; rewrite Er; split; try reflexivity; discriminate.
    + destruct fuel' as [|fuel']; [simpl in H'; lia|].
      simpl. rewrite Er.
      destruct (step search line tl st) as [[st'|e] log] eqn:Es.
      * destruct (step_output line tl st st' log Es) as [_ Hl].
        simpl in H, H'. apply IH; lia.
      * split; [reflexivity|discriminate].
Qed.

Lemma process_org_file_total (lines : list str) :
  exists r, process_org_file search lines = Some r.
Proof.
  unfold process_org_file.
  destruct (process_loop_fuel (List.length lines) (initial lines)
              (List.length lines) (le_n _) (le_n _)) as [_ H].
  unfold initial in H.
  destruct (process_loop search (List.length lines) _) as [r|];
    [exists r; reflexivity|congruence].
Qed.

(** A run behind lines already written gives the same file behind these
    lines. *)
Lemma process_loop_prepend (pfx : list str) (fuel : nat) :
  forall st,
    (output_lines st = [] -> disk st = rest st) ->
    process_loop search fuel (prepend_state pfx st)
    = option_map (prepend_run pfx) (process_loop search fuel st).
Proof.
  induction fuel as [|fuel IH]; intros st Hinv.
  - simpl. destruct (rest st) as [|line tl] eqn:Er; [|reflexivity].
    simpl. unfold prepend_run. simpl. f_equal. f_equal.
    destruct (output_lines st) as [|o os] eqn:Eo.
    + rewrite (Hinv eq_refl), app_nil_r. destruct pfx; reflexivity.
    + destruct pfx; reflexivity.
  - simpl. destruct (rest st) as [|line tl] eqn:Er.
    + simpl. unfold prepend_run. simpl. f_equal. f_equal.
      destruct (output_lines st) as [|o os] eqn:Eo.
      * rewrite (Hinv eq_refl), app_nil_r. destruct pfx; reflexivity.
      * destruct pfx; reflexivity.
    + rewrite step_prepend.
      destruct (step search line tl st) as [[st'|e] log] eqn:Es; simpl.
      * apply IH. intros Ho.
        destruct (step_output line tl st st' log Es) as [Hne _].
        contradiction.
      * reflexivity.
Qed.

End ProcessFacts.

(** ** Records that have an identifier *)

Section Gates.
Import Normalizer Scorer EnrichOrgTmdb Aux Examples.

Lemma parse_is_heading (line : str) (t : str * str * option Z) :
  parse_org_title line = Some t -> is_heading line = true.
Proof.
  unfold parse_org_title, heading_text, is_heading.
  destruct (strip line) as [|c r]; [discriminate|].
  destruct (eqb_char c star) eqn:E; [|discriminate].
  intros _. apply eqb_char_eq in E. subst c. reflexivity.
Qed.

(** The truth value of [props.get("NEEDS_REVIEW") == "true"]. *)
Lemma needs_processing_with_id (e : OrgParser.entry) :
  dict_mem (lit "TMDB_ID") (OrgParser.properties e) = true ->
  UpdateFromSuggested.needs_processing e
  = dict_mem (lit "SUGGESTED_SEARCH") (OrgParser.properties e)
    && match dict_get (lit "NEEDS_REVIEW") (OrgParser.properties e) with
       | Some v => eqb_str v (lit "true")
       | None => false
       end.
Proof.
  intros H. unfold UpdateFromSuggested.needs_processing. rewrite H.
  destruct (dict_mem (lit "SUGGESTED_SEARCH") _); [|reflexivity].
  destruct (dict_get (lit "NEEDS_REVIEW") _) as [v|]; [|reflexivity].
  destruct (eqb_str v (lit "true")); reflexivity.
Qed.

(** C5, as the specification states it, fails in [update_tmdb_from_suggested.py]: the
    one record of the file below holds TMDB_ID and also NEEDS_REVIEW:
    true and a search hint; the run looks it up again and rewrites its
    block with the identifier found. *)
Lemma C5_review_flag_rematched :
  exists e u,
    OrgParser.parse_org_file flagged_doc = [e]
    /\ dict_mem (lit "TMDB_ID") (OrgParser.properties e) = true
    /\ UpdateFromSuggested.update_org_entries stub false flagged_doc = Ok u
    /\ UpdateFromSuggested.calls u = [(lit "Heat 1995", Some 1995%Z)]
    /\ UpdateFromSuggested.lines_now u
       = [ln "* Heat (1995)"; ln ":PROPERTIES:"; ln ":TMDB_ID: 123";
          ln ":NEEDS_REVIEW: true"; ln ":SUGGESTED_SEARCH: Heat 1995";
          ln ":TMDB_TITLE: Heat"; ln ":TMDB_CONFIDENCE: 81.54"; ln ":END:"]
    /\ UpdateFromSuggested.lines_now u <> flagged_doc.
Proof.
  eexists. eexists. split; [vm_compute; reflexivity|].
  split; [reflexivity|]. split; [vm_compute; reflexivity|].
  split; [reflexivity|]. split; [reflexivity|]. discriminate.
Qed.

(** Why the block must start on the line after the heading: the record
    below holds TMDB_ID in a block that follows a SCHEDULED line.
    [has_properties] is false, no property is read, the record is looked
    up and a second block is written under the heading. *)
Lemma gap_block_not_read :
  process_org_file stub Samples.gap_doc
  = Some {| raised := None;
            final_disk :=
              [ln "* Heat (1995)"; ln ":PROPERTIES:"; ln ":TMDB_ID: 123";
               ln ":TMDB_TITLE: Heat"; ln ":TMDB_CONFIDENCE: 100";
               ln ":END:"; ln "SCHEDULED: <2024-01-01>"; ln ":PROPERTIES:";
               ln ":TMDB_ID: 949"; ln ":END:"];
            final_calls := [(lit "Heat", Some 1995%Z)] |}.
Proof. vm_compute. reflexivity. Qed.

End Gates.

(** ** The search hint after a match *)

Section Hint.
Import Normalizer Scorer EnrichOrgTmdb Aux Examples.

Lemma lstrip_snoc (a : str) (c : ascii) :
  isspace c = false -> lstrip (a ++ [c]) = lstrip a ++ [c].
Proof.
  intros H. induction a as [|x a IH]; simpl.
  - rewrite H. reflexivity.
  - destruct (isspace x); [exact IH|reflexivity].
Qed.

Lemma rstrip_cons (c : ascii) (s : str) :
  isspace c = false -> rstrip (c :: s) = c :: rstrip s.
Proof.
  intros H. unfold rstrip. simpl. rewrite lstrip_snoc by exact H.
  rewrite rev_app_distr. reflexivity.
Qed.

(** Stripping keeps two leading characters that are not whitespace. *)
Lemma strip_cons2 (c1 c2 : ascii) (s : str) :
  isspace c1 = false -> isspace c2 = false ->
  strip (c1 :: c2 :: s) = c1 :: c2 :: rstrip s.
Proof.
  intros H1 H2. unfold strip. simpl. rewrite H1.
  rewrite !rstrip_cons by assumption. reflexivity.
Qed.

Lemma startswith_app (p s : str) : startswith p (p ++ s) = true.
Proof.
  induction p as [|x p IH]; [reflexivity|]. simpl.
  rewrite eqb_char_refl. exact IH.
Qed.

(** A line read as the property [k] starts, once stripped, with [:k:]. *)
Lemma prop_match_prefix (line k v : str) :
  prop_match line = Some (k, v) ->
  startswith (":"%char :: k ++ [":"%char]) (strip line) = true.
Proof.
  unfold prop_match. destruct (strip line) as [|c r]; [discriminate|].
  destruct (eqb_char c ":"%char) eqn:Ec; [|discriminate].
  apply eqb_char_eq in Ec. subst c.
  pose proof (take_drop_while isword r) as Hr.
  destruct (take_while isword r) as [|k0 ks] eqn:Et; [discriminate|].
  destruct (drop_while isword r) as [|c' r'] eqn:Ed; [discriminate|].
  destruct (eqb_char c' ":"%char) eqn:Ec'; [|discriminate].
  apply eqb_char_eq in Ec'. subst c'.
  destruct (negb (has_newline (lstrip r'))); [|discriminate].
  simpl. intros H. injection H as <- _. rewrite <- Hr.
  change (startswith ([":"%char] ++ (k0 :: ks) ++ [":"%char])
            ([":"%char] ++ (k0 :: ks) ++ ":"%char :: r') = true).
  rewrite app_assoc. rewrite (app_assoc [":"%char] (k0 :: ks) (":"%char :: r')).
  change (":"%char :: r') with ([":"%char] ++ r').
  rewrite (app_assoc _ [":"%char] r'). apply startswith_app.
Qed.

Lemma not_suggested_key (line v : str) :
  is_suggested line = false ->
  prop_match line <> Some (lit "SUGGESTED_SEARCH", v).
Proof.
  intros H E. apply prop_match_prefix in E. unfold is_suggested in H.
  change (":"%char :: lit "SUGGESTED_SEARCH" ++ [":"%char])
    with (lit ":SUGGESTED_SEARCH:") in E.
  congruence.
Qed.

Lemma read_properties_no_hint (ls : list str) :
  Forall (fun l => is_suggested l = false) ls ->
  dict_mem (lit "SUGGESTED_SEARCH") (read_properties ls) = false.
Proof.
  intros H. unfold read_properties.
  assert (Ht : Forall (fun l => is_suggested l = false) (take_while not_end ls)).
  { induction H as [|l ls Hl H IH]; simpl; [constructor|].
    destruct (not_end l); constructor; assumption. }
  clear H. revert Ht.
  assert (G : forall d,
             dict_mem (lit "SUGGESTED_SEARCH") d = false ->
             Forall (fun l => is_suggested l = false) (take_while not_end ls) ->
             dict_mem (lit "SUGGESTED_SEARCH")
               (fold_left
                  (fun properties line =>
                     match prop_match line with
                     | Some (key, value) => dict_set key value properties
                     | None => properties
                     end) (take_while not_end ls) d) = false).
  { induction (take_while not_end ls) as [|l ls' IH]; intros d Hd Hf;
      [exact Hd|].
    simpl. inversion Hf as [|? ? Hl Hf']; subst. apply IH; [|exact Hf'].
    destruct (prop_match l) as [[k v]|] eqn:El; [|exact Hd].
    unfold dict_mem. rewrite dict_get_set_other; [exact Hd|].
    intros ->. exact (not_suggested_key l v Hl El). }
  apply G. reflexivity.
Qed.

Lemma tmdb_lines_no_hint (m : match_info) :
  Forall (fun l => is_suggested l = false) (tmdb_lines m).
Proof.
  unfold tmdb_lines. apply Forall_app. split.
  - destruct (found m); [|constructor].
    repeat constructor; unfold is_suggested;
      (cbn [lit list_ascii_of_string app]; rewrite strip_cons2 by reflexivity;
       reflexivity).
  - destruct (needs_review m); [|constructor].
    repeat constructor.
Qed.

(** C6, as the code has it. In the run of [enrich_org_tmdb.py], when a
    record has a search hint and no identifier and the match made with the
    hint finds an identifier, the block that is written holds no line of
    the hint: it is the old block without these lines, followed by the
    lines of the match. In the end-to-end example, under a heading that
    carries the year 1995, the file written holds TMDB_ID: 123, no
    SUGGESTED_SEARCH, and NEEDS_REVIEW: true, the score being 71.54. *)
Theorem C6_hint_removed (search : search_fn) (line l1 : str) (tl' : list str)
    (t : str * str * option Z) (q : str) (m : match_info)
    (made : list query) (st : state) :
  parse_org_title line = Some t ->
  is_properties l1 = true ->
  ai_verified (read_properties tl') = false ->
  dict_mem (lit "TMDB_ID") (read_properties tl') = false ->
  dict_get (lit "SUGGESTED_SEARCH") (read_properties tl') = Some q ->
  find_best_match search q (snd t) = (Ok m, made) ->
  found m = true ->
  let block := filter (fun l => negb (is_suggested l)) (take_while not_end tl')
               ++ tmdb_lines m in
  let at_end := drop_while not_end tl' in
  step search line (l1 :: tl') st
  = (Ok (finish_entry
           ((output_lines st ++ [line; l1]) ++ block ++ firstn 1 at_end)
           (skipn 1 at_end) (calls st ++ made)),
     calls st ++ made)
  /\ Forall (fun l => is_suggested l = false) block
  /\ dict_mem (lit "SUGGESTED_SEARCH") (read_properties block) = false
  /\ process_org_file stub heat_doc
     = Some {| raised := None;
               final_disk :=
                 [ln "* Heat (1995)"; ln ":PROPERTIES:"; ln ":TMDB_ID: 123";
                  ln ":TMDB_TITLE: Heat"; ln ":TMDB_CONFIDENCE: 71.54";
                  ln ":NEEDS_REVIEW: true"; ln ":END:"];
               final_calls := [(lit "Heat 1995", Some 1995%Z)] |}.
Proof.
  intros Hp H1 Hai Hid Hq Hf Hfound block at_end.
  assert (Hb : Forall (fun l => is_suggested l = false) block).
  { unfold block. apply Forall_app. split; [|apply tmdb_lines_no_hint].
    apply Forall_forall. intros l Hl. apply filter_In in Hl.
    destruct Hl as [_ Hl]. apply negb_true_iff in Hl. exact Hl. }
  split; [|split; [exact Hb|split;
    [exact (read_properties_no_hint block Hb)|vm_compute; reflexivity]]].
  unfold step. rewrite (parse_is_heading line t Hp), Hp.
  destruct t as [[o c] y]. cbn [snd] in Hf.
  rewrite H1. cbn [skipn]. rewrite Hai, Hid, Hq, Hf. cbn [firstn].
  f_equal. f_equal. f_equal. unfold block, at_end.
  assert (EF : filter (fun l => negb (is_suggested l && found m))
                 (take_while not_end tl')
               = filter (fun l => negb (is_suggested l))
                   (take_while not_end tl')).
  { apply filter_ext. intros l. rewrite Hfound, andb_true_r. reflexivity. }
  rewrite EF, <- !app_assoc. reflexivity.
Qed.

Lemma C6_hint_removed_witness :
  let tl' := [ln ":SUGGESTED_SEARCH: Heat 1995"; ln ":END:"] in
  let st := initial heat_doc in
  let made := [(lit "Heat 1995", Some 1995%Z)] in
  let block := filter (fun l => negb (is_suggested l)) (take_while not_end tl')
               ++ tmdb_lines heat_match in
  let at_end := drop_while not_end tl' in
  step stub (ln "* Heat (1995)") (ln ":PROPERTIES:" :: tl') st
  = (Ok (finish_entry
           ((output_lines st ++ [ln "* Heat (1995)"; ln ":PROPERTIES:"])
            ++ block ++ firstn 1 at_end)
           (skipn 1 at_end) (calls st ++ made)),
     calls st ++ made)
  /\ Forall (fun l => is_suggested l = false) block
  /\ dict_mem (lit "SUGGESTED_SEARCH") (read_properties block) = false
  /\ process_org_file stub heat_doc
     = Some {| raised := None;
               final_disk :=
                 [ln "* Heat (1995)"; ln ":PROPERTIES:"; ln ":TMDB_ID: 123";
                  ln ":TMDB_TITLE: Heat"; ln ":TMDB_CONFIDENCE: 71.54";
                  ln ":NEEDS_REVIEW: true"; ln ":END:"];
               final_calls := [(lit "Heat 1995", Some 1995%Z)] |}.
Proof.
  apply (C6_hint_removed stub (ln "* Heat (1995)") (ln ":PROPERTIES:")
           [ln ":SUGGESTED_SEARCH: Heat 1995"; ln ":END:"]
           (lit "Heat (1995)", lit "Heat", Some 1995%Z)
           (lit "Heat 1995") heat_match
           [(lit "Heat 1995", Some 1995%Z)] (initial heat_doc)).
  - vm_compute. reflexivity.
  - reflexivity.
  - reflexivity.
  - reflexivity.
  - reflexivity.
  - vm_compute. reflexivity.
  - reflexivity.
Defined.

(** C6, as the specification states it, fails on its example. In
    [enrich_org_tmdb.py] the query "Heat 1995" is compared with the title
    "Heat": the similarity is 800/13, about 61.54, the exact year adds 10
    under a heading that carries 1995 and nothing under a heading without
    year; either score is below 85, and NEEDS_REVIEW: true is written. In
    [update_tmdb_from_suggested.py] the block is rebuilt from all the
    properties of the record, and the hint stays. *)
Lemma C6_example_needs_review :
  (Fuzz.ratio (lower (lit "Heat 1995")) (lower (lit "Heat")) == 800 # 13)%Q
  /\ score_candidate (lit "Heat 1995") (Some 1995%Z) heat = Ok (PyFloat (930 # 13))
  /\ (930 # 13 < 85)%Q
  /\ (exists r, process_org_file stub heat_doc = Some r
                /\ In (ln ":TMDB_ID: 123") (final_disk r)
                /\ In (ln ":NEEDS_REVIEW: true") (final_disk r))
  /\ (exists r, process_org_file stub heat_doc_plain = Some r
                /\ In (ln ":TMDB_ID: 123") (final_disk r)
                /\ In (ln ":NEEDS_REVIEW: true") (final_disk r))
  /\ (exists u, UpdateFromSuggested.update_org_entries stub false heat_doc = Ok u
                /\ UpdateFromSuggested.lines_now u
                   = [ln "* Heat (1995)"; ln ":PROPERTIES:";
                      ln ":SUGGESTED_SEARCH: Heat 1995"; ln ":TMDB_ID: 123";
                      ln ":TMDB_TITLE: Heat"; ln ":TMDB_CONFIDENCE: 81.54";
                      ln ":END:"]).
Proof.
  split; [reflexivity|]. split; [reflexivity|]. split; [reflexivity|].
  split; [|split].
  - eexists. split; [vm_compute; reflexivity|]. split.
    + right. right. left. reflexivity.
    + do 5 right. left. reflexivity.
  - eexists. split; [vm_compute; reflexivity|]. split.
    + right. right. left. reflexivity.
    + do 5 right. left. reflexivity.
  - eexists. split; [vm_compute; reflexivity|]. reflexivity.
Qed.

End Hint.

(** ** Parsing a block and writing it again *)

Section RoundTrip.
Import OrgParser InjectKnowledge Aux Examples.

Lemma rstrip_snoc_space (s : str) (c : ascii) :
  isspace c = true -> rstrip (s ++ [c]) = rstrip s.
Proof.
  intros H. unfold rstrip. rewrite rev_app_distr. simpl. rewrite H.
  reflexivity.
Qed.

Lemma rstrip_snoc_nonspace (s : str) (c : ascii) :
  isspace c = false -> rstrip (s ++ [c]) = s ++ [c].
Proof.
  intros H. unfold rstrip. rewrite rev_app_distr. simpl. rewrite H.
  simpl. rewrite rev_involutive. reflexivity.
Qed.

Lemma before_app (c : ascii) (k w : str) :
  contains c k = false -> before c (k ++ c :: w) = k.
Proof.
  induction k as [|x k IH]; simpl; intros H.
  - rewrite eqb_char_refl. reflexivity.
  - apply orb_false_iff in H. destruct H as [H1 H2].
    assert (E : eqb_char x c = false).
    { destruct (eqb_char x c) eqn:E; [|reflexivity].
      apply eqb_char_eq in E. subst x. rewrite eqb_char_refl in H1.
      discriminate. }
    rewrite E, IH by exact H2. reflexivity.
Qed.

Lemma after_app (c : ascii) (k w : str) :
  contains c k = false -> after c (k ++ c :: w) = Some w.
Proof.
  induction k as [|x k IH]; simpl; intros H.
  - rewrite eqb_char_refl. reflexivity.
  - apply orb_false_iff in H. destruct H as [H1 H2].
    assert (E : eqb_char x c = false).
    { destruct (eqb_char x c) eqn:E; [|reflexivity].
      apply eqb_char_eq in E. subst x. rewrite eqb_char_refl in H1.
      discriminate. }
    rewrite E. apply IH. exact H2.
Qed.

Lemma before_all (c : ascii) (v : str) :
  contains c v = false -> before c v = v.
Proof.
  induction v as [|x v IH]; simpl; intros H; [reflexivity|].
  apply orb_false_iff in H. destruct H as [H1 H2].
  assert (E : eqb_char x c = false).
  { destruct (eqb_char x c) eqn:E; [|reflexivity].
    apply eqb_char_eq in E. subst x. rewrite eqb_char_refl in H1.
    discriminate. }
  rewrite E, IH by exact H2. reflexivity.
Qed.

(** The parts of a canonical property. *)
Lemma canonical_inv (k v : str) :
  Spec.canonical (k, v) = true ->
  k <> [] /\ contains ":"%char k = false /\ contains nl v = false
  /\ Spec.no_edge_space v = true
  /\ (v = [] -> k <> lit "PROPERTIES" /\ k <> lit "END").
Proof.
  unfold Spec.canonical. intros H.
  apply andb_true_iff in H. destruct H as [H H5].
  apply andb_true_iff in H. destruct H as [H H4].
  apply andb_true_iff in H. destruct H as [H H3].
  apply andb_true_iff in H. destruct H as [H1 H2].
  apply negb_true_iff in H1, H2, H3, H5.
  split; [intros ->; discriminate|].
  split; [exact H2|]. split; [exact H3|]. split; [exact H4|].
  intros ->. rewrite eqb_str_refl in H5. cbn [andb] in H5.
  apply orb_false_iff in H5. destruct H5 as [P1 P2].
  split; apply eqb_str_neq; assumption.
Qed.

Lemma strip_prop_line (k v : str) :
  Spec.no_edge_space v = true ->
  strip (prop_line (k, v)) = ":"%char :: k ++ ":"%char :: tail_of v.
Proof.
  intros Hv. unfold prop_line. cbn [fst snd].
  unfold strip. cbn [lstrip]. change (isspace ":"%char) with false.
  cbv iota. unfold Spec.no_edge_space in Hv.
  apply andb_true_iff in Hv. destruct Hv as [_ Hv].
  destruct v as [|v0 vs].
  - cbn [app tail_of lit list_ascii_of_string].
    change (":"%char :: k ++ [":"%char; " "%char; nl])
      with ((":"%char :: k) ++ [":"%char; " "%char; nl]).
    replace ((":"%char :: k) ++ [":"%char; " "%char; nl])
      with (((((":"%char :: k) ++ [":"%char]) ++ [" "%char]) ++ [nl]))
      by (rewrite <- !app_assoc; reflexivity).
    rewrite rstrip_snoc_space by reflexivity.
    rewrite rstrip_snoc_space by reflexivity.
    rewrite rstrip_snoc_nonspace by reflexivity. reflexivity.
  - destruct (rev (v0 :: vs)) as [|c r] eqn:Er.
    { apply (f_equal (@List.length _)) in Er. rewrite length_rev in Er.
      discriminate. }
    apply negb_true_iff in Hv.
    assert (Ev : v0 :: vs = rev r ++ [c]).
    { rewrite <- (rev_involutive (v0 :: vs)), Er. reflexivity. }
    cbn [tail_of]. rewrite Ev.
    change (":"%char :: k ++ lit ": " ++ (rev r ++ [c]) ++ [nl])
      with ((":"%char :: k) ++ lit ": " ++ (rev r ++ [c]) ++ [nl]).
    replace ((":"%char :: k) ++ lit ": " ++ (rev r ++ [c]) ++ [nl])
      with (((((":"%char :: k) ++ lit ": ") ++ rev r) ++ [c]) ++ [nl])
      by (rewrite <- !app_assoc; reflexivity).
    rewrite rstrip_snoc_space by reflexivity.
    rewrite rstrip_snoc_nonspace by exact Hv.
    rewrite <- !app_assoc. reflexivity.
Qed.

Lemma prop_match_prop_line (k v : str) :
  Spec.canonical (k, v) = true ->
  prop_match (prop_line (k, v)) = Some (k, v).
Proof.
  intros H. destruct (canonical_inv k v H) as [Hk [Hc [Hn [He _]]]].
  unfold prop_match. rewrite strip_prop_line by exact He.
  rewrite eqb_char_refl, before_app, after_app by exact Hc.
  destruct k as [|k0 ks]; [congruence|].
  f_equal. f_equal. unfold tail_of. destruct v as [|v0 vs]; [reflexivity|].
  cbn [lstrip]. change (isspace " "%char) with true. cbv iota.
  unfold Spec.no_edge_space in He. apply andb_true_iff in He.
  destruct He as [He _]. apply negb_true_iff in He.
  cbn [lstrip]. rewrite He. apply before_all. exact Hn.
Qed.

Lemma split_at_colon (a b w : str) :
  contains ":"%char a = false -> contains ":"%char b = false ->
  a ++ ":"%char :: w = b ++ [":"%char] -> a = b /\ w = [].
Proof.
  revert b. induction a as [|x a IH]; intros b Ha Hb E.
  - destruct b as [|y b]; simpl in E.
    + injection E as ->. split; reflexivity.
    + injection E as <- _. simpl in Hb. discriminate.
  - destruct b as [|y b]; simpl in E.
    + injection E as -> _. simpl in Ha. discriminate.
    + injection E as <- E. simpl in Ha, Hb.
      apply orb_false_iff in Ha. apply orb_false_iff in Hb.
      destruct (IH b (proj2 Ha) (proj2 Hb) E) as [-> ->].
      split; reflexivity.
Qed.

(** A canonical property line is no headline and no marker. *)
Lemma prop_line_plain (k v : str) :
  Spec.canonical (k, v) = true ->
  is_headline (prop_line (k, v)) = false
  /\ is_properties (prop_line (k, v)) = false
  /\ is_end (prop_line (k, v)) = false.
Proof.
  intros H. destruct (canonical_inv k v H) as [Hk [Hc [Hn [He Hm]]]].
  split; [reflexivity|].
  unfold is_properties, is_end. rewrite strip_prop_line by exact He.
  split; apply eqb_str_neq; intros E.
  - change (lit ":PROPERTIES:") with (":"%char :: lit "PROPERTIES" ++ [":"%char]) in E.
    injection E as E.
    destruct (split_at_colon k (lit "PROPERTIES") (tail_of v) Hc eq_refl E)
      as [E1 E2].
    destruct v; [|discriminate]. apply (proj1 (Hm eq_refl)). exact E1.
  - change (lit ":END:") with (":"%char :: lit "END" ++ [":"%char]) in E.
    injection E as E.
    destruct (split_at_colon k (lit "END") (tail_of v) Hc eq_refl E)
      as [E1 E2].
    destruct v; [|discriminate]. apply (proj2 (Hm eq_refl)). exact E1.
Qed.

Lemma dict_set_fresh {V} (k : str) (v : V) (d : dict V) :
  ~ In k (map fst d) -> dict_set k v d = d ++ [(k, v)].
Proof.
  induction d as [|[k' v'] d IH]; simpl; intros H; [reflexivity|].
  destruct (eqb_str k k') eqn:E.
  - apply eqb_str_eq in E. exfalso. apply H. left. symmetry. exact E.
  - rewrite IH; [reflexivity|]. intros Hin. apply H. right. exact Hin.
Qed.

Lemma parse_lines_app (a b : list str) :
  forall st i,
    parse_lines st i (a ++ b)
    = parse_lines (parse_lines st i a) (i + List.length a) b.
Proof.
  induction a as [|l a IH]; intros st i; simpl.
  - rewrite Nat.add_0_r. reflexivity.
  - rewrite IH. f_equal. lia.
Qed.

(** The lines of canonical properties with distinct names are read back
    as these properties, in their order. *)
Lemma parse_props (es : list entry) (n : nat) (hd : str) (s : nat)
    (kvs : list (str * str)) :
  forall d i,
    Forall (fun kv => Spec.canonical kv = true) kvs ->
    NoDup (map fst (d ++ kvs)) ->
    parse_lines
      (es, Some {| line_number := n; heading := hd;
                   properties_start := Some s; properties_end := None;
                   properties := d; end_line := None |})
      i (map prop_line kvs)
    = (es, Some {| line_number := n; heading := hd;
                   properties_start := Some s; properties_end := None;
                   properties := d ++ kvs; end_line := None |}).
Proof.
  induction kvs as [|[k v] kvs IH]; intros d i Hc ND.
  - simpl. rewrite app_nil_r. reflexivity.
  - inversion Hc as [|? ? Hkv Hc']; subst.
    destruct (prop_line_plain k v Hkv) as [H1 [H2 H3]].
    cbn [map parse_lines]. unfold parse_line at 1.
    rewrite H1, H2, H3. cbn [properties_start properties_end properties].
    rewrite (prop_match_prop_line k v Hkv).
    rewrite dict_set_fresh.
    + unfold set_properties. cbn.
      rewrite IH; [|exact Hc'|rewrite <- app_assoc; exact ND].
      rewrite <- app_assoc. reflexivity.
    + intros Hin. rewrite map_app in ND. cbn [map fst] in ND.
      apply NoDup_remove_2 in ND. apply ND. apply in_or_app. left.
      exact Hin.
Qed.

(** Plain lines after a closed block change nothing. *)
Lemma parse_plain (es : list entry) (e : entry) (body : list str) :
  properties_end e <> None ->
  Forall (fun l => Spec.plain l = true) body ->
  forall i, parse_lines (es, Some e) i body = (es, Some e).
Proof.
  intros He Hb. induction Hb as [|l body Hl Hb IH]; intros i; [reflexivity|].
  cbn [parse_lines]. unfold parse_line at 1. unfold Spec.plain in Hl.
  apply andb_true_iff in Hl. destruct Hl as [Hl H3].
  apply andb_true_iff in Hl. destruct Hl as [H1 H2].
  apply negb_true_iff in H1, H2, H3. rewrite H1, H2, H3.
  destruct (properties_start e); destruct (properties_end e);
    try congruence; apply IH.
Qed.


Lemma parse_line_properties (es : list entry) (e : entry) (i : nat) :
  parse_line (es, Some e) i (ln ":PROPERTIES:") = (es, Some (set_start e i)).
Proof. reflexivity. Qed.

Lemma parse_line_end (es : list entry) (e : entry) (i : nat) :
  parse_line (es, Some e) i (ln ":END:") = (es, Some (set_end e i)).
Proof. reflexivity. Qed.


Lemma firstn_exact {A} (a b : list A) (n : nat) :
  n = List.length a -> firstn n (a ++ b) = a.
Proof.
  intros ->. rewrite firstn_app, Nat.sub_diag, firstn_all. simpl.
  apply app_nil_r.
Qed.

Lemma skipn_exact {A} (a b : list A) (n : nat) :
  n = List.length a -> skipn n (a ++ b) = b.
Proof.
  intros ->. rewrite skipn_app, Nat.sub_diag, skipn_all. reflexivity.
Qed.





(** Why the lines after the block must hold no marker: the record below
    has a second drawer after its block. The parser takes the [:END:] of
    the drawer for the end of the block, and the block built again, put
    in place, takes the drawer out of the file. *)
Lemma drawer_not_kept :
  exists e,
    parse_org_file Samples.drawer_doc = [e]
    /\ properties_start e = Some 1 /\ properties_end e = Some 6
    /\ properties e = [(lit "YEAR", lit "1979")]
    /\ replace_block e (Spec.reserialized e) Samples.drawer_doc
       = Ok [ln "* Alien"; ln ":PROPERTIES:"; ln ":YEAR: 1979"; ln ":END:"].
Proof.
  eexists. split; [vm_compute; reflexivity|].
  split; [reflexivity|]. split; [reflexivity|]. split; reflexivity.
Qed.

End RoundTrip.

(** ** The loop of update_tmdb_from_suggested.py that keeps the best
       result *)

Section BestOfFive.
Import Scorer UpdateFromSuggested AnyConfidence Aux.

Variable calculate_confidence :
  str -> str -> str -> option Z -> option str -> pynum.

Variables (heading suggested_search : str) (year_hint : option Z).

Lemma held_snoc (cs : list candidate) (b : option candidate * pynum)
    (x : candidate) :
  held (confidence_of calculate_confidence heading suggested_search year_hint) cs b ->
  held (confidence_of calculate_confidence heading suggested_search year_hint)
    (cs ++ [x])
    (best_step calculate_confidence heading suggested_search year_hint b x).
Proof.
  intros H. unfold held in *. unfold best_step.
  fold (confidence_of calculate_confidence heading suggested_search
          year_hint x).
  assert (Hsplit : forall j c', nth_error (cs ++ [x]) j = Some c' ->
            (j < List.length cs /\ nth_error cs j = Some c')
            \/ (j = List.length cs /\ c' = x)).
  { intros j c' E. destruct (Nat.lt_ge_cases j (List.length cs)) as [L|L].
    - left. split; [exact L|]. rewrite nth_error_app1 in E by exact L.
      exact E.
    - right. rewrite nth_error_app2 in E by exact L.
      destruct (j - List.length cs) as [|k] eqn:Ek; simpl in E.
      + injection E as <-. split; [lia|reflexivity].
      + destruct k; discriminate. }
  assert (Hlast : nth_error (cs ++ [x]) (List.length cs) = Some x).
  { rewrite nth_error_app2 by apply le_n. rewrite Nat.sub_diag. reflexivity. }
  destruct (Qlt_bool (num_val (snd b)) (num_val (confidence_of calculate_confidence heading suggested_search year_hint x))) eqn:E.
  - apply Qlt_bool_iff in E. simpl.
    assert (Hb : (0 <= num_val (snd b))%Q
                 /\ forall j c', nth_error cs j = Some c' ->
                      (num_val (confidence_of calculate_confidence heading suggested_search year_hint c') <= num_val (snd b))%Q).
    { destruct b as [[c|] best]; simpl in *.
      - destruct H as [i [_ [_ [Hpos Hmax]]]]. split.
        + apply Qlt_le_weak. exact Hpos.
        + intros j c' Ej. exact (proj1 (Hmax j c' Ej)).
      - destruct H as [-> H]. split; [apply Qle_refl|exact H]. }
    destruct Hb as [Hb0 Hbmax].
    exists (List.length cs). split; [exact Hlast|]. split; [reflexivity|].
    split; [apply Qle_lt_trans with (num_val (snd b)); assumption|].
    intros j c' Ej. destruct (Hsplit j c' Ej) as [[L Ec]|[-> ->]].
    + assert (Hlt : (num_val (confidence_of calculate_confidence heading suggested_search year_hint c') < num_val (confidence_of calculate_confidence heading suggested_search year_hint x))%Q).
      { apply Qle_lt_trans with (num_val (snd b)); [|exact E].
        exact (Hbmax j c' Ec). }
      split; [apply Qlt_le_weak; exact Hlt|intros _; exact Hlt].
    + split; [apply Qle_refl|lia].
  - apply Qlt_bool_false in E. destruct b as [[c|] best]; simpl in *.
    + destruct H as [i [Hi [Hc [Hpos Hmax]]]].
      assert (Li : i < List.length cs).
      { apply nth_error_Some. congruence. }
      exists i. split; [rewrite nth_error_app1 by exact Li; exact Hi|].
      split; [exact Hc|]. split; [exact Hpos|].
      intros j c' Ej. destruct (Hsplit j c' Ej) as [[L Ec]|[-> ->]].
      * exact (Hmax j c' Ec).
      * split; [exact E|lia].
    + destruct H as [-> H]. split; [reflexivity|].
      intros j c' Ej. destruct (Hsplit j c' Ej) as [[L Ec]|[-> ->]].
      * exact (H j c' Ec).
      * exact E.
Qed.

(** The result the loop takes, of the first five: the first of the
    highest confidence when some confidence is above zero, none when all
    are zero. *)
Lemma best_of_first_above_zero (results : list candidate) :
  held (confidence_of calculate_confidence heading suggested_search year_hint)
    (firstn 5 results)
    (best_of calculate_confidence heading suggested_search year_hint results).
Proof.
  unfold best_of. induction (firstn 5 results) as [|x cs IH] using rev_ind.
  - split; [reflexivity|]. intros [|j] c' E; discriminate.
  - rewrite fold_left_app. simpl. apply held_snoc. exact IH.
Qed.

End BestOfFive.

(** ** The best match, whatever the scores *)

Section RankingAny.
Import Normalizer Scorer AnyScore Aux.

Variable calculate_match_score :
  str -> str -> str -> option Z -> option str -> result pynum.

Lemma any_score_all_ok (title : str) (year_hint : option Z)
    (rs : list candidate) :
  (forall c, In c rs ->
     is_ok (score_candidate calculate_match_score title year_hint c) = true) ->
  exists scored,
    score_all calculate_match_score title year_hint rs = Ok scored /\
    List.length scored = List.length rs /\
    forall j sc, nth_error scored j = Some sc ->
      nth_error rs j = Some (snd sc) /\
      score_candidate calculate_match_score title year_hint (snd sc)
      = Ok (fst sc).
Proof.
  induction rs as [|r rs IH]; intros H.
  - exists []. split; [reflexivity|]. split; [reflexivity|].
    intros [|j] sc E; discriminate.
  - destruct IH as [scored [E [L N]]].
    { intros c Hc. apply H. right. exact Hc. }
    pose proof (H r (or_introl eq_refl)) as Hr.
    destruct (score_candidate calculate_match_score title year_hint r)
      as [s|e] eqn:Er; [|discriminate].
    exists ((s, r) :: scored). cbn [score_all]. rewrite Er. cbn [bind].
    rewrite E. cbn [bind].
    split; [reflexivity|]. split; [cbn [List.length]; congruence|].
    intros [|j] sc Ej; cbn [nth_error] in *.
    + injection Ej as <-. split; [reflexivity|exact Er].
    + apply N. exact Ej.
Qed.

(** The best entry is the first candidate of the highest score among the
    first ten results, whatever the scores are. *)
Lemma any_best_scored_first_max (title : str) (year_hint : option Z)
    (results : list candidate) :
  results <> [] ->
  (forall c, In c (firstn 10 results) ->
     is_ok (score_candidate calculate_match_score title year_hint c) = true) ->
  exists i c s,
    nth_error (firstn 10 results) i = Some c /\
    score_candidate calculate_match_score title year_hint c = Ok s /\
    best_scored calculate_match_score title year_hint results
    = Ok (Some (s, c)) /\
    forall j c' s',
      nth_error (firstn 10 results) j = Some c' ->
      score_candidate calculate_match_score title year_hint c' = Ok s' ->
      (num_val s' <= num_val s)%Q /\ (j < i -> (num_val s' < num_val s)%Q).
Proof.
  intros Hne Hs.
  destruct (any_score_all_ok title year_hint (firstn 10 results) Hs)
    as [scored [E [L N]]].
  assert (Hsne : scored <> []).
  { intros ->. destruct results; [congruence|discriminate]. }
  destruct (@sort_desc_head scored Hsne) as [i [[s c] [Hn [Hh Hmax]]]].
  destruct (N i (s, c) Hn) as [Hi Hsc]. cbn [fst snd] in Hi, Hsc.
  exists i, c, s. split; [exact Hi|]. split; [exact Hsc|]. split.
  - unfold best_scored. rewrite E. cbn [bind]. rewrite Hh. reflexivity.
  - intros j c' s' Hj Hs'.
    assert (Hlt : j < List.length scored).
    { rewrite L. apply nth_error_Some. congruence. }
    destruct (nth_error scored j) as [[s'' c'']|] eqn:Ej.
    2:{ apply nth_error_None in Ej. lia. }
    destruct (N j _ Ej) as [Hj' Hs'']. cbn [fst snd] in Hj', Hs''.
    assert (c'' = c') by congruence. subst c''.
    assert (s'' = s') by congruence. subst s''.
    exact (Hmax j _ Ej).
Qed.

End RankingAny.

Section RankingAgrees.
Import Normalizer Scorer.

(** With the scores of the file, the functions of [AnyScore] are those of
    [Scorer] and [MatchMovies]. *)
Lemma any_score_all_agrees (title : str) (year_hint : option Z)
    (rs : list candidate) :
  AnyScore.score_all calculate_match_score title year_hint rs
  = score_all title year_hint rs.
Proof.
  induction rs as [|r rs IH]; [reflexivity|].
  cbn [AnyScore.score_all score_all]. rewrite IH. reflexivity.
Qed.

Lemma any_score_agrees (search : search_fn) (parsed : parsed_entry) :
  AnyScore.find_best_match calculate_match_score search parsed
  = MatchMovies.find_best_match search parsed.
Proof.
  unfold AnyScore.find_best_match, MatchMovies.find_best_match,
    AnyScore.best_scored, best_scored.
  rewrite any_score_all_agrees. reflexivity.
Qed.

(** With the confidences of the file, the functions of [AnyConfidence]
    are those of [UpdateFromSuggested]. *)
Lemma any_confidence_agrees (search : search_fn) (dry_run : bool)
    (lines : list str) :
  AnyConfidence.update_org_entries UpdateFromSuggested.calculate_confidence
    search dry_run lines
  = UpdateFromSuggested.update_org_entries search dry_run lines.
Proof.
  unfold AnyConfidence.update_org_entries,
    UpdateFromSuggested.update_org_entries.
  generalize (filter UpdateFromSuggested.needs_processing
                (OrgParser.parse_org_file lines)).
  generalize {| UpdateFromSuggested.lines_now := lines;
                UpdateFromSuggested.updates := 0;
                UpdateFromSuggested.calls := [] |}.
  intros st es. revert st.
  induction es as [|e es IH]; intros st; [reflexivity|].
  cbn [AnyConfidence.update_loop UpdateFromSuggested.update_loop].
  change (AnyConfidence.update_entry UpdateFromSuggested.calculate_confidence
            search dry_run st e)
    with (UpdateFromSuggested.update_entry search dry_run st e).
  destruct (UpdateFromSuggested.update_entry search dry_run st e) as [st'|x];
    cbn [bind]; [apply IH|reflexivity].
Qed.

End RankingAgrees.

Section BestMatchAny.
Import Normalizer Scorer Aux.

(** C8. Whatever scores [calculate_match_score] gives (those the code
    computes in floating point are one case): from a list of results that
    is not empty and whose first ten can be scored, [find_best_match]
    takes a candidate of the highest score among the first ten, and of
    those the one the lookup returned first: no candidate scores more,
    and every candidate before it scores less. The loop of
    [update_org_entries] does the same among the first five results,
    whatever confidences [calculate_confidence] gives, when one of them
    has a confidence above zero. With the scores of the file,
    [find_best_match] of [AnyScore] is [find_best_match] of
    [MatchMovies]. *)
Theorem C8_first_best
    (calculate_match_score :
       str -> str -> str -> option Z -> option str -> result pynum)
    (calculate_confidence :
       str -> str -> str -> option Z -> option str -> pynum)
    (search : search_fn) (parsed : parsed_entry) :
  let title := cleaned_title parsed in
  let hint := year_hint parsed in
  let results := fst (lookup search title hint) in
  results <> [] ->
  (forall c, In c (firstn 10 results) ->
     is_ok (AnyScore.score_candidate calculate_match_score title hint c)
     = true) ->
  (exists i c s m,
     nth_error (firstn 10 results) i = Some c /\
     AnyScore.score_candidate calculate_match_score title hint c = Ok s /\
     AnyScore.find_best_match calculate_match_score search parsed = Ok m /\
     MatchMovies.tmdb_id m = c_id c /\
     MatchMovies.tmdb_title m = c_title c /\
     MatchMovies.tmdb_original_title m = c_original_title c /\
     forall j c' s',
       nth_error (firstn 10 results) j = Some c' ->
       AnyScore.score_candidate calculate_match_score title hint c' = Ok s' ->
       (num_val s' <= num_val s)%Q /\ (j < i -> (num_val s' < num_val s)%Q))
  /\ (forall heading suggested_search year_hint found,
        let conf :=
          confidence_of calculate_confidence heading suggested_search
            year_hint in
        (exists c, In c (firstn 5 found) /\ (0 < num_val (conf c))%Q) ->
        exists i c,
          AnyConfidence.best_of calculate_confidence heading suggested_search
            year_hint found = (Some c, conf c)
          /\ nth_error (firstn 5 found) i = Some c
          /\ forall j c',
               nth_error (firstn 5 found) j = Some c' ->
               (num_val (conf c') <= num_val (conf c))%Q
               /\ (j < i -> (num_val (conf c') < num_val (conf c))%Q))
  /\ (forall search' parsed',
        AnyScore.find_best_match Scorer.calculate_match_score search' parsed'
        = MatchMovies.find_best_match search' parsed').
Proof.
  intros title hint results Hne Hs.
  split; [|split; [|exact any_score_agrees]].
  - destruct (any_best_scored_first_max calculate_match_score title hint
                results Hne Hs)
      as [i [c [s [Hn [Hsc [Hb Hmax]]]]]].
    exists i, c, s. unfold AnyScore.find_best_match. cbv zeta.
    fold title. fold hint. fold results.
    destruct results as [|r0 rs] eqn:Er; [congruence|].
    rewrite Hb. cbn [bind]. eexists.
    split; [exact Hn|]. split; [exact Hsc|]. split; [reflexivity|].
    split; [reflexivity|]. split; [reflexivity|]. split; [reflexivity|].
    exact Hmax.
  - intros heading q y found conf [c0 [Hin Hpos]].
    pose proof (best_of_first_above_zero calculate_confidence heading q y
                  found) as H.
    destruct (AnyConfidence.best_of calculate_confidence heading q y found)
      as [[c|] best].
    + destruct H as [i [Hi [Hb [_ Hmax]]]]. subst best.
      exists i, c. split; [reflexivity|]. split; [exact Hi|exact Hmax].
    + destruct H as [_ H]. exfalso.
      apply In_nth_error in Hin. destruct Hin as [j Hj].
      apply (Qlt_not_le _ _ Hpos). exact (H j c0 Hj).
Qed.

End BestMatchAny.

Section BestMatchAnyExamples.
Import Normalizer Scorer Aux Examples Samples.

(** Three results for the title Heat: a sequel of a lower score, then
    the film twice, of the same score under two identifiers. The first
    of the two is taken: the identifier returned is 123. The loop of
    [update_org_entries], given another film of confidence zero and then
    the film twice, keeps the first of the two as well. *)
Lemma C8_first_best_witness :
  ((exists i c s m,
      nth_error
        (firstn 10 (fst (lookup three_results (cleaned_title heat_entry)
                           (year_hint heat_entry)))) i = Some c /\
      AnyScore.score_candidate calculate_match_score
        (cleaned_title heat_entry) (year_hint heat_entry) c = Ok s /\
      AnyScore.find_best_match calculate_match_score three_results heat_entry
      = Ok m /\
      MatchMovies.tmdb_id m = c_id c /\
      MatchMovies.tmdb_title m = c_title c /\
      MatchMovies.tmdb_original_title m = c_original_title c /\
      forall j c' s',
        nth_error
          (firstn 10 (fst (lookup three_results (cleaned_title heat_entry)
                             (year_hint heat_entry)))) j = Some c' ->
        AnyScore.score_candidate calculate_match_score
          (cleaned_title heat_entry) (year_hint heat_entry) c' = Ok s' ->
        (num_val s' <= num_val s)%Q /\ (j < i -> (num_val s' < num_val s)%Q))
   /\ (forall heading suggested_search year_hint found,
         let conf :=
           confidence_of UpdateFromSuggested.calculate_confidence heading
             suggested_search year_hint in
         (exists c, In c (firstn 5 found) /\ (0 < num_val (conf c))%Q) ->
         exists i c,
           AnyConfidence.best_of UpdateFromSuggested.calculate_confidence
             heading suggested_search year_hint found = (Some c, conf c)
           /\ nth_error (firstn 5 found) i = Some c
           /\ forall j c',
                nth_error (firstn 5 found) j = Some c' ->
                (num_val (conf c') <= num_val (conf c))%Q
                /\ (j < i -> (num_val (conf c') < num_val (conf c))%Q))
   /\ (forall search' parsed',
         AnyScore.find_best_match Scorer.calculate_match_score search' parsed'
         = MatchMovies.find_best_match search' parsed'))
  /\ (exists s1 s2 s3,
        map (score_candidate (cleaned_title heat_entry)
               (year_hint heat_entry)) [sequel; heat; heat_again]
        = [Ok s1; Ok s2; Ok s3]
        /\ (num_val s1 < num_val s2)%Q /\ (num_val s2 == num_val s3)%Q)
  /\ option_map MatchMovies.tmdb_id
       (match MatchMovies.find_best_match three_results heat_entry with
        | Ok m => Some m
        | Raise _ => None
        end)
     = Some (Some 123%Z)
  /\ fst (AnyConfidence.best_of UpdateFromSuggested.calculate_confidence
            (lit "Heat (1995)") (lit "Heat 1995") (Some 1995%Z)
            [ronin; heat; heat_again])
     = Some heat.
Proof.
  split; [|split; [|split; vm_compute; reflexivity]].
  2:{ do 3 eexists. split; [vm_compute; reflexivity|].
      split; vm_compute; reflexivity. }
  apply (C8_first_best calculate_match_score
           UpdateFromSuggested.calculate_confidence three_results heat_entry).
  - discriminate.
  - intros c H. cbn in H.
    destruct H as [<-|[<-|[<-|[]]]]; vm_compute; reflexivity.
Defined.

End BestMatchAnyExamples.

(** * Further properties of the code *)

(** ** The de-duplicator over whole files *)

Section DedupMore.
Import Dedup Aux Notions.

Lemma subseq_refl {A} (l : list A) : subseq l l.
Proof. induction l; constructor; assumption. Qed.

Lemma subseq_trans {A} (a b c : list A) :
  subseq a b -> subseq b c -> subseq a c.
Proof.
  intros H1 H2. revert a H1.
  induction H2 as [|x b c H2 IH|x b c H2 IH]; intros a H1.
  - exact H1.
  - inversion H1; subst.
    + apply subseq_keep. apply IH. assumption.
    + apply subseq_drop. apply IH. assumption.
  - apply subseq_drop. apply IH. exact H1.
Qed.

Lemma subseq_app {A} (a b c d : list A) :
  subseq a b -> subseq c d -> subseq (a ++ c) (b ++ d).
Proof.
  intros H1 H2. induction H1; simpl; [exact H2|constructor; assumption..].
Qed.

Lemma subseq_filter {A} (f : A -> bool) (l : list A) : subseq (filter f l) l.
Proof.
  induction l as [|x l IH]; simpl; [constructor|].
  destruct (f x); constructor; exact IH.
Qed.

Lemma subseq_length {A} (a b : list A) :
  subseq a b -> List.length a <= List.length b.
Proof. intros H. induction H; simpl; lia. Qed.

Lemma absorb_subseq (K : list str) (l : str) : subseq (absorb K l) (K ++ [l]).
Proof.
  unfold absorb. destruct (prop_name l).
  - apply subseq_app; [apply subseq_filter|apply subseq_refl].
  - apply subseq_refl.
Qed.

Lemma dedup_spec_subseq (ls : list str) :
  forall open,
    subseq (dedup_spec open ls)
      (match open with Some K => K | None => [] end ++ ls).
Proof.
  induction ls as [|l ls IH]; intros open.
  - simpl. rewrite app_nil_r. apply subseq_refl.
  - cbn [dedup_spec].
    destruct (is_properties l); [|destruct (is_end l)].
    + apply subseq_app; [apply subseq_refl|]. apply subseq_keep.
      apply (IH (Some [])).
    + apply subseq_app; [apply subseq_refl|]. apply subseq_keep.
      apply (IH None).
    + destruct open as [K|].
      * eapply subseq_trans; [apply IH|].
        replace (K ++ l :: ls) with ((K ++ [l]) ++ ls)
          by (rewrite <- app_assoc; reflexivity).
        apply subseq_app; [apply absorb_subseq|apply subseq_refl].
      * simpl. apply subseq_keep. apply (IH None).
Qed.

Lemma dedup_spec_no_block (ls : list str) :
  (forall l, In l ls -> is_properties l = false) ->
  dedup_spec None ls = ls.
Proof.
  induction ls as [|l ls IH]; intros H; [reflexivity|].
  cbn [dedup_spec]. rewrite (H l (or_introl eq_refl)).
  assert (E : dedup_spec None ls = ls).
  { apply IH. intros x Hx. apply H. right. exact Hx. }
  destruct (is_end l); rewrite E; reflexivity.
Qed.

(** X1. For every file, the lines [deduplicate_properties] writes are
    lines of the file in their order: the script adds no line, changes
    none and moves none, it only leaves lines out. A file without a line
    that opens a property block is written as it was read. *)
Theorem dedup_subsequence (lines : list str) :
  subseq (deduplicate_properties lines) lines
  /\ List.length (deduplicate_properties lines) <= List.length lines
  /\ ((forall l, In l lines -> is_properties l = false) ->
      deduplicate_properties lines = lines).
Proof.
  rewrite deduplicate_properties_spec.
  pose proof (dedup_spec_subseq lines None) as H. simpl in H.
  split; [exact H|]. split; [apply subseq_length; exact H|].
  apply dedup_spec_no_block.
Qed.

(** Lines already kept of an open block, read again, are kept again. *)
Lemma dedup_spec_kept (K X : list str) :
  Forall (fun l => Spec.unmarked l = true) K ->
  forall K0,
    NoDup (Spec.names (K0 ++ K)) ->
    dedup_spec (Some K0) (K ++ X) = dedup_spec (Some (K0 ++ K)) X.
Proof.
  intros HK. induction HK as [|l K Hl HK IH]; intros K0 ND.
  - rewrite app_nil_r. reflexivity.
  - cbn [app dedup_spec]. unfold Spec.unmarked in Hl.
    apply andb_true_iff in Hl. destruct Hl as [H1 H2].
    apply negb_true_iff in H1, H2. rewrite H1, H2.
    assert (EA : absorb K0 l = K0 ++ [l]).
    { unfold absorb. destruct (prop_name l) as [n|] eqn:El; [|reflexivity].
      f_equal. apply filter_id. intros x Hx. apply negb_true_iff.
      apply has_name_false. intros Hn.
      rewrite names_app in ND.
      change (Spec.names (l :: K)) with
        ((match prop_name l with Some m => [m] | None => [] end)
         ++ Spec.names K) in ND.
      rewrite El in ND. cbn [app] in ND.
      apply NoDup_remove_2 in ND. apply ND. apply in_or_app. left.
      apply in_names. exists x. split; assumption. }
    rewrite EA. rewrite IH.
    + rewrite <- app_assoc. reflexivity.
    + rewrite <- app_assoc. exact ND.
Qed.

Lemma absorb_unmarked (K : list str) (l : str) :
  Forall (fun x => Spec.unmarked x = true) K ->
  Spec.unmarked l = true ->
  Forall (fun x => Spec.unmarked x = true) (absorb K l).
Proof.
  intros HK Hl. unfold absorb. destruct (prop_name l).
  - apply Forall_app. split; [|repeat constructor; exact Hl].
    apply Forall_forall. intros x Hx. apply filter_In in Hx.
    rewrite Forall_forall in HK. apply HK. apply Hx.
  - apply Forall_app. split; [exact HK|repeat constructor; exact Hl].
Qed.

Lemma dedup_spec_idem (ls : list str) :
  forall open,
    match open with
    | Some K =>
        NoDup (Spec.names K) /\ Forall (fun x => Spec.unmarked x = true) K
    | None => True
    end ->
    dedup_spec (match open with Some _ => Some [] | None => None end)
      (dedup_spec open ls)
    = dedup_spec open ls.
Proof.
  induction ls as [|l ls IH]; intros open Hopen.
  - cbn [dedup_spec]. destruct open as [K|]; [|reflexivity].
    destruct Hopen as [ND HK].
    rewrite <- (app_nil_r K) at 1.
    rewrite (dedup_spec_kept K [] HK [] ND). reflexivity.
  - cbn [dedup_spec].
    destruct (is_properties l) eqn:HP; [|destruct (is_end l) eqn:HE].
    + destruct open as [K|].
      * destruct Hopen as [ND HK].
        rewrite (dedup_spec_kept K _ HK [] ND). cbn [app dedup_spec].
        rewrite HP. rewrite (IH (Some [])); [reflexivity|].
        split; constructor.
      * cbn [app dedup_spec]. rewrite HP.
        rewrite (IH (Some [])); [reflexivity|]. split; constructor.
    + destruct open as [K|].
      * destruct Hopen as [ND HK].
        rewrite (dedup_spec_kept K _ HK [] ND). cbn [app dedup_spec].
        rewrite HP, HE. rewrite (IH None I). reflexivity.
      * cbn [app dedup_spec]. rewrite HP, HE.
        rewrite (IH None I). reflexivity.
    + destruct open as [K|].
      * destruct Hopen as [ND HK].
        apply (IH (Some (absorb K l))). split.
        -- apply absorb_nodup. exact ND.
        -- apply absorb_unmarked; [exact HK|].
           unfold Spec.unmarked. rewrite HP, HE. reflexivity.
      * cbn [dedup_spec]. rewrite HP, HE. rewrite (IH None I). reflexivity.
Qed.

(** X2. Running [deduplicate_properties] on the file it wrote changes
    nothing: the second run writes the same lines. *)
Theorem dedup_idempotent (lines : list str) :
  deduplicate_properties (deduplicate_properties lines)
  = deduplicate_properties lines.
Proof.
  rewrite !deduplicate_properties_spec. apply (dedup_spec_idem lines None I).
Qed.

End DedupMore.

Section DedupBlocks.
Import Dedup Aux Notions.

Lemma names_cons (l : str) (body : list str) :
  Spec.names (l :: body)
  = match prop_name l with Some m => [m] | None => [] end ++ Spec.names body.
Proof. reflexivity. Qed.

(** Keeping the last line of each property loses no property. *)
Lemma keep_last_names (body : list str) (n : str) :
  In n (Spec.names body) <-> In n (Spec.names (Spec.keep_last body)).
Proof.
  induction body as [|l body IH]; [reflexivity|].
  cbn [Spec.keep_last]. rewrite names_cons.
  destruct (prop_name l) as [m|] eqn:El.
  - destruct (existsb (Spec.has_name m) body) eqn:Ee.
    + rewrite <- IH. cbn [app]. split; [|intros H; right; exact H].
      intros [<-|H]; [|exact H]. apply existsb_has_name. exact Ee.
    + rewrite names_cons, El. cbn [app In]. rewrite IH. reflexivity.
  - rewrite names_cons, El. cbn [app]. exact IH.
Qed.

Lemma keep_last_once (body : list str) : NoDup (Spec.names (Spec.keep_last body)).
Proof.
  induction body as [|l body IH]; [constructor|].
  cbn [Spec.keep_last]. destruct (prop_name l) as [m|] eqn:El.
  - destruct (existsb (Spec.has_name m) body) eqn:Ee; [exact IH|].
    rewrite names_cons, El. cbn [app]. constructor; [|exact IH].
    intros H. apply keep_last_names in H. apply existsb_has_name in H.
    congruence.
  - rewrite names_cons, El. exact IH.
Qed.

Lemma keep_last_subseq (body : list str) : subseq (Spec.keep_last body) body.
Proof.
  induction body as [|l body IH]; [constructor|].
  cbn [Spec.keep_last]. destruct (prop_name l) as [m|].
  - destruct (existsb (Spec.has_name m) body); constructor; exact IH.
  - constructor. exact IH.
Qed.

Lemma keep_last_final (a b : list str) (l n : str) :
  prop_name l = Some n -> ~ In n (Spec.names b) ->
  In l (Spec.keep_last (a ++ l :: b)).
Proof.
  intros Hl Hn. induction a as [|x a IH].
  - cbn [app Spec.keep_last]. rewrite Hl.
    destruct (existsb (Spec.has_name n) b) eqn:Ee.
    + apply existsb_has_name in Ee. contradiction.
    + left. reflexivity.
  - cbn [app Spec.keep_last]. destruct (prop_name x) as [m|].
    + destruct (existsb (Spec.has_name m) (a ++ l :: b)); [exact IH|].
      right. exact IH.
    + right. exact IH.
Qed.

Lemma keep_last_earlier (a b : list str) (l n : str) :
  prop_name l = Some n -> In n (Spec.names b) ->
  Spec.keep_last (a ++ l :: b) = Spec.keep_last (a ++ b).
Proof.
  intros Hl Hn. induction a as [|x a IH].
  - cbn [app Spec.keep_last]. rewrite Hl.
    apply existsb_has_name in Hn. rewrite Hn. reflexivity.
  - cbn [app Spec.keep_last]. rewrite IH.
    destruct (prop_name x) as [m|]; [|reflexivity].
    assert (E : existsb (Spec.has_name m) (a ++ l :: b)
                = existsb (Spec.has_name m) (a ++ b)).
    { rewrite !existsb_app. cbn [existsb].
      destruct (Spec.has_name m l) eqn:Em; [|reflexivity].
      apply has_name_iff in Em. rewrite Hl in Em. injection Em as <-.
      apply existsb_has_name in Hn. rewrite Hn, !orb_true_r. reflexivity. }
    rewrite E. reflexivity.
Qed.

(** X3. In a block, written anywhere in a file, whose lines between the
    two markers are no markers themselves, [deduplicate_properties] keeps
    of the lines that name the same property the last one, however many
    there are, and every line that names no property: no property of the
    block is lost, no property is named twice afterwards, the line that
    names a property last is kept, and a line that names a property named
    again further down counts for nothing. *)
Theorem dedup_keeps_last (pre body post : list str) (P E : str) :
  is_properties P = true ->
  is_end E = true ->
  Forall (fun l => Spec.unmarked l = true) body ->
  deduplicate_properties (pre ++ P :: body ++ E :: post)
  = deduplicate_properties pre ++ P :: Spec.keep_last body
    ++ E :: deduplicate_properties post
  /\ subseq (Spec.keep_last body) body
  /\ NoDup (Spec.names (Spec.keep_last body))
  /\ (forall n, In n (Spec.names body)
                <-> In n (Spec.names (Spec.keep_last body)))
  /\ (forall a l b n,
        body = a ++ l :: b -> prop_name l = Some n ->
        (~ In n (Spec.names b) -> In l (Spec.keep_last body))
        /\ (In n (Spec.names b) ->
            Spec.keep_last body = Spec.keep_last (a ++ b)))
  /\ filter (fun l => match prop_name l with Some _ => false | None => true end)
       (Spec.keep_last body)
     = filter (fun l => match prop_name l with Some _ => false | None => true end)
         body.
Proof.
  intros HP HE HB.
  split; [exact (dedup_block pre body post P E HP (end_not_properties E HE) HE HB)|].
  split; [apply keep_last_subseq|]. split; [apply keep_last_once|].
  split; [apply keep_last_names|]. split.
  - intros a l b n -> Hl. split.
    + apply keep_last_final. exact Hl.
    + apply keep_last_earlier. exact Hl.
  - clear. induction body as [|l body IH]; [reflexivity|].
    cbn [Spec.keep_last]. destruct (prop_name l) as [m|] eqn:El.
    + destruct (existsb (Spec.has_name m) body); cbn [filter]; rewrite El;
        exact IH.
    + cbn [filter]. rewrite El. f_equal. exact IH.
Qed.

End DedupBlocks.

Section DedupBlocksExamples.
Import Dedup Aux Notions Samples.

Lemma dedup_keeps_last_witness :
  let body := years_body in
  let pre := [ln "* Film"] in
  let post := [ln "Notes"] in
  let P := ln ":PROPERTIES:" in
  let E := ln ":END:" in
  deduplicate_properties (pre ++ P :: body ++ E :: post)
  = deduplicate_properties pre ++ P :: Spec.keep_last body
    ++ E :: deduplicate_properties post
  /\ subseq (Spec.keep_last body) body
  /\ NoDup (Spec.names (Spec.keep_last body))
  /\ (forall n, In n (Spec.names body)
                <-> In n (Spec.names (Spec.keep_last body)))
  /\ (forall a l b n,
        body = a ++ l :: b -> prop_name l = Some n ->
        (~ In n (Spec.names b) -> In l (Spec.keep_last body))
        /\ (In n (Spec.names b) ->
            Spec.keep_last body = Spec.keep_last (a ++ b)))
  /\ filter (fun l => match prop_name l with Some _ => false | None => true end)
       (Spec.keep_last body)
     = filter (fun l => match prop_name l with Some _ => false | None => true end)
         body.
Proof.
  apply (dedup_keeps_last [ln "* Film"] years_body [ln "Notes"]
           (ln ":PROPERTIES:") (ln ":END:")).
  - reflexivity.
  - reflexivity.
  - repeat constructor.
Defined.

End DedupBlocksExamples.

(** ** The counters of the de-duplicator *)

Section DedupCounters.
Import Dedup DedupStats Aux Notions.

Lemma remove_first_length (x : str) (l : list str) :
  In x l -> S (List.length (remove_first x l)) = List.length l.
Proof.
  induction l as [|y l IH]; simpl; intros H; [contradiction|].
  destruct (eqb_str y x) eqn:E; [reflexivity|].
  simpl. f_equal. apply IH. destruct H as [H|H]; [|exact H].
  apply eqb_str_neq in E. congruence.
Qed.

Lemma remove_last_length (x : str) (l : list str) :
  In x l -> S (List.length (remove_last x l)) = List.length l.
Proof.
  intros H. unfold remove_last. rewrite length_rev.
  rewrite remove_first_length; [apply length_rev|].
  apply in_rev in H. exact H.
Qed.

(** One turn of the loop: the state of the lines stays one the invariant
    describes, and a line is either written or counted as removed. *)
Lemma dedup_line_count (lines : list str) (st : dstate) (ss : sstate)
    (i : nat) (l : str) (R0 : list str) (open : option (list str)) :
  state_ok lines st R0 open ->
  nth i lines [] = l ->
  (exists R0' open', state_ok lines (dedup_line lines st i l) R0' open')
  /\ total_duplicates_removed (st_stats (stats_line st ss i l))
     + List.length (result_lines (dedup_line lines st i l))
     = total_duplicates_removed (st_stats ss)
       + List.length (result_lines st) + 1.
Proof.
  intros Hs Hl.
  assert (Hres : result_lines st
                 = R0 ++ match open with Some K => K | None => [] end).
  { destruct open; simpl in Hs; [apply Hs|].
    rewrite app_nil_r. apply Hs. }
  destruct (is_properties l) eqn:HP; [|destruct (is_end l) eqn:HE].
  - split.
    + exists (result_lines st ++ [l]), (Some []).
      unfold dedup_line. rewrite HP. simpl.
      split; [rewrite app_nil_r; reflexivity|].
      split; [reflexivity|]. split; [apply tracks_nil|constructor].
    + unfold dedup_line, stats_line. rewrite HP. simpl.
      rewrite length_app. simpl. lia.
  - split.
    + exists (result_lines st ++ [l]), None.
      unfold dedup_line. rewrite HP, HE. simpl. split; reflexivity.
    + unfold dedup_line, stats_line. rewrite HP, HE. simpl.
      rewrite length_app. simpl. lia.
  - destruct open as [K|].
    + split.
      * exists R0, (Some (absorb K l)). apply dedup_line_open; assumption.
      * destruct Hs as [Hr [Hp [Ht ND]]].
        unfold dedup_line, stats_line. rewrite HP, HE, Hp.
        destruct (prop_name l) as [n|] eqn:El.
        -- pose proof (Ht n) as Hn.
           destruct (dict_get n (current_properties st)) as [[idx c]|].
           ++ destruct Hn as [Hidx [_ Hin]]. simpl.
              rewrite length_app. simpl.
              assert (Hin' : In (nth idx lines []) (result_lines st)).
              { rewrite Hidx, Hr. apply in_or_app. right. exact Hin. }
              pose proof (remove_last_length _ _ Hin'). lia.
           ++ simpl. rewrite length_app. simpl. lia.
        -- simpl. rewrite length_app. simpl. lia.
    + destruct Hs as [Hr Hp]. split.
      * exists (result_lines st ++ [l]), None.
        unfold dedup_line. rewrite HP, HE, Hp. simpl. split; reflexivity.
      * unfold dedup_line, stats_line. rewrite HP, HE, Hp. simpl.
        rewrite length_app. simpl. lia.
Qed.

Lemma stats_loop_lines (lines rem : list str) :
  forall (i : nat) (st : dstate) (ss : sstate) (R0 : list str)
         (open : option (list str)),
    (forall j, j < List.length rem -> nth (i + j) lines [] = nth j rem []) ->
    state_ok lines st R0 open ->
    fst (stats_loop lines st ss i rem) = dedup_loop lines st i rem
    /\ total_duplicates_removed (st_stats (snd (stats_loop lines st ss i rem)))
       + List.length (result_lines (fst (stats_loop lines st ss i rem)))
       = total_duplicates_removed (st_stats ss)
         + List.length (result_lines st) + List.length rem.
Proof.
  induction rem as [|l rem IH]; intros i st ss R0 open Hc Hs.
  - simpl. split; [reflexivity|lia].
  - assert (Hl : nth i lines [] = l).
    { specialize (Hc 0). rewrite Nat.add_0_r in Hc. apply Hc. simpl. lia. }
    assert (Hc' : forall j, j < List.length rem ->
                            nth (S i + j) lines [] = nth j rem []).
    { intros j Hj. specialize (Hc (S j)). simpl in Hc.
      rewrite Nat.add_succ_r in Hc. apply Hc. lia. }
    destruct (dedup_line_count lines st ss i l R0 open Hs Hl)
      as [[R0' [open' Hs']] Hn].
    cbn [stats_loop dedup_loop].
    destruct (IH (S i) _ (stats_line st ss i l) R0' open' Hc' Hs')
      as [E1 E2].
    split; [exact E1|]. rewrite E2. cbn [List.length]. lia.
Qed.

Lemma stats_line_counters (lines : list str) (st : dstate) (ss : sstate)
    (i : nat) (l : str) :
  counters_ok st ss ->
  counters_ok (dedup_line lines st i l) (stats_line st ss i l)
  /\ total_entries (st_stats (stats_line st ss i l))
     = total_entries (st_stats ss)
       + List.length (filter is_properties [l]).
Proof.
  intros [Hd Hc]. unfold counters_ok, dedup_line, stats_line. cbn [filter].
  destruct (is_properties l) eqn:HP; [|destruct (is_end l) eqn:HE].
  - simpl. split; [|lia]. split; [exact Hd|].
    destruct (in_properties st); lia.
  - simpl. split; [|lia]. split; [exact Hd|]. split; [reflexivity|].
    destruct (in_properties st).
    + destruct (duplicates_in_current_block ss); lia.
    + destruct Hc as [-> Hc]. exact Hc.
  - destruct (in_properties st) eqn:Hp.
    + destruct (prop_name l) as [n|].
      * destruct (dict_get n (current_properties st)) as [[idx c]|]; simpl;
          rewrite ?Hp, ?length_app; simpl; (split; [|lia]); split;
          try lia; try exact Hd; exact Hc.
      * simpl. rewrite ?Hp. split; [|lia]. split; [exact Hd|exact Hc].
    + simpl. rewrite ?Hp. split; [|lia]. split; [exact Hd|exact Hc].
Qed.

Lemma stats_loop_counters (lines rem : list str) :
  forall (i : nat) (st : dstate) (ss : sstate),
    counters_ok st ss ->
    counters_ok (fst (stats_loop lines st ss i rem))
      (snd (stats_loop lines st ss i rem))
    /\ total_entries (st_stats (snd (stats_loop lines st ss i rem)))
       = total_entries (st_stats ss)
         + List.length (filter is_properties rem).
Proof.
  induction rem as [|l rem IH]; intros i st ss H.
  - simpl. split; [exact H|lia].
  - destruct (stats_line_counters lines st ss i l H) as [H' E'].
    cbn [stats_loop]. destruct (IH (S i) _ _ H') as [H'' E''].
    split; [exact H''|]. rewrite E'', E'. cbn [filter].
    destruct (is_properties l); simpl; lia.
Qed.

(** X4. The counters [deduplicate_properties] returns agree with the
    file it writes: the number of duplicates it reports removed is the
    number of lines of the input that are missing from the output, it
    logs one detail for each, it counts one entry for each line that
    opens a block, and the blocks it reports with duplicates are no more
    than these. *)
Theorem dedup_stats_count (lines : list str) :
  total_duplicates_removed (deduplicate_properties_stats lines)
  + List.length (deduplicate_properties lines)
  = List.length lines
  /\ List.length (duplicate_details (deduplicate_properties_stats lines))
     = total_duplicates_removed (deduplicate_properties_stats lines)
  /\ total_entries (deduplicate_properties_stats lines)
     = List.length (filter is_properties lines)
  /\ entries_with_duplicates (deduplicate_properties_stats lines)
     <= total_entries (deduplicate_properties_stats lines).
Proof.
  unfold deduplicate_properties_stats, deduplicate_properties.
  match goal with
  | |- context [stats_loop lines ?st ?ss 0 lines] =>
      destruct (stats_loop_lines lines lines 0 st ss [] None) as [E1 E2];
      [intros j _; reflexivity|split; reflexivity|];
      destruct (stats_loop_counters lines lines 0 st ss) as [[Hd Hc] Ht];
      [split; [reflexivity|split; [reflexivity|apply le_n]]|]
  end.
  rewrite <- E1. split; [|split; [exact Hd|split; [exact Ht|]]].
  - rewrite E2. simpl. lia.
  - destruct (in_properties _); lia.
Qed.

End DedupCounters.

(** ** The run of enrich_org_tmdb.py over a whole file *)

Section ProcessMore.
Import Normalizer Scorer EnrichOrgTmdb Aux Notions.

Variable search : search_fn.

Lemma subseq_nil_l {A} (l : list A) : subseq [] l.
Proof. induction l; constructor; assumption. Qed.

Lemma subseq_filter_mono {A} (f g : A -> bool) (l : list A) :
  (forall x, f x = true -> g x = true) ->
  subseq (filter f l) (filter g l).
Proof.
  intros H. induction l as [|x l IH]; simpl; [constructor|].
  destruct (f x) eqn:Ef.
  - rewrite (H x Ef). constructor. exact IH.
  - destruct (g x); [constructor|]; exact IH.
Qed.

Lemma subseq_filter_both {A} (f : A -> bool) (a b : list A) :
  subseq a b -> subseq (filter f a) (filter f b).
Proof.
  intros H. induction H as [|x a b H IH|x a b H IH]; simpl.
  - constructor.
  - destruct (f x); [constructor|]; exact IH.
  - destruct (f x); [constructor|]; exact IH.
Qed.

Lemma filter_idem {A} (f : A -> bool) (l : list A) :
  filter f (filter f l) = filter f l.
Proof.
  induction l as [|x l IH]; [reflexivity|]. simpl.
  destruct (f x) eqn:E; simpl; rewrite ?E, IH; reflexivity.
Qed.

Lemma lookup_calls (title : str) (year_hint : option Z) :
  List.length (snd (lookup search title year_hint)) <= 2.
Proof.
  unfold lookup. destruct (search title year_hint); [|simpl; lia].
  destruct (truthy_int year_hint); simpl; lia.
Qed.

Lemma find_best_match_calls (title : str) (year_hint : option Z) :
  List.length (snd (find_best_match search title year_hint)) <= 2.
Proof.
  unfold find_best_match. pose proof (lookup_calls title year_hint) as H.
  destruct (lookup search title year_hint) as [results made]. exact H.
Qed.

Lemma filter_drop_while {A} (f g : A -> bool) (l : list A) :
  List.length (filter f (drop_while g l)) <= List.length (filter f l).
Proof.
  induction l as [|x l IH]; simpl; [lia|].
  destruct (g x); [destruct (f x); simpl; lia|simpl; lia].
Qed.

Lemma filter_skipn1 {A} (f : A -> bool) (l : list A) :
  List.length (filter f (skipn 1 l)) <= List.length (filter f l).
Proof. destruct l as [|x l]; simpl; [lia|]. destruct (f x); simpl; lia. Qed.

(** One turn of the loop: the lookups are logged, at most two are made
    and only at a line that reads as a heading, and the headings left are
    among those that were left. *)
Lemma step_calls (line : str) (tl : list str) (st : state)
    (r : result state) (log : list query) :
  step search line tl st = (r, log) ->
  List.length log
  <= List.length (calls st) + 2 * List.length (filter parses [line])
  /\ match r with
     | Ok st' =>
         calls st' = log
         /\ List.length (filter parses (rest st'))
            <= List.length (filter parses tl)
     | Raise _ => True
     end.
Proof.
  assert (Hn : List.length (filter parses [line])
               = match parse_org_title line with Some _ => 1 | None => 0 end).
  { cbn [filter]. unfold parses. destruct (parse_org_title line); reflexivity. }
  rewrite Hn. clear Hn. unfold step.
  assert (Hskip : List.length (filter parses (rest (skip_entry line tl st)))
                  <= List.length (filter parses tl)).
  { unfold skip_entry. cbn [rest]. apply filter_drop_while. }
  assert (Hfin : forall out remaining lg,
             List.length (filter parses remaining)
             <= List.length (filter parses tl) ->
             List.length (filter parses (rest (finish_entry out remaining lg)))
             <= List.length (filter parses tl)).
  { intros out remaining lg H. unfold finish_entry. cbn [rest].
    pose proof (filter_drop_while parses not_heading remaining). lia. }
  destruct (is_heading line).
  2:{ intros H. injection H as <- <-. cbn [rest calls].
      split; [lia|split; [reflexivity|lia]]. }
  destruct (parse_org_title line) as [[[o c] y]|].
  2:{ intros H. injection H as <- <-. cbn [rest calls].
      split; [lia|split; [reflexivity|lia]]. }
  match goal with
  | |- (if ?b then _ else _) = _ -> _ => destruct b
  end.
  { intros H. injection H as <- <-.
    split; [lia|split; [reflexivity|exact Hskip]]. }
  destruct (dict_mem (lit "TMDB_ID") _).
  { intros H. injection H as <- <-.
    split; [lia|split; [reflexivity|exact Hskip]]. }
  match goal with
  | |- context [find_best_match search ?q y] =>
      pose proof (find_best_match_calls q y) as Hm;
      destruct (find_best_match search q y) as [[m|e] made]
  end; cbn [snd] in Hm.
  2:{ intros H. injection H as <- <-. rewrite length_app.
      split; [lia|exact I]. }
  destruct (match tl with l1 :: _ => is_properties l1 | [] => false end).
  - intros H. injection H as <- <-. rewrite length_app.
    split; [lia|]. split; [reflexivity|]. apply Hfin.
    pose proof (filter_skipn1 parses (drop_while not_end (skipn 1 tl))).
    pose proof (filter_drop_while parses not_end (skipn 1 tl)).
    pose proof (filter_skipn1 parses tl). cbn [skipn] in *. lia.
  - intros H. injection H as <- <-. rewrite length_app.
    split; [lia|]. split; [reflexivity|]. apply Hfin. lia.
Qed.

Lemma process_loop_calls (fuel : nat) :
  forall st r,
    process_loop search fuel st = Some r ->
    List.length (final_calls r)
    <= List.length (calls st) + 2 * List.length (filter parses (rest st)).
Proof.
  induction fuel as [|fuel IH]; intros st r.
  - simpl. destruct (rest st); [|discriminate].
    intros H. injection H as <-. simpl. lia.
  - simpl. destruct (rest st) as [|line tl] eqn:Er.
    + intros H. injection H as <-. simpl. lia.
    + destruct (step search line tl st) as [[st'|e] log] eqn:Es.
      * destruct (step_calls line tl st _ _ Es) as [H1 [H2 H3]].
        intros H. apply IH in H. rewrite H2 in H.
        cbn [filter] in *. destruct (parses line); cbn [List.length] in *; lia.
      * destruct (step_calls line tl st _ _ Es) as [H1 _].
        intros H. injection H as <-. cbn [final_calls].
        cbn [filter] in *. destruct (parses line); cbn [List.length] in *; lia.
Qed.

(** X5. The run of [process_org_file] over any file ends, and it makes
    at most two lookups for each line that reads as a heading, and none
    for any other line. *)
Theorem process_lookups_bounded (lines : list str) :
  exists r,
    process_org_file search lines = Some r
    /\ List.length (final_calls r)
       <= 2 * List.length (filter parses lines).
Proof.
  destruct (process_org_file_total search lines) as [r Hr].
  exists r. split; [exact Hr|].
  apply process_loop_calls in Hr. exact Hr.
Qed.

Lemma finish_entry_whole (out remaining : list str) (log : list query) :
  output_lines (finish_entry out remaining log)
  ++ rest (finish_entry out remaining log) = out ++ remaining
  /\ disk (finish_entry out remaining log) = out ++ remaining.
Proof.
  unfold finish_entry. cbn [output_lines rest disk].
  rewrite <- app_assoc, take_drop_while. split; reflexivity.
Qed.

(** One turn of the loop: what is written and what is left hold the lines
    that were written and left before, but for lines of the hint; and the
    file on disk is as it was or holds all of that. *)
Lemma step_keeps (line : str) (tl : list str) (st st' : state)
    (log : list query) :
  step search line tl st = (Ok st', log) ->
  subseq (filter not_suggested (output_lines st ++ line :: tl))
    (output_lines st' ++ rest st')
  /\ (disk st' = disk st \/ disk st' = output_lines st' ++ rest st').
Proof.
  unfold step.
  assert (Hcopy : subseq (filter not_suggested (output_lines st ++ line :: tl))
                    ((output_lines st ++ [line]) ++ tl)).
  { rewrite <- app_assoc. apply subseq_filter. }
  assert (Hskip : subseq (filter not_suggested (output_lines st ++ line :: tl))
                    (output_lines (skip_entry line tl st)
                     ++ rest (skip_entry line tl st))).
  { unfold skip_entry. cbn [output_lines rest].
    rewrite <- app_assoc. cbn [app]. rewrite take_drop_while.
    apply subseq_filter. }
  destruct (is_heading line).
  2:{ intros H. injection H as <- _. cbn [output_lines rest disk].
      split; [exact Hcopy|left; reflexivity]. }
  destruct (parse_org_title line) as [[[o c] y]|].
  2:{ intros H. injection H as <- _. cbn [output_lines rest disk].
      split; [exact Hcopy|left; reflexivity]. }
  match goal with
  | |- (if ?b then _ else _) = _ -> _ => destruct b
  end.
  { intros H. injection H as <- _. split; [exact Hskip|left; reflexivity]. }
  destruct (dict_mem (lit "TMDB_ID") _).
  { intros H. injection H as <- _. split; [exact Hskip|left; reflexivity]. }
  destruct (find_best_match search _ y) as [[m|e] made]; [|discriminate].
  assert (Hins : forall (a ins b : list str),
            subseq (filter not_suggested (a ++ b)) (a ++ ins ++ b)).
  { intros a ins b. rewrite filter_app.
    apply subseq_app; [apply subseq_filter|].
    rewrite <- (app_nil_l (filter _ b)).
    apply subseq_app; [apply subseq_nil_l|apply subseq_filter]. }
  assert (Hnew : forall tl0,
            subseq (filter not_suggested (output_lines st ++ line :: tl0))
              ((output_lines st ++ [line] ++ [ln ":PROPERTIES:"]
                ++ tmdb_lines m ++ [ln ":END:"]) ++ tl0)).
  { intros tl0.
    replace (output_lines st ++ line :: tl0)
      with ((output_lines st ++ [line]) ++ tl0)
      by (rewrite <- app_assoc; reflexivity).
    replace ((output_lines st ++ [line] ++ [ln ":PROPERTIES:"]
              ++ tmdb_lines m ++ [ln ":END:"]) ++ tl0)
      with ((output_lines st ++ [line])
            ++ ([ln ":PROPERTIES:"] ++ tmdb_lines m ++ [ln ":END:"]) ++ tl0)
      by (rewrite <- !app_assoc; reflexivity).
    apply Hins. }
  destruct tl as [|l1 tl'].
  - intros H. injection H as <- _.
    match goal with
    | |- context [finish_entry ?o ?r ?l] =>
        destruct (finish_entry_whole o r l) as [E1 E2]
    end.
    rewrite E1, E2. split; [|right; reflexivity]. apply Hnew.
  - destruct (is_properties l1).
    + intros H. injection H as <- _.
      match goal with
      | |- context [finish_entry ?o ?r ?l] =>
          destruct (finish_entry_whole o r l) as [E1 E2]
      end.
      rewrite E1, E2. split; [|right; reflexivity].
      cbn [firstn skipn].
      set (block := take_while not_end tl').
      set (at_end := drop_while not_end tl').
      set (kept := filter (fun l => negb (is_suggested l && found m)) block).
      match goal with
      | |- subseq (filter _ ?L) ?R =>
          replace L with ((output_lines st ++ [line; l1]) ++ block ++ at_end)
            by (unfold block, at_end; rewrite take_drop_while,
                  <- app_assoc; reflexivity);
          replace R with ((output_lines st ++ [line; l1])
                          ++ (kept ++ tmdb_lines m) ++ at_end)
      end.
      2:{ rewrite <- (firstn_skipn 1 at_end) at 1.
          rewrite <- !app_assoc. reflexivity. }
      rewrite (filter_app not_suggested (output_lines st ++ [line; l1])
                 (block ++ at_end)).
      rewrite (filter_app not_suggested block at_end).
      apply subseq_app; [apply subseq_filter|].
      apply subseq_app; [|apply subseq_filter].
      rewrite <- (app_nil_r (filter not_suggested block)).
      apply subseq_app; [|apply subseq_nil_l].
      apply subseq_filter_mono. intros x Hx. unfold not_suggested in Hx.
      apply negb_true_iff in Hx. rewrite Hx. reflexivity.
    + intros H. injection H as <- _.
      match goal with
      | |- context [finish_entry ?o ?r ?l] =>
          destruct (finish_entry_whole o r l) as [E1 E2]
      end.
      rewrite E1, E2. split; [|right; reflexivity]. apply Hnew.
Qed.

Lemma process_loop_keeps (orig : list str) (fuel : nat) :
  forall st r,
    subseq (filter not_suggested orig) (output_lines st ++ rest st) ->
    subseq (filter not_suggested orig) (disk st) ->
    process_loop search fuel st = Some r ->
    subseq (filter not_suggested orig) (final_disk r).
Proof.
  assert (Hend : forall st,
            rest st = [] ->
            subseq (filter not_suggested orig) (output_lines st ++ rest st) ->
            subseq (filter not_suggested orig) (disk st) ->
            subseq (filter not_suggested orig)
              match output_lines st with
              | [] => disk st
              | _ :: _ => output_lines st
              end).
  { intros st Er H1 H2. rewrite Er, app_nil_r in H1.
    destruct (output_lines st); assumption. }
  induction fuel as [|fuel IH]; intros st r H1 H2.
  - simpl. destruct (rest st) eqn:Er; [|discriminate].
    intros H. injection H as <-. cbn [final_disk].
    apply Hend; [exact Er|rewrite Er; exact H1|exact H2].
  - simpl. destruct (rest st) as [|line tl] eqn:Er.
    + intros H. injection H as <-. cbn [final_disk].
      apply Hend; [exact Er|rewrite Er; exact H1|exact H2].
    + destruct (step search line tl st) as [[st'|e] log] eqn:Es.
      * destruct (step_keeps line tl st st' log Es) as [K1 K2].
        assert (H1' : subseq (filter not_suggested orig)
                        (output_lines st' ++ rest st')).
        { eapply subseq_trans; [|exact K1].
          rewrite <- (filter_idem not_suggested orig).
          apply subseq_filter_both. exact H1. }
        apply IH; [exact H1'|].
        destruct K2 as [-> | ->]; assumption.
      * intros H. injection H as <-. exact H2.
Qed.

End ProcessMore.

(** ** The entries parse_org_file finds *)

Section ParserMore.
Import OrgParser Notions.

(** A line that is no headline leaves the closed entries, and the place
    and title of the open one, as they are. *)
Lemma parse_line_body (es : list entry) (cur : option entry) (i : nat)
    (l : str) :
  is_headline l = false ->
  exists cur',
    parse_line (es, cur) i l = (es, cur')
    /\ option_map (fun e => (line_number e, heading e)) cur'
       = option_map (fun e => (line_number e, heading e)) cur.
Proof.
  intros H. unfold parse_line. rewrite H.
  destruct cur as [e|]; [|exists None; split; reflexivity].
  destruct (is_properties l); [eexists; split; reflexivity|].
  destruct (is_end l); [eexists; split; reflexivity|].
  destruct (properties_start e); [|eexists; split; reflexivity].
  destruct (properties_end e); [eexists; split; reflexivity|].
  destruct (prop_match l) as [[k v]|]; eexists; split; reflexivity.
Qed.

Lemma parse_lines_outline (ls : list str) :
  forall es cur i,
    map extent
      (match snd (parse_lines (es, cur) i ls) with
       | Some e =>
           fst (parse_lines (es, cur) i ls)
           ++ [close e (i + List.length ls)]
       | None => fst (parse_lines (es, cur) i ls)
       end)
    = map extent es
      ++ outline
           (match cur with
            | Some e => [(line_number e, heading e)]
            | None => []
            end ++ headlines i ls)
           (i + List.length ls).
Proof.
  induction ls as [|l ls IH]; intros es cur i.
  - cbn [parse_lines fst snd headlines List.length]. rewrite app_nil_r.
    destruct cur as [e|]; [|cbn; rewrite app_nil_r; reflexivity].
    rewrite map_app. reflexivity.
  - cbn [parse_lines headlines List.length].
    rewrite Nat.add_succ_r. change (S (i + List.length ls))
      with (S i + List.length ls).
    destruct (is_headline l) eqn:Hh.
    + unfold parse_line at 1 2 3. rewrite Hh. rewrite IH.
      destruct cur as [e|].
      * rewrite map_app, <- app_assoc. reflexivity.
      * reflexivity.
    + destruct (parse_line_body es cur i l Hh) as [cur' [E1 E2]].
      rewrite E1, IH. f_equal. f_equal. f_equal.
      destruct cur as [e|], cur' as [e'|]; try discriminate; [|reflexivity].
      simpl in E2. injection E2 as -> ->. reflexivity.
Qed.

(** X7. [parse_org_file] returns one entry for each line that starts
    with a star and a space, in the order of the file: the entry starts
    at the index of that line, is titled by the text after the star and
    the space without the newline at its end, and ends where the next
    entry starts, the last one at the end of the file. Lines before the
    first such line belong to no entry. *)
Theorem parse_org_file_outline (lines : list str) :
  map extent (parse_org_file lines)
  = outline (headlines 0 lines) (List.length lines).
Proof.
  unfold parse_org_file.
  pose proof (parse_lines_outline lines [] None 0) as H.
  destruct (parse_lines ([], None) 0 lines) as [es cur].
  exact H.
Qed.

Lemma entry_ok_later (lines : list str) (i : nat) (e : entry) :
  entry_ok lines i e -> entry_ok lines (S i) e.
Proof.
  intros [H1 [H2 [H3 H4]]]. split; [lia|]. split; [|split; [|exact H4]].
  - intros s Hs. destruct (H2 s Hs) as [Hb Hm]. split; [lia|exact Hm].
  - intros t Ht. destruct (H3 t Ht) as [Hb Hm]. split; [lia|exact Hm].
Qed.

(** One line read: the open entry stays one the parser knows as
    described, and so does an entry that the line closes. *)
Lemma parse_line_ok (lines : list str) (es : list entry) (cur : option entry)
    (i : nat) (l : str) :
  nth i lines [] = l ->
  (forall e, cur = Some e -> entry_ok lines i e) ->
  Forall (fun e => exists n, end_line e = Some n /\ n <= i /\ entry_ok lines n e) es ->
  (forall e, snd (parse_line (es, cur) i l) = Some e -> entry_ok lines (S i) e)
  /\ Forall (fun e => exists n, end_line e = Some n /\ n <= S i
                                /\ entry_ok lines n e)
       (fst (parse_line (es, cur) i l)).
Proof.
  intros Hl Hc He.
  assert (He' : Forall (fun e => exists n, end_line e = Some n /\ n <= S i
                                           /\ entry_ok lines n e) es).
  { eapply Forall_impl; [|exact He]. intros e [n [H1 [H2 H3]]].
    exists n. split; [exact H1|]. split; [lia|exact H3]. }
  unfold parse_line. destruct (is_headline l).
  - cbn [fst snd]. split.
    + intros e E. injection E as <-. split; [simpl; lia|].
      split; [intros s Hs; discriminate|].
      split; [intros t Ht; discriminate|reflexivity].
    + destruct cur as [e|]; [|exact He'].
      apply Forall_app. split; [exact He'|]. constructor; [|constructor].
      exists i. split; [reflexivity|]. split; [lia|].
      exact (Hc e eq_refl).
  - destruct cur as [e|]; [|split; [intros e E; discriminate|exact He']].
    pose proof (Hc e eq_refl) as [H1 [H2 [H3 H4]]].
    pose proof (entry_ok_later lines i e (Hc e eq_refl)) as Hlater.
    destruct (is_properties l) eqn:HP; [|destruct (is_end l) eqn:HE].
    + cbn [fst snd]. split; [|exact He']. intros e' E. injection E as <-.
      unfold entry_ok, set_start. cbn.
      split; [lia|]. split; [|split].
      * intros s Hs. injection Hs as <-. split; [lia|].
        rewrite Hl. exact HP.
      * intros t Ht. destruct (H3 t Ht) as [Hb Hm]. split; [lia|exact Hm].
      * discriminate.
    + cbn [fst snd]. split; [|exact He']. intros e' E. injection E as <-.
      unfold entry_ok, set_end. cbn.
      split; [lia|]. split; [|split].
      * intros s Hs. destruct (H2 s Hs) as [Hb Hm]. split; [lia|exact Hm].
      * intros t Ht. injection Ht as <-. split; [lia|].
        rewrite Hl. exact HE.
      * exact H4.
    + destruct (properties_start e) as [s|] eqn:Es.
      2:{ cbn [fst snd]. split; [|exact He']. intros e' E.
          injection E as <-. exact Hlater. }
      destruct (properties_end e) as [t|] eqn:Et.
      { cbn [fst snd]. split; [|exact He']. intros e' E.
        injection E as <-. exact Hlater. }
      destruct (prop_match l) as [[k v]|].
      2:{ cbn [fst snd]. split; [|exact He']. intros e' E.
          injection E as <-. exact Hlater. }
      cbn [fst snd]. split; [|exact He']. intros e' E. injection E as <-.
      unfold entry_ok, set_properties. cbn. rewrite Es, Et.
      split; [lia|]. split; [|split].
      * intros s' Hs. destruct (H2 s' Hs) as [Hb Hm]. split; [lia|exact Hm].
      * discriminate.
      * discriminate.
Qed.

Lemma parse_lines_ok (lines ls : list str) :
  forall es cur i,
    (forall j, j < List.length ls -> nth (i + j) lines [] = nth j ls []) ->
    (forall e, cur = Some e -> entry_ok lines i e) ->
    Forall (fun e => exists n, end_line e = Some n /\ n <= i
                               /\ entry_ok lines n e) es ->
    (forall e, snd (parse_lines (es, cur) i ls) = Some e ->
               entry_ok lines (i + List.length ls) e)
    /\ Forall (fun e => exists n, end_line e = Some n
                                  /\ n <= i + List.length ls
                                  /\ entry_ok lines n e)
         (fst (parse_lines (es, cur) i ls)).
Proof.
  induction ls as [|l ls IH]; intros es cur i Hn Hc He.
  - cbn [parse_lines fst snd List.length]. rewrite Nat.add_0_r.
    split; assumption.
  - assert (Hl : nth i lines [] = l).
    { specialize (Hn 0). rewrite Nat.add_0_r in Hn. apply Hn. simpl. lia. }
    assert (Hn' : forall j, j < List.length ls ->
                            nth (S i + j) lines [] = nth j ls []).
    { intros j Hj. specialize (Hn (S j)). simpl in Hn.
      rewrite Nat.add_succ_r in Hn. apply Hn. lia. }
    destruct (parse_line_ok lines es cur i l Hl Hc He) as [Hc' He'].
    cbn [parse_lines List.length]. rewrite Nat.add_succ_r.
    change (S (i + List.length ls)) with (S i + List.length ls).
    destruct (parse_line (es, cur) i l) as [es' cur'].
    apply IH; assumption.
Qed.

(** X8. For every entry [parse_org_file] returns, the entry ends within
    the file, the indices it records for its block lie inside the entry,
    after its headline and before its end, and the lines at these indices
    are markers: a line that reads [:PROPERTIES:] at the start index, a
    line that reads [:END:] at the end index. An entry without start
    index has no properties; so an entry that has a property has the
    index of an opening marker. *)
Theorem parse_org_file_markers (lines : list str) :
  Forall (fun e => exists n,
            end_line e = Some n /\ n <= List.length lines
            /\ entry_ok lines n e)
    (parse_org_file lines).
Proof.
  unfold parse_org_file.
  destruct (parse_lines_ok lines lines [] None 0) as [Hc He].
  - intros j _. reflexivity.
  - intros e E. discriminate.
  - constructor.
  - destruct (parse_lines ([], None) 0 lines) as [es cur].
    cbn [fst snd] in Hc, He. simpl in Hc, He.
    destruct cur as [e|]; [|exact He].
    apply Forall_app. split; [exact He|]. constructor; [|constructor].
    exists (List.length lines). split; [reflexivity|]. split; [lia|].
    exact (Hc e eq_refl).
Qed.

End ParserMore.

(** ** The run of update_tmdb_from_suggested.py *)

Section UpdateMore.
Import Scorer OrgParser UpdateFromSuggested Notions.

Variable search : search_fn.

(** One entry worked on: its lookup is logged; either nothing else
    changes, or, outside a dry run, one update is counted. The exceptions
    are those of a result without identifier and, outside a dry run, of a
    block without end. *)
Lemma update_entry_effect (dry_run : bool) (st : ustate) (e : entry) :
  match update_entry search dry_run st e with
  | Ok st' =>
      calls st' = calls st ++ [hint_query e]
      /\ ((updates st' = updates st /\ lines_now st' = lines_now st)
          \/ (dry_run = false /\ updates st' = S (updates st)))
  | Raise x => x = KeyError \/ (dry_run = false /\ x = TypeError)
  end.
Proof.
  unfold update_entry, hint_query. cbv zeta.
  destruct (search _ _) as [|r0 rs].
  { split; [reflexivity|left; split; reflexivity]. }
  destruct (best_of _ _ _ _) as [[best_match|] best_confidence].
  2:{ split; [reflexivity|left; split; reflexivity]. }
  destruct (c_id best_match) as [tmdb_id|]; [|left; reflexivity].
  destruct dry_run.
  { split; [reflexivity|left; split; reflexivity]. }
  unfold replace_block. destruct (properties_end e) as [pe|]; cbn [bind].
  - split; [reflexivity|right; split; reflexivity].
  - right. split; reflexivity.
Qed.

Lemma update_loop_effect (dry_run : bool) (es : list entry) :
  forall st,
    match update_loop search dry_run st es with
    | Ok st' =>
        calls st' = calls st ++ map hint_query es
        /\ updates st <= updates st' <= updates st + List.length es
        /\ (dry_run = true ->
            lines_now st' = lines_now st /\ updates st' = updates st)
        /\ (updates st' = updates st -> lines_now st' = lines_now st)
    | Raise x => x = KeyError \/ (dry_run = false /\ x = TypeError)
    end.
Proof.
  induction es as [|e es IH]; intros st.
  - cbn [update_loop map List.length]. rewrite app_nil_r.
    split; [reflexivity|]. split; [lia|]. split; [split; reflexivity|].
    reflexivity.
  - cbn [update_loop map List.length].
    pose proof (update_entry_effect dry_run st e) as H.
    destruct (update_entry search dry_run st e) as [st1|x]; cbn [bind];
      [|exact H].
    destruct H as [Hc Hu]. specialize (IH st1).
    destruct (update_loop search dry_run st1 es) as [st'|x]; [|exact IH].
    destruct IH as [Ic [Iu [Id Iz]]].
    split; [rewrite Ic, Hc, <- app_assoc; reflexivity|].
    split; [destruct Hu as [[Hu _]|[_ Hu]]; lia|]. split.
    + intros Hd. destruct (Id Hd) as [I1 I2].
      destruct Hu as [[Hu Hl]|[Hu _]]; [|congruence].
      split; congruence.
    + intros Hz. destruct Hu as [[Hu Hl]|[_ Hu]]; [|lia].
      rewrite <- Hl. apply Iz. lia.
Qed.

(** X9. [update_org_entries] makes one lookup for each entry it has to
    process, in the order of the file, with the search hint of the entry
    as the query, and counts no more updates than these entries. In a dry
    run it counts no update and changes no line; and whenever it counts
    no update the lines are those it read, so that nothing is written.
    The only exceptions it raises are [KeyError], for a best result
    without identifier, and, outside a dry run, [TypeError], for a block
    that does not end. *)
Theorem update_lookups_and_dry_run (dry_run : bool) (lines : list str) :
  match update_org_entries search dry_run lines with
  | Ok u =>
      calls u = map hint_query (filter needs_processing (parse_org_file lines))
      /\ updates u
         <= List.length (filter needs_processing (parse_org_file lines))
      /\ (dry_run = true -> lines_now u = lines /\ updates u = 0)
      /\ (updates u = 0 -> lines_now u = lines)
  | Raise x => x = KeyError \/ (dry_run = false /\ x = TypeError)
  end.
Proof.
  unfold update_org_entries.
  match goal with
  | |- context [update_loop search dry_run ?st ?es] =>
      pose proof (update_loop_effect dry_run es st) as H;
      destruct (update_loop search dry_run st es) as [u|x]; [|exact H]
  end.
  cbn [calls updates lines_now app] in H.
  destruct H as [Hc [Hu [Hd Hz]]].
  split; [exact Hc|]. split; [lia|]. split; assumption.
Qed.

End UpdateMore.

(** ** Records that have an identifier, in both runs *)

Section GatesBoth.
Import Normalizer Scorer EnrichOrgTmdb Aux Notions.

(** C5, as the code has it. In the run of [enrich_org_tmdb.py] a record
    whose heading is read as one, whose block starts on the line after
    the heading and whose properties, read up to the first [:END:], hold
    TMDB_ID is copied as it is, heading and lines up to the next heading,
    and no lookup is made for it, whatever its other properties: this is
    so at any point of the loop, and for a record at the head of a file
    the run gives this record followed by the run over the rest of the
    file, with the lookups of that run only. In a run of
    [update_tmdb_from_suggested.py] that ends without exception the
    lookups are those of the entries its filter keeps, one each, and the
    filter keeps an entry that holds TMDB_ID exactly when it has a search
    hint and its NEEDS_REVIEW is "true". *)
Theorem C5_has_id_skipped (search : search_fn) (line : str) (tl : list str)
    (t : str * str * option Z) :
  parse_org_title line = Some t ->
  match tl with l1 :: _ => is_properties l1 | [] => false end = true ->
  dict_mem (lit "TMDB_ID") (read_properties (skipn 1 tl)) = true ->
  (forall st, step search line tl st = (Ok (skip_entry line tl st), calls st))
  /\ (forall st, skip_entry line tl st
                 = {| rest := drop_while not_heading tl;
                      output_lines :=
                        output_lines st ++ line :: take_while not_heading tl;
                      disk := disk st;
                      calls := calls st |})
  /\ process_org_file search (line :: tl)
     = option_map (prepend_run (line :: take_while not_heading tl))
         (process_org_file search (drop_while not_heading tl))
  /\ (forall e,
        dict_mem (lit "TMDB_ID") (OrgParser.properties e) = true ->
        UpdateFromSuggested.needs_processing e
        = dict_mem (lit "SUGGESTED_SEARCH") (OrgParser.properties e)
          && match dict_get (lit "NEEDS_REVIEW") (OrgParser.properties e) with
             | Some v => eqb_str v (lit "true")
             | None => false
             end)
  /\ (forall dry_run lines u,
        UpdateFromSuggested.update_org_entries search dry_run lines = Ok u ->
        UpdateFromSuggested.calls u
        = map hint_query
            (filter UpdateFromSuggested.needs_processing
               (OrgParser.parse_org_file lines))).
Proof.
  intros Hp Hprops Hid.
  assert (Hstep : forall st,
             step search line tl st = (Ok (skip_entry line tl st), calls st)).
  { intros st. unfold step. rewrite (parse_is_heading line t Hp), Hp.
    destruct t as [[o c] y]. rewrite Hprops, Hid.
    match goal with
    | |- (if ?b then _ else _) = _ => destruct b; reflexivity
    end. }
  split; [exact Hstep|]. split; [reflexivity|]. split; [|split].
  - unfold process_org_file. cbn [List.length process_loop rest].
    rewrite Hstep.
    assert (Est : skip_entry line tl
                    {| rest := line :: tl; output_lines := [];
                       disk := line :: tl; calls := [] |}
                  = prepend_state (line :: take_while not_heading tl)
                      (initial (drop_while not_heading tl))).
    { unfold skip_entry, prepend_state, initial. cbn.
      rewrite app_nil_r, take_drop_while. reflexivity. }
    rewrite Est, process_loop_prepend by (intros _; reflexivity).
    f_equal. unfold initial.
    apply (process_loop_fuel search (List.length tl)).
    + apply length_drop_while.
    + apply le_n.
  - exact needs_processing_with_id.
  - intros dry_run lines u Hu.
    unfold UpdateFromSuggested.update_org_entries in Hu.
    match type of Hu with
    | UpdateFromSuggested.update_loop search dry_run ?st ?es = _ =>
        pose proof (update_loop_effect search dry_run es st) as H
    end.
    rewrite Hu in H. destruct H as [H _]. exact H.
Qed.

End GatesBoth.

Section GatesBothExamples.
Import Normalizer Scorer EnrichOrgTmdb Aux Notions Examples.

Lemma C5_has_id_skipped_witness :
  (forall st,
     step stub (ln "* Heat (1995)") (tl kept_doc) st
     = (Ok (skip_entry (ln "* Heat (1995)") (tl kept_doc) st), calls st))
  /\ (forall st,
        skip_entry (ln "* Heat (1995)") (tl kept_doc) st
        = {| rest := drop_while not_heading (tl kept_doc);
             output_lines :=
               output_lines st
               ++ ln "* Heat (1995)" :: take_while not_heading (tl kept_doc);
             disk := disk st;
             calls := calls st |})
  /\ process_org_file stub (ln "* Heat (1995)" :: tl kept_doc)
     = option_map
         (prepend_run (ln "* Heat (1995)" :: take_while not_heading (tl kept_doc)))
         (process_org_file stub (drop_while not_heading (tl kept_doc)))
  /\ (forall e,
        dict_mem (lit "TMDB_ID") (OrgParser.properties e) = true ->
        UpdateFromSuggested.needs_processing e
        = dict_mem (lit "SUGGESTED_SEARCH") (OrgParser.properties e)
          && match dict_get (lit "NEEDS_REVIEW") (OrgParser.properties e) with
             | Some v => eqb_str v (lit "true")
             | None => false
             end)
  /\ (forall dry_run lines u,
        UpdateFromSuggested.update_org_entries stub dry_run lines = Ok u ->
        UpdateFromSuggested.calls u
        = map hint_query
            (filter UpdateFromSuggested.needs_processing
               (OrgParser.parse_org_file lines))).
Proof.
  apply (C5_has_id_skipped stub (ln "* Heat (1995)") (tl kept_doc)
           (lit "Heat (1995)", lit "Heat", Some 1995%Z)).
  - vm_compute. reflexivity.
  - reflexivity.
  - reflexivity.
Defined.

End GatesBothExamples.

(** ** The run of inject_knowledge_properties.py *)

Section InjectMore.
Import OrgParser InjectKnowledge Notions.

Variable knowledge : dict knowledge_entry.

Lemma inject_entry_raises (st : list str * nat) (e : entry) (x : exn) :
  inject_entry knowledge st e = Raise x -> x = TypeError.
Proof.
  unfold inject_entry.
  destruct (dict_get (heading e) knowledge) as [k|]; [|discriminate].
  destruct (new_props_of k) as [|p ps]; [discriminate|].
  unfold replace_block. destruct (properties_end e); cbn [bind];
    [discriminate|]. intros H. injection H as <-. reflexivity.
Qed.

Lemma inject_loop_raises (es : list entry) (e : entry) (k : knowledge_entry) :
  In e es ->
  dict_get (heading e) knowledge = Some k ->
  new_props_of k <> [] ->
  properties_end e = None ->
  forall st, inject_loop knowledge st es = Raise TypeError.
Proof.
  intros Hin Hk Hn He. induction es as [|e' es IH]; [contradiction|].
  intros st. cbn [inject_loop].
  destruct (inject_entry knowledge st e') as [st'|x] eqn:E.
  - cbn [bind]. destruct Hin as [->|Hin]; [|apply IH; exact Hin].
    unfold inject_entry in E. rewrite Hk in E.
    destruct (new_props_of k) as [|p ps]; [congruence|].
    unfold replace_block in E. rewrite He in E. discriminate.
  - cbn [bind]. f_equal. apply (inject_entry_raises st e' x E).
Qed.

(** X10. When the notes hold something to add for a record whose entry
    has no line that reads [:END:], and so no end index, [update_org_file]
    raises [TypeError], whatever the other records are: the script stops
    before it writes the file. *)
Theorem inject_without_block_raises (lines : list str) (e : entry)
    (k : knowledge_entry) :
  In e (parse_org_file lines) ->
  dict_get (heading e) knowledge = Some k ->
  new_props_of k <> [] ->
  properties_end e = None ->
  update_org_file knowledge lines = Raise TypeError.
Proof.
  intros Hin Hk Hn He. unfold update_org_file.
  apply (inject_loop_raises _ e k); try assumption.
  apply in_rev. rewrite rev_involutive. exact Hin.
Qed.

End InjectMore.

Section InjectMoreExamples.
Import OrgParser InjectKnowledge Notions Examples Samples.

Lemma inject_without_block_raises_witness :
  update_org_file alien_note bare_doc = Raise TypeError.
Proof.
  apply (inject_without_block_raises alien_note bare_doc
           {| line_number := 0; heading := lit "Alien";
              properties_start := None; properties_end := None;
              properties := []; end_line := Some 2 |}
           {| k_tmdb_id := None; k_suggested_search := None;
              k_corrected := None; k_year := None;
              k_notes := Some (lit "Director's cut") |}).
  - left. reflexivity.
  - reflexivity.
  - discriminate.
  - reflexivity.
Defined.

End InjectMoreExamples.

(** ** Files of well-formed records *)

Section WellFormedFiles.
Import OrgParser InjectKnowledge Notions.

Lemma parse_lines_none (ls : list str) :
  Forall (fun l => is_headline l = false) ls ->
  forall es i, parse_lines (es, None) i ls = (es, None).
Proof.
  intros H. induction H as [|l ls Hl H IH]; intros es i; [reflexivity|].
  cbn [parse_lines]. unfold parse_line. rewrite Hl. apply IH.
Qed.

(** The lines of a well-formed record, read from line [i] on: the entry
    that was open is closed at [i], and the entry of the record is open. *)
Lemma parse_record (r : record) (es : list entry) (cur : option entry)
    (i : nat) :
  well_formed r ->
  parse_lines (es, cur) i (render r)
  = (es ++ match cur with Some e => [close e i] | None => [] end,
     Some {| line_number := i;
             heading := title_of r;
             properties_start := Some (i + 1);
             properties_end := Some (i + 2 + List.length (r_props r));
             properties := r_props r;
             end_line := None |}).
Proof.
  intros [Hh [Hc [ND Hb]]]. unfold render, build_prop_lines.
  change (r_headline r :: ([ln ":PROPERTIES:"] ++ map prop_line (r_props r)
                           ++ [ln ":END:"]) ++ r_body r)
    with ([r_headline r] ++ ([ln ":PROPERTIES:"] ++ map prop_line (r_props r)
                             ++ [ln ":END:"]) ++ r_body r).
  rewrite <- !app_assoc.
  rewrite (parse_lines_app [r_headline r]),
    (parse_lines_app [ln ":PROPERTIES:"]),
    (parse_lines_app (map prop_line (r_props r))),
    (parse_lines_app [ln ":END:"]).
  cbn [parse_lines]. unfold parse_line at 3. rewrite Hh.
  rewrite parse_line_properties. unfold set_start.
  cbn [line_number heading properties_end properties end_line].
  match goal with
  | |- context [parse_lines (?es0, _) _ (map prop_line _)] =>
      rewrite (parse_props es0 _ _ _ (r_props r) [] _ Hc ND)
  end.
  cbn [app]. rewrite parse_line_end. unfold set_end.
  cbn [line_number heading properties_start properties end_line].
  rewrite parse_plain; [|discriminate|exact Hb].
  rewrite length_map. cbn [List.length].
  f_equal.
  - destruct cur; rewrite ?app_nil_r; reflexivity.
  - f_equal. unfold title_of. f_equal; f_equal; lia.
Qed.

Lemma parse_records (recs : list record) :
  Forall well_formed recs ->
  forall es cur i,
    match snd (parse_lines (es, cur) i (flat_map render recs)) with
    | Some e =>
        fst (parse_lines (es, cur) i (flat_map render recs))
        ++ [close e (i + List.length (flat_map render recs))]
    | None => fst (parse_lines (es, cur) i (flat_map render recs))
    end
    = (es ++ match cur with Some e => [close e i] | None => [] end)
      ++ entries_of i recs.
Proof.
  intros H. induction H as [|r recs Hr H IH]; intros es cur i.
  - cbn [flat_map parse_lines fst snd entries_of List.length].
    rewrite Nat.add_0_r, app_nil_r. destruct cur; [reflexivity|].
    rewrite app_nil_r. reflexivity.
  - cbn [flat_map entries_of]. rewrite parse_lines_app.
    rewrite (parse_record r es cur i Hr). rewrite length_app, Nat.add_assoc.
    rewrite IH. rewrite <- app_assoc. reflexivity.
Qed.

Lemma parse_well_formed (pre : list str) (recs : list record) :
  Forall (fun l => is_headline l = false) pre ->
  Forall well_formed recs ->
  parse_org_file (pre ++ flat_map render recs)
  = entries_of (List.length pre) recs.
Proof.
  intros Hp Hr. unfold parse_org_file.
  pose proof (parse_records recs Hr [] None (List.length pre)) as H.
  rewrite parse_lines_app, (parse_lines_none pre Hp). cbn [Nat.add].
  rewrite length_app.
  destruct (parse_lines ([], None) (List.length pre) (flat_map render recs))
    as [es cur].
  exact H.
Qed.

End WellFormedFiles.

Section InjectWellFormed.
Import OrgParser InjectKnowledge Notions.

Variable knowledge : dict knowledge_entry.

Lemma inject_loop_app (a b : list entry) :
  forall st,
    inject_loop knowledge st (a ++ b)
    = bind (inject_loop knowledge st a)
        (fun st' => inject_loop knowledge st' b).
Proof.
  induction a as [|e a IH]; intros st; [reflexivity|].
  cbn [app inject_loop].
  destruct (inject_entry knowledge st e) as [st'|x]; cbn [bind];
    [apply IH|reflexivity].
Qed.

Lemma length_build_prop_lines (kvs : dict str) :
  List.length (build_prop_lines kvs) = List.length kvs + 2.
Proof.
  unfold build_prop_lines. rewrite !length_app, length_map. simpl. lia.
Qed.

(** The block of a record put in its place, behind any lines [P] and
    before any lines [X]. *)
Lemma replace_record_block (P X new : list str) (r : record) (e : entry) :
  properties_start e = Some (List.length P + 1) ->
  properties_end e = Some (List.length P + 2 + List.length (r_props r)) ->
  replace_block e new (P ++ render r ++ X)
  = Ok (P ++ (r_headline r :: new ++ r_body r) ++ X).
Proof.
  intros Hs He. unfold replace_block. rewrite Hs, He. f_equal.
  unfold slice_assign, render.
  set (B := build_prop_lines (r_props r)).
  assert (EL : P ++ (r_headline r :: B ++ r_body r) ++ X
               = (P ++ [r_headline r]) ++ B ++ r_body r ++ X).
  { cbn [app]. rewrite <- !app_assoc. reflexivity. }
  rewrite EL.
  assert (E1 : firstn (List.length P + 1)
                 ((P ++ [r_headline r]) ++ B ++ r_body r ++ X)
               = P ++ [r_headline r]).
  { apply firstn_exact. rewrite length_app. simpl. lia. }
  assert (E2 : skipn (Nat.max (List.length P + 1)
                        (List.length P + 2 + List.length (r_props r) + 1))
                 ((P ++ [r_headline r]) ++ B ++ r_body r ++ X)
               = r_body r ++ X).
  { rewrite (app_assoc (P ++ [r_headline r]) B (r_body r ++ X)).
    apply skipn_exact. unfold B.
    rewrite !length_app, length_build_prop_lines. simpl. lia. }
  rewrite E1, E2. cbn [app]. rewrite <- !app_assoc. reflexivity.
Qed.

Lemma injected_none (r : record) :
  additions knowledge r = [] -> injected knowledge r = r.
Proof.
  intros H. unfold injected. rewrite H. destruct r; reflexivity.
Qed.

Lemma inject_entry_additions (st : list str * nat) (e : entry) (r : record) :
  heading e = title_of r ->
  inject_entry knowledge st e
  = match additions knowledge r with
    | [] => Ok st
    | (_ :: _) as new_props =>
        bind (replace_block e (merged_block e new_props) (fst st))
          (fun lines' => Ok (lines', S (snd st)))
    end.
Proof.
  intros H. unfold inject_entry, additions. rewrite H.
  destruct (dict_get (title_of r) knowledge) as [k|]; reflexivity.
Qed.

Lemma inject_records (recs : list record) :
  forall (P : list str) (c : nat),
    inject_loop knowledge (P ++ flat_map render recs, c)
      (rev (entries_of (List.length P) recs))
    = Ok (P ++ flat_map render (map (injected knowledge) recs),
          c + List.length (filter (has_additions knowledge) recs)).
Proof.
  induction recs as [|r recs IH]; intros P c.
  - cbn. rewrite Nat.add_0_r. reflexivity.
  - cbn [entries_of rev flat_map map filter]. rewrite inject_loop_app.
    replace (P ++ render r ++ flat_map render recs)
      with ((P ++ render r) ++ flat_map render recs)
      by (rewrite <- app_assoc; reflexivity).
    replace (List.length P + List.length (render r))
      with (List.length (P ++ render r)) by apply length_app.
    rewrite IH. cbn [bind inject_loop].
    rewrite (inject_entry_additions _ _ r) by reflexivity.
    cbn [fst snd]. unfold has_additions.
    destruct (additions knowledge r) as [|p ps] eqn:Ea.
    + cbn [bind]. rewrite (injected_none r Ea). rewrite <- !app_assoc.
      reflexivity.
    + rewrite <- app_assoc.
      rewrite (replace_record_block P _ _ r); [|reflexivity|reflexivity].
      cbn [bind]. f_equal. f_equal.
      * unfold render, injected, merged_block. rewrite Ea.
        cbn [properties r_headline r_props r_body]. reflexivity.
      * cbn [List.length]. lia.
Qed.

(** X11. On a file made of lines without headline followed by
    well-formed records, [update_org_file] returns the file in which
    every record whose title is filed in the notes with something to add
    has its block built again from its properties merged with the
    additions, a property it had taking the new value in its place and a
    new one going last, and in which every other line is as it was; the
    count it returns is the number of these records. The records are
    worked from the last to the first, so that the indices found when
    the file was read still hold when a block is replaced. *)
Theorem inject_well_formed (pre : list str) (recs : list record) :
  Forall (fun l => is_headline l = false) pre ->
  Forall well_formed recs ->
  update_org_file knowledge (pre ++ flat_map render recs)
  = Ok (pre ++ flat_map render (map (injected knowledge) recs),
        List.length (filter (has_additions knowledge) recs)).
Proof.
  intros Hp Hr. unfold update_org_file.
  rewrite (parse_well_formed pre recs Hp Hr).
  apply (inject_records recs pre 0).
Qed.

End InjectWellFormed.

Section InjectWellFormedExamples.
Import OrgParser InjectKnowledge Notions Examples Samples.

Lemma inject_well_formed_witness :
  update_org_file alien_note
    ([ln "Catalogue"] ++ flat_map render [alien_record; ronin_record])
  = Ok ([ln "Catalogue"]
        ++ flat_map render
             (map (injected alien_note) [alien_record; ronin_record]),
        List.length
          (filter (has_additions alien_note) [alien_record; ronin_record])).
Proof.
  apply (inject_well_formed alien_note [ln "Catalogue"]
           [alien_record; ronin_record]).
  - repeat constructor.
  - repeat constructor; simpl; intros [].
Defined.

End InjectWellFormedExamples.


Section UpdateWellFormed.
Import Scorer OrgParser UpdateFromSuggested AnyConfidence Aux Notions.

Variable calculate_confidence :
  str -> str -> str -> option Z -> option str -> pynum.

Variable search : search_fn.

Hypothesis search_ids :
  forall q y c, In c (search q y) -> c_id c <> None.

Lemma in_firstn {A} (n : nat) (l : list A) (x : A) :
  In x (firstn n l) -> In x l.
Proof.
  intros H. rewrite <- (firstn_skipn n l). apply in_or_app. left. exact H.
Qed.

Lemma best_of_in (heading q : str) (y : option Z) (results : list candidate)
    (c : candidate) (conf : pynum) :
  best_of calculate_confidence heading q y results = (Some c, conf) ->
  In c results.
Proof.
  intros E.
  pose proof (best_of_first_above_zero calculate_confidence heading q y
                results) as H.
  rewrite E in H. destruct H as [i [Hi _]].
  apply in_firstn with (n := 5). eapply nth_error_In. exact Hi.
Qed.

Lemma length_dict_set {V} (k : str) (v : V) (d : dict V) :
  dict_mem k d = true -> List.length (dict_set k v d) = List.length d.
Proof.
  unfold dict_mem. induction d as [|[k' v'] d IH]; simpl; [discriminate|].
  destruct (eqb_str k k'); [reflexivity|]. intros H. simpl. f_equal.
  apply IH. exact H.
Qed.

Lemma dict_mem_set {V} (k k' : str) (v : V) (d : dict V) :
  dict_mem k' d = true -> dict_mem k' (dict_set k v d) = true.
Proof.
  unfold dict_mem. intros H. destruct (eqb_str k k') eqn:E.
  - apply eqb_str_eq in E. subst k'. rewrite dict_get_set_same. reflexivity.
  - apply eqb_str_neq in E. rewrite dict_get_set_other by exact E. exact H.
Qed.

(** The work on the entry of a record that is processed. *)
Lemma update_entry_record (st : ustate) (e : entry) (r : record) :
  heading e = title_of r ->
  properties e = r_props r ->
  needs r = true ->
  update_entry calculate_confidence search false st e
  = match match_of calculate_confidence search r with
    | Some _ =>
        bind (replace_block e (build_prop_lines (r_props (rematched calculate_confidence search r)))
                (lines_now st))
          (fun lines' =>
             Ok {| lines_now := lines';
                   updates := S (updates st);
                   calls := calls st ++ [record_query r] |})
    | None =>
        Ok {| lines_now := lines_now st;
              updates := updates st;
              calls := calls st ++ [record_query r] |}
    end.
Proof.
  intros Hh Hp Hn. unfold update_entry, rematched, match_of. rewrite Hn.
  unfold record_query, hint_query. cbn [entry_with properties].
  rewrite Hp, Hh. cbv zeta.
  set (q := match dict_get (lit "SUGGESTED_SEARCH") (r_props r) with
            | Some v => v
            | None => []
            end).
  set (y := year_hint_of (r_props r) q).
  destruct (search q y) as [|r0 rs] eqn:Es.
  { reflexivity. }
  destruct (best_of calculate_confidence (title_of r) q y (r0 :: rs)) as [[c|] conf] eqn:Eb;
    [|reflexivity].
  assert (Hin : In c (search q y)).
  { rewrite Es. apply (best_of_in _ _ _ _ _ _ Eb). }
  destruct (c_id c) as [id|] eqn:Ei.
  - reflexivity.
  - exfalso. exact (search_ids q y c Hin Ei).
Qed.

Lemma rematched_length (r : record) :
  has_match_props r = true ->
  List.length (render (rematched calculate_confidence search r)) = List.length (render r).
Proof.
  intros H. unfold has_match_props in H.
  apply andb_true_iff in H. destruct H as [H H3].
  apply andb_true_iff in H. destruct H as [H1 H2].
  unfold rematched. destruct (match_of calculate_confidence search r) as [[[id t] c]|];
    [|reflexivity].
  unfold render. cbn [r_headline r_props r_body List.length].
  rewrite !length_app, !length_build_prop_lines.
  rewrite !length_dict_set; [reflexivity|exact H1| |].
  - apply dict_mem_set. exact H2.
  - apply dict_mem_set. apply dict_mem_set. exact H3.
Qed.

Lemma rematched_unneeded (r : record) :
  needs r = false -> match_of calculate_confidence search r = None.
Proof. intros H. unfold match_of. rewrite H. reflexivity. Qed.

(** The match of a record is the first result of the highest confidence
    among the first five, and that confidence is above zero. *)
Lemma match_of_first_best (r : record) (id : Z) (t : str) (cf : pynum) :
  match_of calculate_confidence search r = Some (id, t, cf) ->
  let q := fst (record_query r) in
  let y := snd (record_query r) in
  let conf := confidence_of calculate_confidence (title_of r) q y in
  exists i c,
    nth_error (firstn 5 (search q y)) i = Some c
    /\ c_id c = Some id /\ t = get_or_empty (c_title c) /\ cf = conf c
    /\ (0 < num_val cf)%Q
    /\ forall j c',
         nth_error (firstn 5 (search q y)) j = Some c' ->
         (num_val (conf c') <= num_val cf)%Q
         /\ (j < i -> (num_val (conf c') < num_val cf)%Q).
Proof.
  unfold match_of. destruct (needs r); [|discriminate].
  destruct (record_query r) as [q y]. cbn [fst snd].
  pose proof (best_of_first_above_zero calculate_confidence (title_of r) q y
                (search q y)) as H.
  destruct (best_of calculate_confidence (title_of r) q y (search q y))
    as [[c|] best]; [|discriminate].
  destruct (c_id c) as [id0|] eqn:Ei; [|discriminate].
  intros E. injection E as <- <- <-.
  destruct H as [i [Hi [Hb [Hpos Hmax]]]].
  exists i, c. split; [exact Hi|]. split; [exact Ei|].
  split; [reflexivity|]. split; [exact Hb|]. split; [exact Hpos|exact Hmax].
Qed.

(** The loop over the entries of well-formed records that stand behind
    the lines [P]. The indices of the entries count from [off]: the
    length of [P], unless no record is left to process. *)
Lemma update_records (recs : list record) :
  forall (P : list str) (off c : nat) (log : list query),
    off = List.length P \/ Forall (fun r => needs r = false) recs ->
    (forall a r b,
        recs = a ++ r :: b -> needs r = true ->
        has_match_props r = true \/ Forall (fun r' => needs r' = false) b) ->
    update_loop calculate_confidence search false
      {| lines_now := P ++ flat_map render recs; updates := c; calls := log |}
      (filter needs_processing (entries_of off recs))
    = Ok {| lines_now := P ++ flat_map render (map (rematched calculate_confidence search) recs);
            updates := c + List.length (filter (is_rematched calculate_confidence search) recs);
            calls := log ++ map record_query (filter needs recs) |}.
Proof.
  induction recs as [|r recs IH]; intros P off c log Hoff Hsize.
  - cbn [entries_of filter flat_map map update_loop List.length].
    rewrite Nat.add_0_r, !app_nil_r. reflexivity.
  - assert (Hsize' : forall a r' b,
               recs = a ++ r' :: b -> needs r' = true ->
               has_match_props r' = true
               \/ Forall (fun r'' => needs r'' = false) b).
    { intros a r' b E. apply (Hsize (r :: a)). rewrite E. reflexivity. }
    cbn [entries_of filter flat_map map].
    change (needs_processing
              {| line_number := off; heading := title_of r;
                 properties_start := Some (off + 1);
                 properties_end :=
                   Some (off + 2 + List.length (r_props r));
                 properties := r_props r;
                 end_line := Some (off + List.length (render r)) |})
      with (needs r).
    unfold is_rematched at 1.
    assert (Hsame : match_of calculate_confidence search r = None -> rematched calculate_confidence search r = r).
    { unfold rematched. intros ->. reflexivity. }
    destruct (needs r) eqn:Hn.
    + destruct Hoff as [-> | Hall];
        [|inversion Hall; congruence].
      cbn [update_loop].
      rewrite (update_entry_record _ _ r);
        [|reflexivity|reflexivity|exact Hn].
      cbn [lines_now updates calls].
      destruct (match_of calculate_confidence search r) as [m|] eqn:Em.
      * rewrite (replace_record_block P _ _ r); [|reflexivity|reflexivity].
        cbn [bind].
        replace (P ++ (r_headline r
                       :: build_prop_lines (r_props (rematched calculate_confidence search r))
                       ++ r_body r) ++ flat_map render recs)
          with ((P ++ render (rematched calculate_confidence search r)) ++ flat_map render recs).
        2:{ unfold render at 1. unfold rematched at 1 3. rewrite Em.
            destruct m as [[id t] cf]. cbn [r_headline r_body].
            rewrite <- app_assoc. reflexivity. }
        rewrite (IH (P ++ render (rematched calculate_confidence search r)) _ (S c)
                    (log ++ [record_query r])).
        -- f_equal. f_equal.
           ++ rewrite <- app_assoc. reflexivity.
           ++ cbn [List.length]. lia.
           ++ cbn [map]. rewrite <- app_assoc. reflexivity.
        -- destruct (Hsize [] r recs eq_refl Hn) as [H3|Hall].
           ++ left. rewrite length_app, rematched_length by exact H3.
              reflexivity.
           ++ right. exact Hall.
        -- exact Hsize'.
      * cbn [bind].
        replace (P ++ render r ++ flat_map render recs)
          with ((P ++ render r) ++ flat_map render recs)
          by (rewrite <- app_assoc; reflexivity).
        rewrite (IH (P ++ render r) _ c (log ++ [record_query r])).
        -- rewrite (Hsame eq_refl). f_equal. f_equal.
           ++ rewrite <- app_assoc. reflexivity.
           ++ cbn [map]. rewrite <- app_assoc. reflexivity.
        -- left. rewrite length_app. reflexivity.
        -- exact Hsize'.
    + rewrite (rematched_unneeded r Hn).
      replace (P ++ render r ++ flat_map render recs)
        with ((P ++ render r) ++ flat_map render recs)
        by (rewrite <- app_assoc; reflexivity).
      rewrite (IH (P ++ render r) _ c log).
      * rewrite (Hsame (rematched_unneeded r Hn)). f_equal. f_equal.
        rewrite <- app_assoc. reflexivity.
      * destruct Hoff as [-> | Hall].
        -- left. rewrite length_app. reflexivity.
        -- right. inversion Hall. assumption.
      * exact Hsize'.
Qed.

(** X12. Whatever confidences [calculate_confidence] gives (those the
    code computes in floating point are one case): on a file made of
    lines without headline followed by well-formed records, with a lookup
    whose results all carry an identifier, and when every record that is
    processed, but for the last of them, holds the three properties
    TMDB_ID, TMDB_TITLE and TMDB_CONFIDENCE already, [update_org_entries]
    outside a dry run returns the file in which every processed record
    that found a match has its block built again with these three
    properties set to the identifier, the title and the confidence of
    the match, its other properties kept, and in which every other line
    is as it was; it counts these records and logs one lookup for each
    processed record. The match is the first of the highest confidence
    among the first five results, when that confidence is above zero.
    The records are worked from the first to the last with the indices
    found when the file was read, which is why all but the last must
    keep the number of their lines. With [calculate_confidence] of the
    file this is [update_org_entries] of [UpdateFromSuggested]. *)
Theorem update_well_formed (pre : list str) (recs : list record) :
  Forall (fun l => is_headline l = false) pre ->
  Forall well_formed recs ->
  (forall a r b,
      recs = a ++ r :: b -> needs r = true ->
      has_match_props r = true \/ Forall (fun r' => needs r' = false) b) ->
  update_org_entries calculate_confidence search false
    (pre ++ flat_map render recs)
  = Ok {| lines_now :=
            pre ++ flat_map render
                     (map (rematched calculate_confidence search) recs);
          updates :=
            List.length
              (filter (is_rematched calculate_confidence search) recs);
          calls := map record_query (filter needs recs) |}
  /\ (forall r id t cf,
        match_of calculate_confidence search r = Some (id, t, cf) ->
        let q := fst (record_query r) in
        let y := snd (record_query r) in
        let conf := confidence_of calculate_confidence (title_of r) q y in
        exists i c,
          nth_error (firstn 5 (search q y)) i = Some c
          /\ c_id c = Some id /\ t = get_or_empty (c_title c) /\ cf = conf c
          /\ (0 < num_val cf)%Q
          /\ forall j c',
               nth_error (firstn 5 (search q y)) j = Some c' ->
               (num_val (conf c') <= num_val cf)%Q
               /\ (j < i -> (num_val (conf c') < num_val cf)%Q))
  /\ (forall dry_run lines,
        update_org_entries UpdateFromSuggested.calculate_confidence search
          dry_run lines
        = UpdateFromSuggested.update_org_entries search dry_run lines).
Proof.
  intros Hp Hr Hsize.
  split; [|split; [exact match_of_first_best
                  |exact (any_confidence_agrees search)]].
  unfold update_org_entries.
  rewrite (parse_well_formed pre recs Hp Hr).
  apply (update_records recs pre (List.length pre) 0 []);
    [left; reflexivity|exact Hsize].
Qed.

End UpdateWellFormed.

Section UpdateWellFormedExamples.
Import Scorer OrgParser UpdateFromSuggested Notions Examples Samples.

(** Two records are processed, the first of which holds the three
    properties; the lookup returns three results, two of them tied. *)
Lemma update_well_formed_witness :
  AnyConfidence.update_org_entries calculate_confidence tied_results false
    ([ln "Catalogue"]
     ++ flat_map render [flagged_record; heat_record; ronin_record])
  = Ok {| lines_now :=
            [ln "Catalogue"]
            ++ flat_map render
                 (map (rematched calculate_confidence tied_results)
                    [flagged_record; heat_record; ronin_record]);
          updates :=
            List.length
              (filter (is_rematched calculate_confidence tied_results)
                 [flagged_record; heat_record; ronin_record]);
          calls :=
            map record_query
              (filter needs [flagged_record; heat_record; ronin_record]) |}
  /\ (forall r id t cf,
        match_of calculate_confidence tied_results r = Some (id, t, cf) ->
        let q := fst (record_query r) in
        let y := snd (record_query r) in
        let conf := Aux.confidence_of calculate_confidence (title_of r) q y in
        exists i c,
          nth_error (firstn 5 (tied_results q y)) i = Some c
          /\ c_id c = Some id /\ t = get_or_empty (c_title c) /\ cf = conf c
          /\ (0 < num_val cf)%Q
          /\ forall j c',
               nth_error (firstn 5 (tied_results q y)) j = Some c' ->
               (num_val (conf c') <= num_val cf)%Q
               /\ (j < i -> (num_val (conf c') < num_val cf)%Q))
  /\ (forall dry_run lines,
        AnyConfidence.update_org_entries calculate_confidence tied_results
          dry_run lines
        = update_org_entries tied_results dry_run lines).
Proof.
  apply (update_well_formed calculate_confidence tied_results).
  - intros q y c [<-|[<-|[<-|[]]]]; discriminate.
  - repeat constructor.
  - repeat constructor; simpl; intros H;
      repeat (destruct H as [H|H]; [discriminate H|]); destruct H.
  - intros a r b E Hn. destruct a as [|r1 a].
    + injection E as <- <-. left. reflexivity.
    + injection E as <- E. destruct a as [|r2 a].
      * injection E as <- <-. right. repeat constructor.
      * injection E as <- E. destruct a as [|r3 a].
        -- injection E as <- <-. discriminate Hn.
        -- destruct a; discriminate E.
Defined.

End UpdateWellFormedExamples.

(** ** A candidate titled as the query *)

Section ExactTitle.
Import Normalizer Scorer Examples.

Lemma lcs_refl (a : str) : Fuzz.lcs a a = List.length a.
Proof.
  induction a as [|x a IH]; [reflexivity|].
  cbn [Fuzz.lcs]. rewrite eqb_char_refl, IH. reflexivity.
Qed.

Lemma ratio_refl (a : str) : (Fuzz.ratio a a == 100)%Q.
Proof.
  unfold Fuzz.ratio. rewrite lcs_refl.
  destruct (List.length a + List.length a) as [|n] eqn:E; [reflexivity|].
  unfold Qeq. simpl Qnum. simpl Qden. rewrite Zpos_P_of_succ_nat. lia.
Qed.

(** The score of a candidate one of whose titles is the query, letter
    case apart, is 100. *)
Lemma exact_title_score (title : str) (year_hint : option Z) (c : candidate) :
  lower title = lower (get_or_empty (c_title c))
  \/ lower title = lower (get_or_empty (c_original_title c)) ->
  Spec.scorable year_hint (c_release_date c) = true ->
  exists s, score_candidate title year_hint c = Ok s /\ (num_val s == 100)%Q.
Proof.
  intros Ht Hs. unfold score_candidate, calculate_match_score.
  set (base := py_max _ _).
  assert (Hb : (num_val base == 100)%Q).
  { unfold base. rewrite py_max_val. cbn [num_val].
    apply Qle_antisym.
    - apply Q.max_lub; apply ratio_bounds.
    - destruct Ht as [<-|<-].
      + eapply Qle_trans; [|apply Q.le_max_l]. rewrite ratio_refl.
        apply Qle_refl.
      + eapply Qle_trans; [|apply Q.le_max_r]. rewrite ratio_refl.
        apply Qle_refl. }
  destruct (@boost_capped year_hint (c_release_date c) Hs)
    as [bonus [Hpos [[_ H]|H]]].
  - exists base. split; [apply H|exact Hb].
  - destruct (H base) as [s [E V]]. exists s. split; [exact E|].
    rewrite V, Hb. apply Q.min_l.
    rewrite <- (Qplus_0_r 100) at 1. apply Qplus_le_compat;
      [apply Qle_refl|exact Hpos].
Qed.

(** X13. When one of the first ten results of the lookup has the query
    as its title or as its original title, letter case apart, and the
    candidates can be scored, [find_best_match] returns a match of the
    best score 100: its status is HIGH_CONFIDENCE and its review flag is
    not set; the same holds for the copy in [enrich_org_tmdb.py]. *)
Theorem exact_title_is_high (search : search_fn) (parsed : parsed_entry)
    (c : candidate) :
  let title := cleaned_title parsed in
  let hint := year_hint parsed in
  let results := fst (lookup search title hint) in
  In c (firstn 10 results) ->
  lower title = lower (get_or_empty (c_title c))
  \/ lower title = lower (get_or_empty (c_original_title c)) ->
  (forall c', In c' (firstn 10 results) ->
              Spec.scorable hint (c_release_date c') = true) ->
  exists m m',
    MatchMovies.find_best_match search parsed = Ok m
    /\ MatchMovies.match_status m = HIGH_CONFIDENCE
    /\ MatchMovies.needs_review m = false
    /\ (num_val (MatchMovies.confidence m) == 100)%Q
    /\ fst (EnrichOrgTmdb.find_best_match search title hint) = Ok m'
    /\ EnrichOrgTmdb.match_status m' = HIGH_CONFIDENCE
    /\ EnrichOrgTmdb.needs_review m' = false.
Proof.
  intros title hint results Hin Ht Hs.
  assert (Hne : results <> []).
  { intros E. rewrite E in Hin. destruct Hin. }
  destruct (@best_scored_first_max title hint results Hne Hs)
    as [i [b [s [Hn [Hsc [Hb Hmax]]]]]].
  destruct (exact_title_score title hint c Ht (Hs c Hin)) as [sc [Ec Vc]].
  assert (V : (num_val s == 100)%Q).
  { apply Qle_antisym.
    - assert (Hsb : Spec.scorable hint (c_release_date b) = true).
      { apply Hs. eapply nth_error_In. exact Hn. }
      unfold score_candidate, calculate_match_score in Hsc.
      destruct (@boost_capped hint (c_release_date b) Hsb)
        as [bonus [Hpos [[_ H]|H]]].
      + rewrite H in Hsc. injection Hsc as <-. apply base_score_le_100.
      + match type of Hsc with
        | boost ?base _ _ = _ => destruct (H base) as [s' [E' V']]
        end.
        rewrite E' in Hsc. injection Hsc as <-. rewrite V'.
        apply Q.le_min_l.
    - apply In_nth_error in Hin. destruct Hin as [j Hj].
      rewrite <- Vc. exact (proj1 (Hmax j c sc Hj Ec)). }
  assert (Hhigh : Qle_bool HIGH_CONFIDENCE_THRESHOLD (num_val s) = true).
  { apply Qle_bool_iff. rewrite V. discriminate. }
  assert (Hrev : Qlt_bool (num_val s) HIGH_CONFIDENCE_THRESHOLD = false).
  { unfold Qlt_bool. rewrite Hhigh. reflexivity. }
  unfold MatchMovies.find_best_match, EnrichOrgTmdb.find_best_match.
  cbv zeta. fold title. fold hint.
  unfold results in Hb, Hne.
  destruct (lookup search title hint) as [rs log]. cbn [fst] in *.
  destruct rs as [|r0 rs']; [congruence|].
  rewrite Hb. cbn [bind]. do 2 eexists.
  split; [reflexivity|].
  cbn [MatchMovies.match_status MatchMovies.needs_review
       MatchMovies.confidence EnrichOrgTmdb.match_status
       EnrichOrgTmdb.needs_review fst].
  unfold classify. rewrite Hhigh, Hrev.
  split; [reflexivity|]. split; [reflexivity|]. split.
  - destruct s as [z|q]; cbn [round2 num_val] in *; [exact V|].
    unfold hundredths_of.
    assert (Eh : (q * 100 == 10000)%Q) by (rewrite V; reflexivity).
    assert (Ef : Qfloor (q * 100) = 10000%Z).
    { rewrite Eh. reflexivity. }
    rewrite Ef.
    assert (Ed : Qlt_bool (q * 100 - inject_Z 10000) (1 # 2) = true).
    { apply Qlt_bool_iff. rewrite Eh. reflexivity. }
    rewrite Ed. reflexivity.
  - split; [reflexivity|]. split; reflexivity.
Qed.

End ExactTitle.

Section ExactTitleExamples.
Import Normalizer Scorer Examples.

Lemma exact_title_is_high_witness :
  exists m m',
    MatchMovies.find_best_match stub heat_entry = Ok m
    /\ MatchMovies.match_status m = HIGH_CONFIDENCE
    /\ MatchMovies.needs_review m = false
    /\ (num_val (MatchMovies.confidence m) == 100)%Q
    /\ fst (EnrichOrgTmdb.find_best_match stub (cleaned_title heat_entry)
              (year_hint heat_entry)) = Ok m'
    /\ EnrichOrgTmdb.match_status m' = HIGH_CONFIDENCE
    /\ EnrichOrgTmdb.needs_review m' = false.
Proof.
  apply (exact_title_is_high stub heat_entry heat).
  - left. reflexivity.
  - left. reflexivity.
  - intros c' [<-|[]]. reflexivity.
Defined.

End ExactTitleExamples.

(** ** The cleaned title *)

Section CleanTitle.
Import Normalizer Notions.

Lemma lstrip_suffix (s : str) : exists w, s = w ++ lstrip s.
Proof.
  induction s as [|c s [w IH]]; [exists []; reflexivity|].
  simpl. destruct (isspace c).
  - exists (c :: w). simpl. f_equal. exact IH.
  - exists []. reflexivity.
Qed.

Lemma rstrip_prefix (s : str) : exists w, s = rstrip s ++ w.
Proof.
  destruct (lstrip_suffix (rev s)) as [w H]. exists (rev w).
  unfold rstrip. rewrite <- rev_app_distr, <- H, rev_involutive. reflexivity.
Qed.

Lemma lstrip_head (s : str) :
  match lstrip s with c :: _ => isspace c = false | [] => True end.
Proof.
  induction s as [|c s IH]; [exact I|]. simpl.
  destruct (isspace c) eqn:E; [exact IH|exact E].
Qed.

Lemma strip_no_edge_space (s : str) : Spec.no_edge_space (strip s) = true.
Proof.
  unfold Spec.no_edge_space, strip. apply andb_true_iff. split.
  - generalize (lstrip_head s).
    destruct (lstrip s) as [|c u]; intros H; [reflexivity|].
    rewrite rstrip_cons by exact H. rewrite H. reflexivity.
  - unfold rstrip. rewrite rev_involutive.
    generalize (lstrip_head (rev (lstrip s))).
    destruct (lstrip (rev (lstrip s))) as [|c u]; intros H; [reflexivity|].
    rewrite H. reflexivity.
Qed.

Lemma in_strip (s : str) (x : ascii) : In x (strip s) -> In x s.
Proof.
  intros H. unfold strip in H.
  destruct (rstrip_prefix (lstrip s)) as [w Hw].
  destruct (lstrip_suffix s) as [v Hv].
  rewrite Hv. apply in_or_app. right. rewrite Hw. apply in_or_app.
  left. exact H.
Qed.

Lemma single_spaced_tail (c : ascii) (s : str) :
  single_spaced (c :: s) = true -> single_spaced s = true.
Proof.
  cbn [single_spaced]. intros H. apply andb_true_iff in H. apply H.
Qed.

Lemma single_spaced_suffix (w s : str) :
  single_spaced (w ++ s) = true -> single_spaced s = true.
Proof.
  induction w as [|c w IH]; [auto|]. intros H. apply IH.
  apply (single_spaced_tail c). exact H.
Qed.

Lemma single_spaced_prefix (s w : str) :
  single_spaced (s ++ w) = true -> single_spaced s = true.
Proof.
  induction s as [|c s IH]; [reflexivity|].
  cbn [app single_spaced]. intros H.
  apply andb_true_iff in H. destruct H as [H H3].
  apply andb_true_iff in H. destruct H as [H1 H2].
  rewrite H1, (IH H3), andb_true_r. cbn [andb].
  destruct s as [|b s]; [reflexivity|exact H2].
Qed.

Lemma single_spaced_strip (s : str) :
  single_spaced s = true -> single_spaced (strip s) = true.
Proof.
  intros H. unfold strip.
  destruct (rstrip_prefix (lstrip s)) as [w Hw].
  destruct (lstrip_suffix s) as [v Hv].
  apply (single_spaced_prefix _ w). rewrite <- Hw.
  apply (single_spaced_suffix v). rewrite <- Hv. exact H.
Qed.

(** What the replacement of whitespace gives: single spaces, and after a
    run that was replaced already no space at the head. *)
Lemma sub_spaces_go_spaced (s : str) :
  forall in_ws,
    single_spaced (sub_spaces_go in_ws s) = true
    /\ (in_ws = true ->
        match sub_spaces_go in_ws s with
        | c :: _ => isspace c = false
        | [] => True
        end).
Proof.
  induction s as [|c s IH]; intros in_ws;
    [split; [reflexivity|intros _; exact I]|].
  cbn [sub_spaces_go]. destruct (isspace c) eqn:Ec.
  - destruct in_ws.
    + apply IH.
    + split; [|discriminate]. destruct (IH true) as [H1 H2].
      cbn [single_spaced]. rewrite H1, andb_true_r.
      specialize (H2 eq_refl). revert H2.
      destruct (sub_spaces_go true s) as [|b r]; intros H2; [reflexivity|].
      rewrite H2. reflexivity.
  - destruct (IH false) as [H1 _]. split; [|intros _; exact Ec].
    cbn [single_spaced]. rewrite Ec, H1. cbn.
    destruct (sub_spaces_go false s); reflexivity.
Qed.

Lemma in_sub_spaces_go (s : str) (x : ascii) :
  forall in_ws, In x (sub_spaces_go in_ws s) -> x = " "%char \/ In x s.
Proof.
  induction s as [|c s IH]; intros in_ws H; [destruct H|].
  cbn [sub_spaces_go] in H. destruct (isspace c).
  - destruct in_ws.
    + destruct (IH _ H) as [E|E]; [left; exact E|right; right; exact E].
    + destruct H as [<-|H]; [left; reflexivity|].
      destruct (IH _ H) as [E|E]; [left; exact E|right; right; exact E].
  - destruct H as [<-|H]; [right; left; reflexivity|].
    destruct (IH _ H) as [E|E]; [left; exact E|right; right; exact E].
Qed.

Lemma in_lstrip (s : str) (x : ascii) : In x (lstrip s) -> In x s.
Proof.
  intros H. destruct (lstrip_suffix s) as [w Hw]. rewrite Hw.
  apply in_or_app. right. exact H.
Qed.

Lemma in_sub_trailing (s : str) (x : ascii) : In x (sub_trailing s) -> In x s.
Proof.
  unfold sub_trailing. intros H.
  destruct (lstrip (rev s)) as [|c r] eqn:E; [exact H|].
  destruct (eqb_char c "_"%char || eqb_char c "/"%char); [|exact H].
  apply in_rev in H. apply in_rev. apply in_lstrip. rewrite E.
  right. exact H.
Qed.

(** X14. The cleaned title [parse_org_entry] and [parse_org_title] make
    of any title is tidy: it holds neither of the two characters of the
    class the scripts remove, the acute accent and the apostrophe (the
    double quote is not in that class), its whitespace is single spaces,
    none next to another, and it neither starts nor ends with
    whitespace. *)
Theorem clean_title_tidy (full_title : str) :
  Forall (fun c => c <> acute /\ c <> apostrophe) (clean_title full_title)
  /\ single_spaced (clean_title full_title) = true
  /\ Spec.no_edge_space (clean_title full_title) = true.
Proof.
  unfold clean_title. split; [|split].
  - apply Forall_forall. intros x H. apply in_strip in H.
    apply in_sub_spaces_go in H.
    destruct H as [->|H]; [split; discriminate|].
    apply in_sub_trailing in H. unfold sub_quotes in H.
    apply filter_In in H. destruct H as [_ H]. apply negb_true_iff in H.
    unfold isquote in H. apply orb_false_iff in H. destruct H as [H1 H2].
    split; intros ->; rewrite eqb_char_refl in *; discriminate.
  - apply single_spaced_strip. apply sub_spaces_go_spaced.
  - apply strip_no_edge_space.
Qed.

End CleanTitle.

Section CleanTitleGroups.
Import Normalizer Notions.

Lemma parens_app (a b : str) : parens (a ++ b) = parens a ++ parens b.
Proof. apply filter_app. Qed.

Lemma parens_rev (s : str) : parens (rev s) = rev (parens s).
Proof.
  induction s as [|c s IH]; [reflexivity|].
  cbn [rev]. rewrite parens_app, IH. unfold parens at 2 3. cbn [filter].
  destruct (eqb_char c "("%char || eqb_char c ")"%char); cbn [rev app];
    [reflexivity|apply app_nil_r].
Qed.

Lemma space_no_paren (c : ascii) :
  isspace c = true -> eqb_char c "("%char || eqb_char c ")"%char = false.
Proof.
  destruct c as [[] [] [] [] [] [] [] []]; intros H;
    solve [discriminate H | reflexivity].
Qed.

Lemma parens_lstrip (s : str) : parens (lstrip s) = parens s.
Proof.
  induction s as [|c s IH]; [reflexivity|]. cbn [lstrip].
  destruct (isspace c) eqn:E; [|reflexivity].
  rewrite IH. unfold parens. cbn [filter]. rewrite (space_no_paren c E).
  reflexivity.
Qed.

Lemma parens_strip (s : str) : parens (strip s) = parens s.
Proof.
  unfold strip, rstrip.
  rewrite parens_rev, parens_lstrip, parens_rev, rev_involutive.
  apply parens_lstrip.
Qed.

Lemma parens_sub_quotes (s : str) : parens (sub_quotes s) = parens s.
Proof.
  induction s as [|c s IH]; [reflexivity|].
  unfold sub_quotes, parens in *. cbn [filter].
  destruct (isquote c) eqn:Eq; cbn [negb filter].
  - assert (E : eqb_char c "("%char || eqb_char c ")"%char = false).
    { unfold isquote in Eq. apply orb_true_iff in Eq.
      destruct Eq as [Eq|Eq]; apply eqb_char_eq in Eq; subst c; reflexivity. }
    rewrite E. exact IH.
  - destruct (eqb_char c "("%char || eqb_char c ")"%char);
      [f_equal|]; exact IH.
Qed.

Lemma parens_sub_trailing (s : str) : parens (sub_trailing s) = parens s.
Proof.
  unfold sub_trailing.
  destruct (lstrip (rev s)) as [|c r] eqn:E; [reflexivity|].
  destruct (eqb_char c "_"%char || eqb_char c "/"%char) eqn:Ec;
    [|reflexivity].
  assert (H : parens (c :: r) = rev (parens s)).
  { rewrite <- E, parens_lstrip. apply parens_rev. }
  assert (Hc : eqb_char c "("%char || eqb_char c ")"%char = false).
  { apply orb_true_iff in Ec.
    destruct Ec as [Ec|Ec]; apply eqb_char_eq in Ec; subst c; reflexivity. }
  unfold parens in H at 1. cbn [filter] in H. rewrite Hc in H.
  rewrite parens_rev. unfold parens at 1. rewrite H. apply rev_involutive.
Qed.

Lemma parens_sub_spaces_go (s : str) :
  forall in_ws, parens (sub_spaces_go in_ws s) = parens s.
Proof.
  induction s as [|c s IH]; intros in_ws; [reflexivity|].
  cbn [sub_spaces_go]. destruct (isspace c) eqn:E.
  - assert (Hc : parens (c :: s) = parens s).
    { unfold parens. cbn [filter]. rewrite (space_no_paren c E).
      reflexivity. }
    rewrite Hc. destruct in_ws; [apply IH|].
    unfold parens. cbn [filter]. cbn. apply (IH true).
  - unfold parens. cbn [filter].
    destruct (eqb_char c "("%char || eqb_char c ")"%char);
      [f_equal|]; apply (IH false).
Qed.

Lemma contains_parens (s : str) :
  contains ")"%char (parens s) = contains ")"%char s.
Proof.
  induction s as [|c s IH]; [reflexivity|].
  unfold parens, contains in *. cbn [filter existsb].
  destruct (eqb_char c "("%char) eqn:E1; cbn [orb].
  - cbn [existsb]. rewrite IH. reflexivity.
  - destruct (eqb_char c ")"%char) eqn:E2; cbn [existsb]; rewrite IH.
    + reflexivity.
    + assert (E3 : eqb_char ")"%char c = false).
      { destruct (eqb_char ")"%char c) eqn:E3; [|reflexivity].
        apply eqb_char_eq in E3. subst c. discriminate E2. }
      rewrite E3. reflexivity.
Qed.

(** Whether a text has a group shows in its parentheses alone. *)
Lemma no_group_parens (s : str) : no_group (parens s) = no_group s.
Proof.
  induction s as [|c s IH]; [reflexivity|].
  cbn [no_group]. unfold parens. cbn [filter].
  destruct (eqb_char c "("%char) eqn:E1; cbn [orb].
  - cbn [no_group]. rewrite E1. fold (parens s). rewrite contains_parens.
    reflexivity.
  - destruct (eqb_char c ")"%char) eqn:E2.
    + cbn [no_group]. rewrite E1. exact IH.
    + exact IH.
Qed.

Lemma no_closing_no_group (s : str) :
  contains ")"%char s = false -> no_group s = true.
Proof.
  induction s as [|c s IH]; [reflexivity|].
  unfold contains in *. cbn [existsb no_group]. intros H.
  apply orb_false_iff in H. destruct H as [_ H].
  destruct (eqb_char c "("%char); [|apply IH; exact H].
  unfold contains. rewrite H. reflexivity.
Qed.

Lemma existsb_reverse {A} (f : A -> bool) (l : list A) :
  existsb f (rev l) = existsb f l.
Proof.
  induction l as [|x l IH]; [reflexivity|].
  cbn [rev existsb]. rewrite existsb_app, IH. cbn [existsb].
  rewrite orb_false_r. apply orb_comm.
Qed.

(** What the removal of the groups gives has no group, also when it
    starts inside an opening parenthesis that is not closed yet. *)
Lemma sub_parens_go_no_group (s : str) :
  no_group (sub_parens_go None s) = true
  /\ forall b,
       contains ")"%char b = false ->
       no_group (sub_parens_go (Some b) s) = true.
Proof.
  induction s as [|c s [IH1 IH2]].
  - split; [reflexivity|]. intros b Hb. cbn [sub_parens_go].
    apply no_closing_no_group. unfold contains in *.
    rewrite existsb_reverse. exact Hb.
  - split.
    + cbn [sub_parens_go]. destruct (eqb_char c "("%char) eqn:E.
      * apply IH2. apply eqb_char_eq in E. subst c. reflexivity.
      * cbn [no_group]. rewrite E. exact IH1.
    + intros b Hb. cbn [sub_parens_go].
      destruct (eqb_char c ")"%char) eqn:E; [exact IH1|].
      apply IH2. unfold contains in *. cbn [existsb]. rewrite Hb.
      destruct (eqb_char ")"%char c) eqn:E'; [|reflexivity].
      apply eqb_char_eq in E'. subst c. discriminate E.
Qed.

(** X15. The cleaned title of any title holds no parenthesised group:
    once the groups are taken out, no opening parenthesis that is left
    has a closing parenthesis after it, and the later steps bring none
    back. *)
Theorem clean_title_no_group (full_title : str) :
  no_group (clean_title full_title) = true
  /\ no_group (sub_parens full_title) = true
  /\ parens (clean_title full_title) = parens (sub_parens full_title).
Proof.
  assert (E : parens (clean_title full_title) = parens (sub_parens full_title)).
  { unfold clean_title. rewrite parens_strip. unfold sub_spaces.
    rewrite parens_sub_spaces_go, parens_sub_trailing, parens_sub_quotes.
    apply parens_strip. }
  assert (G : no_group (sub_parens full_title) = true).
  { apply sub_parens_go_no_group. }
  split; [|split; [exact G|exact E]].
  rewrite <- no_group_parens, E, no_group_parens. exact G.
Qed.

End CleanTitleGroups.

(** ** Lines written and read again *)

Section TextFacts.
Import TextIO Notions.

Lemma readlines_go_body (body : str) :
  forallb inline body = true ->
  forall cur rest,
    readlines_go cur (body ++ nl :: rest)
    = rev (nl :: rev body ++ cur) :: readlines_go [] rest.
Proof.
  induction body as [|c body IH]; intros H cur rest.
  - reflexivity.
  - cbn [forallb] in H. apply andb_true_iff in H. destruct H as [Hc H].
    unfold inline in Hc. apply andb_true_iff in Hc. destruct Hc as [H1 H2].
    apply negb_true_iff in H1, H2.
    cbn [app readlines_go]. rewrite H1, H2, (IH H).
    cbn [rev]. rewrite <- !app_assoc. reflexivity.
Qed.

Lemma forallb_reverse {A} (f : A -> bool) (l : list A) :
  forallb f (rev l) = forallb f l.
Proof.
  induction l as [|x l IH]; [reflexivity|].
  cbn [rev forallb]. rewrite forallb_app, IH. cbn [forallb].
  rewrite andb_true_r. apply andb_comm.
Qed.

Lemma proper_line_inv (l : str) :
  proper_line l = true ->
  exists body, l = body ++ [nl] /\ forallb inline body = true.
Proof.
  unfold proper_line. destruct (rev l) as [|c r] eqn:E; [discriminate|].
  intros H. apply andb_true_iff in H. destruct H as [Hc Hr].
  apply eqb_char_eq in Hc. subst c. exists (rev r). split.
  - rewrite <- (rev_involutive l), E. reflexivity.
  - rewrite forallb_reverse. exact Hr.
Qed.

Lemma proper_line_snoc (body : str) :
  forallb inline body = true -> proper_line (body ++ [nl]) = true.
Proof.
  intros H. unfold proper_line. rewrite rev_app_distr. cbn [rev app].
  rewrite eqb_char_refl, forallb_reverse. exact H.
Qed.

(** Lines that are each one line are read back as they were written. *)
Lemma readlines_writelines (ls : list str) :
  Forall (fun l => proper_line l = true) ls ->
  readlines (writelines ls) = ls.
Proof.
  intros H. induction H as [|l ls Hl H IH]; [reflexivity|].
  destruct (proper_line_inv l Hl) as [body [-> Hb]].
  unfold readlines, writelines in *. cbn [List.concat].
  rewrite <- app_assoc. cbn [app].
  rewrite (readlines_go_body body Hb). rewrite IH.
  cbn [rev]. rewrite app_nil_r, rev_involutive. reflexivity.
Qed.

Lemma solid_inline (s : str) : solid s = true -> forallb inline s = true.
Proof.
  unfold solid. intros H. apply forallb_forall. intros c Hc.
  rewrite forallb_forall in H. specialize (H c Hc).
  destruct c as [[] [] [] [] [] [] [] []];
    solve [discriminate H | reflexivity].
Qed.

Lemma solid_no_edge_space (s : str) :
  solid s = true -> Spec.no_edge_space s = true.
Proof.
  unfold solid, Spec.no_edge_space. intros H. apply andb_true_iff. split.
  - destruct s as [|c s]; [reflexivity|]. cbn [forallb] in H.
    apply andb_true_iff in H. apply H.
  - rewrite <- forallb_reverse in H. destruct (rev s) as [|c r];
      [reflexivity|]. cbn [forallb] in H.
    apply andb_true_iff in H. apply H.
Qed.

Lemma solid_uint (d : Decimal.uint) :
  solid (list_ascii_of_string (DecimalString.NilEmpty.string_of_uint d)) = true.
Proof. induction d; cbn; try reflexivity; exact IHd. Qed.

Lemma solid_str_of_Z (z : Z) : solid (str_of_Z z) = true.
Proof.
  unfold str_of_Z, DecimalString.NilZero.string_of_int.
  destruct (Z.to_int z) as [d|d];
    unfold DecimalString.NilZero.string_of_uint.
  - destruct d; try apply solid_uint. reflexivity.
  - cbn [list_ascii_of_string solid forallb].
    destruct d; try apply solid_uint. reflexivity.
Qed.

Lemma solid_digit_char (d : Z) :
  (0 <= d <= 9)%Z -> negb (isspace (digit_char d)) = true.
Proof.
  intros H.
  assert (E : d = 0%Z \/ d = 1%Z \/ d = 2%Z \/ d = 3%Z \/ d = 4%Z
              \/ d = 5%Z \/ d = 6%Z \/ d = 7%Z \/ d = 8%Z \/ d = 9%Z) by lia.
  repeat (destruct E as [->|E]; [reflexivity|]). subst d. reflexivity.
Qed.

Lemma solid_str_of_num (x : pynum) : solid (str_of_num x) = true.
Proof.
  destruct x as [z|q]; [apply solid_str_of_Z|].
  unfold str_of_num, solid. rewrite !forallb_app.
  fold (solid (str_of_Z (Qfloor (q * 100) / 100))).
  rewrite solid_str_of_Z. cbn [forallb andb].
  rewrite solid_digit_char.
  2:{ pose proof (Z.mod_pos_bound (Qfloor (q * 100)) 100 eq_refl) as B.
      split; [apply Z.div_pos; lia|].
      assert (Qfloor (q * 100) mod 100 / 10 < 10)%Z; [|lia].
      apply Z.div_lt_upper_bound; lia. }
  destruct (Qfloor (q * 100) mod 10 =? 0)%Z; [reflexivity|].
  cbn [forallb]. rewrite solid_digit_char; [reflexivity|].
  pose proof (Z.mod_pos_bound (Qfloor (q * 100)) 10 eq_refl). lia.
Qed.

End TextFacts.

(** ** A second run over the file a run has written *)

Section WhileFacts.

Context {A : Type}.
Variable f : A -> bool.

Lemma forallb_take_while (l : list A) : forallb f (take_while f l) = true.
Proof.
  induction l as [|x l IH]; [reflexivity|]. cbn [take_while].
  destruct (f x) eqn:E; [|reflexivity]. cbn [forallb]. rewrite E. exact IH.
Qed.

Lemma hd_drop_while (l : list A) :
  match hd_error (drop_while f l) with
  | Some x => f x = false
  | None => True
  end.
Proof.
  induction l as [|x l IH]; [exact I|]. cbn [drop_while].
  destruct (f x) eqn:E; [exact IH|exact E].
Qed.

Lemma take_while_app_all (a l : list A) :
  forallb f a = true -> take_while f (a ++ l) = a ++ take_while f l.
Proof.
  induction a as [|x a IH]; intros H; [reflexivity|].
  cbn [forallb] in H. apply andb_true_iff in H. destruct H as [Hx H].
  cbn [app take_while]. rewrite Hx, (IH H). reflexivity.
Qed.

Lemma drop_while_app_all (a l : list A) :
  forallb f a = true -> drop_while f (a ++ l) = drop_while f l.
Proof.
  induction a as [|x a IH]; intros H; [reflexivity|].
  cbn [forallb] in H. apply andb_true_iff in H. destruct H as [Hx H].
  cbn [app drop_while]. rewrite Hx. exact (IH H).
Qed.

(** A run of [f] ends where the next element fails [f], or at the end. *)
Lemma while_app_stop (a w : list A) :
  forallb f a = true ->
  match hd_error w with Some x => f x = false | None => True end ->
  take_while f (a ++ w) = a /\ drop_while f (a ++ w) = w.
Proof.
  intros Ha Hw. rewrite take_while_app_all, drop_while_app_all by exact Ha.
  destruct w as [|x w]; cbn [hd_error] in Hw.
  - rewrite app_nil_r. split; reflexivity.
  - cbn [take_while drop_while]. rewrite Hw, app_nil_r. split; reflexivity.
Qed.

Lemma incl_take_while (l : list A) : incl (take_while f l) l.
Proof.
  intros x H. rewrite <- (take_drop_while f l). apply in_or_app. left.
  exact H.
Qed.

Lemma incl_drop_while (l : list A) : incl (drop_while f l) l.
Proof.
  intros x H. rewrite <- (take_drop_while f l). apply in_or_app. right.
  exact H.
Qed.

Lemma incl_firstn (n : nat) (l : list A) : incl (firstn n l) l.
Proof.
  intros x H. rewrite <- (firstn_skipn n l). apply in_or_app. left. exact H.
Qed.

Lemma incl_skipn (n : nat) (l : list A) : incl (skipn n l) l.
Proof.
  intros x H. rewrite <- (firstn_skipn n l). apply in_or_app. right. exact H.
Qed.

Lemma forallb_incl (a l : list A) :
  incl a l -> forallb f l = true -> forallb f a = true.
Proof.
  intros Hi H. apply forallb_forall. intros x Hx.
  rewrite forallb_forall in H. apply H, Hi, Hx.
Qed.

End WhileFacts.

Section RerunLines.
Import Normalizer Scorer EnrichOrgTmdb Aux TextIO Notions.

Lemma end_not_heading (l : str) : is_end l = true -> not_heading l = true.
Proof.
  unfold is_end, not_heading, is_heading. intros H.
  apply eqb_str_eq in H. rewrite H. reflexivity.
Qed.

Lemma properties_not_heading (l : str) :
  is_properties l = true -> not_heading l = true.
Proof.
  unfold is_properties, not_heading, is_heading. intros H.
  apply eqb_str_eq in H. rewrite H. reflexivity.
Qed.

Lemma heading_not_properties (l : str) :
  not_heading l = false -> is_properties l = false.
Proof.
  intros H. destruct (is_properties l) eqn:E; [|reflexivity].
  apply properties_not_heading in E. congruence.
Qed.

Lemma blocks_closed_app (a b : list str) :
  blocks_closed (a ++ b) = true -> blocks_closed b = true.
Proof.
  induction a as [|x a IH]; intros H; [exact H|].
  cbn [app blocks_closed] in H. apply andb_true_iff in H. apply IH, H.
Qed.

Lemma solid_lstrip (x : str) : solid x = true -> lstrip x = x.
Proof.
  destruct x as [|c x]; [reflexivity|]. unfold solid. cbn [forallb lstrip].
  intros H. apply andb_true_iff in H. destruct H as [H _].
  apply negb_true_iff in H. rewrite H. reflexivity.
Qed.

Lemma solid_no_newline (x : str) : solid x = true -> has_newline x = false.
Proof.
  unfold solid, has_newline, contains.
  induction x as [|c x IH]; [reflexivity|]. cbn [forallb existsb].
  intros H. apply andb_true_iff in H. destruct H as [Hc H].
  rewrite (IH H), orb_false_r.
  destruct (eqb_char nl c) eqn:E; [|reflexivity].
  apply eqb_char_eq in E. subst c. discriminate Hc.
Qed.

(** The value of a line that ends with a text without whitespace and a
    newline. *)
Lemma rstrip_value (x : str) :
  solid x = true -> lstrip (rstrip (" "%char :: x ++ [nl])) = x.
Proof.
  intros H.
  change (" "%char :: x ++ [nl]) with ((" "%char :: x) ++ [nl]).
  rewrite rstrip_snoc_space by reflexivity.
  destruct x as [|c x] using rev_ind; [reflexivity|].
  change (" "%char :: x ++ [c]) with ((" "%char :: x) ++ [c]).
  rewrite rstrip_snoc_nonspace.
  - cbn [app lstrip]. change (isspace " "%char) with true. cbv iota.
    apply solid_lstrip. exact H.
  - unfold solid in H. rewrite forallb_app in H.
    apply andb_true_iff in H. destruct H as [_ H]. cbn [forallb] in H.
    rewrite andb_true_r in H. apply negb_true_iff in H. exact H.
Qed.

Lemma id_line_strip (x : str) :
  strip (lit ":TMDB_ID: " ++ x ++ [nl])
  = lit ":TMDB_ID:" ++ rstrip (" "%char :: x ++ [nl]).
Proof.
  cbn [lit list_ascii_of_string app].
  rewrite strip_cons2 by reflexivity.
  rewrite !rstrip_cons by reflexivity. reflexivity.
Qed.

Lemma prop_match_id (x : str) :
  solid x = true ->
  prop_match (lit ":TMDB_ID: " ++ x ++ [nl]) = Some (lit "TMDB_ID", x).
Proof.
  intros H. unfold prop_match. rewrite id_line_strip.
  remember (rstrip (" "%char :: x ++ [nl])) as R eqn:ER.
  cbv -[lstrip has_newline strip]. subst R.
  rewrite (rstrip_value x H), (solid_no_newline x H). cbv iota.
  f_equal. f_equal. unfold strip. rewrite (solid_lstrip x H).
  destruct x as [|c x] using rev_ind; [reflexivity|].
  apply rstrip_snoc_nonspace.
  unfold solid in H. rewrite forallb_app in H.
  apply andb_true_iff in H. destruct H as [_ H]. cbn [forallb] in H.
  rewrite andb_true_r in H. apply negb_true_iff in H. exact H.
Qed.

Lemma id_line_not_end (x : str) :
  not_end (lit ":TMDB_ID: " ++ x ++ [nl]) = true.
Proof. unfold not_end, is_end. rewrite id_line_strip. reflexivity. Qed.

End RerunLines.

Section RerunMatches.
Import Normalizer Scorer EnrichOrgTmdb Aux TextIO Notions.

Lemma score_all_in (title : str) (year_hint : option Z) (rs : list candidate) :
  forall scored,
    score_all title year_hint rs = Ok scored ->
    forall sc, In sc scored -> In (snd sc) rs.
Proof.
  induction rs as [|r rs IH]; intros scored H sc Hin.
  - injection H as <-. destruct Hin.
  - cbn [score_all] in H.
    destruct (score_candidate title year_hint r) as [s|e]; [|discriminate].
    destruct (score_all title year_hint rs) as [rest|e]; [|discriminate].
    cbn [bind] in H. injection H as <-. destruct Hin as [<-|Hin].
    + left. reflexivity.
    + right. exact (IH rest eq_refl sc Hin).
Qed.

(** The best entry is one of the results. *)
Lemma best_scored_in (title : str) (year_hint : option Z)
    (rs : list candidate) (s : pynum) (c : candidate) :
  best_scored title year_hint rs = Ok (Some (s, c)) -> In c rs.
Proof.
  unfold best_scored. intros H.
  destruct (score_all title year_hint (firstn 10 rs)) as [scored|e] eqn:E;
    [|discriminate].
  cbn [bind] in H. injection H as H.
  destruct scored as [|x scored]; [discriminate|].
  destruct (@sort_desc_head (x :: scored)) as [i [b [Hn [Hh _]]]];
    [discriminate|].
  rewrite Hh in H. injection H as ->.
  apply nth_error_In in Hn.
  apply (incl_firstn 10 rs).
  exact (score_all_in title year_hint (firstn 10 rs) (x :: scored) E (s, c) Hn).
Qed.

Lemma tmdb_lines_not_heading (m : match_info) :
  forallb not_heading (tmdb_lines m) = true.
Proof.
  unfold tmdb_lines. rewrite forallb_app. apply andb_true_iff. split.
  - destruct (found m); [|reflexivity].
    cbn [forallb]. unfold not_heading, is_heading.
    cbn [lit list_ascii_of_string app].
    rewrite !strip_cons2 by reflexivity. reflexivity.
  - destruct (needs_review m); reflexivity.
Qed.

Lemma tmdb_lines_proper (m : match_info) :
  forallb inline (fmt_opt (tmdb_title m)) = true ->
  Forall (fun l => proper_line l = true) (tmdb_lines m).
Proof.
  intros Ht. unfold tmdb_lines. apply Forall_app. split.
  - destruct (found m); [|constructor].
    repeat constructor; rewrite app_assoc; apply proper_line_snoc;
      rewrite forallb_app; apply andb_true_iff; (split; [reflexivity|]).
    + apply solid_inline. destruct (tmdb_id m) as [z|]; [|reflexivity].
      apply solid_str_of_Z.
    + exact Ht.
    + apply solid_inline, solid_str_of_num.
  - destruct (needs_review m); repeat constructor.
Qed.

(** The lines written for a match with an identifier start with the line
    of the identifier. *)
Lemma tmdb_lines_found (m : match_info) :
  found m = true ->
  exists x others,
    solid x = true
    /\ tmdb_lines m = (lit ":TMDB_ID: " ++ x ++ [nl]) :: others.
Proof.
  intros H. unfold tmdb_lines. rewrite H.
  exists (fmt_opt (option_map str_of_Z (tmdb_id m))). eexists.
  split; [|reflexivity].
  destruct (tmdb_id m) as [z|]; [apply solid_str_of_Z|reflexivity].
Qed.

Lemma fold_properties_keep (k : str) (ls : list str) :
  forall d,
    dict_mem k d = true ->
    dict_mem k
      (fold_left
         (fun properties line =>
            match prop_match line with
            | Some (key, value) => dict_set key value properties
            | None => properties
            end) ls d) = true.
Proof.
  induction ls as [|l ls IH]; intros d H; [exact H|].
  cbn [fold_left]. apply IH.
  destruct (prop_match l) as [[key value]|]; [|exact H].
  apply dict_mem_set. exact H.
Qed.

(** A block that holds a line of the identifier before its [:END:] line
    is read as having one. *)
Lemma read_properties_with_id (pre : list str) (x : str) (post : list str) :
  forallb not_end pre = true -> solid x = true ->
  dict_mem (lit "TMDB_ID")
    (read_properties (pre ++ (lit ":TMDB_ID: " ++ x ++ [nl]) :: post)) = true.
Proof.
  intros Hpre Hx. unfold read_properties.
  rewrite take_while_app_all by exact Hpre.
  cbn [take_while]. rewrite id_line_not_end.
  rewrite fold_left_app. cbn [fold_left]. rewrite (prop_match_id x Hx).
  apply fold_properties_keep. unfold dict_mem.
  rewrite dict_get_set_same. reflexivity.
Qed.

(** The block read behind the lines of a record is the block of the
    file, whatever follows the record. *)
Lemma same_block (tl W : list str) :
  forallb not_heading (take_while not_end tl) = true ->
  hd_error W = hd_error (drop_while not_heading tl) ->
  take_while not_end (take_while not_heading tl ++ W) = take_while not_end tl.
Proof.
  induction tl as [|x tl IH]; intros Hb Hw.
  - destruct W; [reflexivity|discriminate].
  - cbn [take_while drop_while] in *. destruct (not_end x) eqn:Ee.
    + cbn [forallb] in Hb. apply andb_true_iff in Hb. destruct Hb as [Hx Hb].
      rewrite Hx in *. cbn [app take_while]. rewrite Ee.
      f_equal. exact (IH Hb Hw).
    + assert (Hx : not_heading x = true).
      { apply end_not_heading. unfold not_end in Ee.
        apply negb_false_iff. exact Ee. }
      rewrite Hx. cbn [app take_while]. rewrite Ee. reflexivity.
Qed.

Lemma block_properties_same (line : str) (tl W : list str) :
  blocks_closed (line :: tl) = true -> is_heading line = true ->
  hd_error W = hd_error (drop_while not_heading tl) ->
  block_properties (take_while not_heading tl ++ W) = block_properties tl.
Proof.
  intros Hb Hh Hw. cbn [blocks_closed] in Hb. rewrite Hh in Hb.
  apply andb_true_iff in Hb. destruct Hb as [Hb _].
  destruct tl as [|l1 tl1].
  - destruct W; [reflexivity|discriminate].
  - cbn [take_while drop_while] in *.
    destruct (not_heading l1) eqn:E1.
    + unfold block_properties. cbn [app has_properties skipn] in *.
      destruct (is_properties l1); [|reflexivity].
      cbn [andb] in Hb. unfold read_properties.
      rewrite (same_block tl1 W Hb Hw). reflexivity.
    + destruct W as [|w W]; [discriminate|]. injection Hw as ->.
      unfold block_properties. cbn [app has_properties].
      rewrite (heading_not_properties l1 E1). reflexivity.
Qed.

End RerunMatches.

Section Rerun.
Import Normalizer Scorer EnrichOrgTmdb Aux TextIO Notions.

Variables search search' : search_fn.

Hypothesis search_finds :
  forall q y, search q y <> [] /\ forallb usable (search q y) = true.

Lemma lookup_finds (q : str) (y : option Z) :
  fst (lookup search q y) <> []
  /\ forallb usable (fst (lookup search q y)) = true.
Proof.
  unfold lookup. destruct (search_finds q y) as [Hne Hu].
  destruct (search q y) as [|c cs] eqn:E; [congruence|].
  cbn [fst]. split; [discriminate|exact Hu].
Qed.

(** A lookup that finds usable results gives a match with an identifier
    and a title of one line. *)
Lemma find_best_match_found (q : str) (y : option Z) (m : match_info)
    (made : list query) :
  find_best_match search q y = (Ok m, made) ->
  found m = true /\ forallb inline (fmt_opt (tmdb_title m)) = true.
Proof.
  unfold find_best_match. destruct (lookup_finds q y) as [Hne Hu].
  destruct (lookup search q y) as [rs log]. cbn [fst] in *.
  destruct rs as [|r0 rs']; [congruence|].
  destruct (best_scored q y (r0 :: rs')) as [[[s c]|]|e] eqn:E;
    cbn [bind]; try discriminate.
  intros H. injection H as <- _.
  apply best_scored_in in E.
  rewrite forallb_forall in Hu. specialize (Hu c E).
  unfold usable in Hu. apply andb_true_iff in Hu.
  unfold found. cbn [tmdb_id tmdb_title]. exact Hu.
Qed.

Lemma step_unparsed (s : search_fn) (line : str) (tl : list str) (st : state) :
  parse_org_title line = None ->
  step s line tl st
  = (Ok {| rest := tl; output_lines := output_lines st ++ [line];
           disk := disk st; calls := calls st |}, calls st).
Proof.
  intros H. unfold step. rewrite H. destruct (is_heading line); reflexivity.
Qed.

Lemma step_exempt (s : search_fn) (line : str) (tl : list str) (st : state)
    (t : str * str * option Z) :
  parse_org_title line = Some t ->
  exempt (block_properties tl) = true ->
  step s line tl st = (Ok (skip_entry line tl st), calls st).
Proof.
  intros Hp He. unfold step. rewrite (parse_is_heading line t Hp), Hp.
  destruct t as [[o c] y]. unfold exempt, block_properties, has_properties in He.
  destruct (ai_verified _); [reflexivity|].
  cbn [orb] in He. rewrite He. reflexivity.
Qed.

(** The three ways a turn of the loop can go. *)
Lemma step_cases (line : str) (tl : list str) (st st' : state)
    (log : list query) :
  step search line tl st = (Ok st', log) ->
  (parse_org_title line = None
   /\ st' = {| rest := tl; output_lines := output_lines st ++ [line];
               disk := disk st; calls := calls st |})
  \/ (exists t, parse_org_title line = Some t
        /\ exempt (block_properties tl) = true
        /\ st' = skip_entry line tl st)
  \/ (exists t m,
        parse_org_title line = Some t
        /\ found m = true
        /\ forallb inline (fmt_opt (tmdb_title m)) = true
        /\ st' = if has_properties tl
                 then
                   finish_entry
                     (((output_lines st ++ line :: firstn 1 tl)
                       ++ filter (fun l => negb (is_suggested l && found m))
                            (take_while not_end (skipn 1 tl))
                       ++ tmdb_lines m)
                      ++ firstn 1 (drop_while not_end (skipn 1 tl)))
                     (skipn 1 (drop_while not_end (skipn 1 tl))) log
                 else
                   finish_entry
                     (output_lines st ++ [line] ++ [ln ":PROPERTIES:"]
                      ++ tmdb_lines m ++ [ln ":END:"]) tl log).
Proof.
  destruct (parse_org_title line) as [[[o c] y]|] eqn:Hp.
  2:{ rewrite step_unparsed by exact Hp. intros H. injection H as <- _.
      left. split; reflexivity. }
  destruct (exempt (block_properties tl)) eqn:He.
  { rewrite (step_exempt search line tl st _ Hp He). intros H.
    injection H as <- _. right. left. eexists. repeat split; reflexivity. }
  unfold step. rewrite (parse_is_heading line _ Hp), Hp.
  unfold exempt, block_properties, has_properties in He.
  apply orb_false_iff in He. destruct He as [He1 He2].
  rewrite He1, He2.
  destruct (find_best_match search _ y) as [[m|e] made] eqn:Ef;
    [|discriminate].
  destruct (find_best_match_found _ _ _ _ Ef) as [Hf Ht].
  intros H. right. right. exists (o, c, y), m.
  split; [reflexivity|]. split; [exact Hf|]. split; [exact Ht|].
  unfold has_properties.
  destruct (match tl with l1 :: _ => is_properties l1 | [] => false end);
    injection H as <- <-; reflexivity.
Qed.

Lemma step_skips (s : search_fn) (line : str) (added W : list str)
    (st : state) (t : str * str * option Z) :
  parse_org_title line = Some t ->
  exempt (block_properties (added ++ W)) = true ->
  forallb not_heading added = true ->
  match hd_error W with Some x => not_heading x = false | None => True end ->
  step s line (added ++ W) st
  = (Ok {| rest := W; output_lines := output_lines st ++ line :: added;
           disk := disk st; calls := calls st |}, calls st).
Proof.
  intros Hp He Ha Hw. rewrite (step_exempt s line _ st t Hp He).
  unfold skip_entry.
  destruct (while_app_stop not_heading added W Ha Hw) as [-> ->].
  reflexivity.
Qed.

(** A turn of the first run, and the turn of a second run at the lines
    the first one wrote for it: the second run copies these lines and
    makes no lookup, whatever follows them. *)
Lemma rerun_step (line : str) (tl : list str) (st st' : state)
    (log : list query) :
  blocks_closed (line :: tl) = true ->
  Forall (fun l => proper_line l = true) tl ->
  step search line tl st = (Ok st', log) ->
  exists added,
    output_lines st' = output_lines st ++ line :: added
    /\ (exists pre, tl = pre ++ rest st')
    /\ Forall (fun l => proper_line l = true) added
    /\ forall W st2,
         hd_error W = hd_error (rest st') ->
         step search' line (added ++ W) st2
         = (Ok {| rest := W; output_lines := output_lines st2 ++ line :: added;
                  disk := disk st2; calls := calls st2 |}, calls st2).
Proof.
  intros Hb Hp Hs.
  destruct (step_cases line tl st st' log Hs)
    as [[Hn ->]|[[t [Ht [He ->]]]|[t [m [Ht [Hf [Hi ->]]]]]]].
  - exists []. cbn [output_lines rest]. split; [reflexivity|].
    split; [exists []; reflexivity|]. split; [constructor|].
    intros W st2 _. cbn [app]. apply step_unparsed. exact Hn.
  - exists (take_while not_heading tl). unfold skip_entry.
    cbn [output_lines rest]. split; [reflexivity|].
    split; [exists (take_while not_heading tl); symmetry;
            apply take_drop_while|].
    split; [exact (incl_Forall (incl_take_while not_heading tl) Hp)|].
    intros W st2 Hw. apply step_skips with (t := t); [exact Ht| | |].
    + rewrite (block_properties_same line tl W Hb
                 (parse_is_heading line t Ht) Hw). exact He.
    + apply forallb_take_while.
    + rewrite Hw. apply hd_drop_while.
  - destruct (tmdb_lines_found m Hf) as [x [others [Hx Hm]]].
    destruct (has_properties tl) eqn:Ehp.
    + destruct tl as [|l1 tl1]; [discriminate Ehp|].
      cbn [has_properties] in Ehp. cbn [firstn skipn].
      assert (Hblock : forallb not_heading (take_while not_end tl1) = true).
      { cbn [blocks_closed has_properties skipn] in Hb.
        rewrite (parse_is_heading line t Ht), Ehp in Hb.
        apply andb_true_iff in Hb. apply Hb. }
      rewrite Hf.
      set (kept := filter (fun l => negb (is_suggested l && true))
                     (take_while not_end tl1)) in *.
      set (at_end := drop_while not_end tl1) in *.
      assert (Hkept : incl kept (take_while not_end tl1))
        by apply incl_filter.
      assert (Hend : forallb not_heading (firstn 1 at_end) = true).
      { pose proof (hd_drop_while not_end tl1) as H. fold at_end in H.
        destruct at_end as [|e r]; [reflexivity|]. cbn [hd_error] in H.
        cbn [firstn forallb]. rewrite end_not_heading; [reflexivity|].
        unfold not_end in H. apply negb_false_iff. exact H. }
      exists (l1 :: kept ++ tmdb_lines m ++ firstn 1 at_end
              ++ take_while not_heading (skipn 1 at_end)).
      unfold finish_entry. cbn [output_lines rest].
      split; [rewrite <- !app_assoc; reflexivity|].
      split.
      { exists (l1 :: take_while not_end tl1 ++ firstn 1 at_end
                ++ take_while not_heading (skipn 1 at_end)).
        cbn [app]. f_equal. rewrite <- !app_assoc.
        rewrite take_drop_while, firstn_skipn. unfold at_end.
        rewrite take_drop_while. reflexivity. }
      pose proof (Forall_inv_tail Hp) as Hp1.
      assert (Hpe : Forall (fun l => proper_line l = true) at_end)
        by exact (incl_Forall (incl_drop_while not_end tl1) Hp1).
      split.
      { constructor; [exact (Forall_inv Hp)|].
        apply Forall_app. split.
        { refine (incl_Forall Hkept _).
          exact (incl_Forall (incl_take_while not_end tl1) Hp1). }
        apply Forall_app. split; [exact (tmdb_lines_proper m Hi)|].
        apply Forall_app. split.
        { exact (incl_Forall (incl_firstn 1 at_end) Hpe). }
        refine (incl_Forall (incl_take_while not_heading _) _).
        exact (incl_Forall (incl_skipn 1 at_end) Hpe). }
      intros W st2 Hw. apply step_skips with (t := t); [exact Ht| | |].
      * unfold exempt, block_properties.
        cbn [app has_properties skipn]. rewrite Ehp, Hm.
        rewrite <- !app_assoc. cbn [app].
        rewrite read_properties_with_id; [apply orb_true_r| |exact Hx].
        apply (forallb_incl not_end _ _ Hkept). apply forallb_take_while.
      * cbn [forallb]. rewrite (properties_not_heading l1 Ehp).
        rewrite !forallb_app, tmdb_lines_not_heading, Hend.
        rewrite (forallb_incl not_heading _ _ Hkept Hblock).
        rewrite forallb_take_while. reflexivity.
      * rewrite Hw. apply hd_drop_while.
    + exists (ln ":PROPERTIES:" :: tmdb_lines m
              ++ ln ":END:" :: take_while not_heading tl).
      unfold finish_entry. cbn [output_lines rest].
      split; [rewrite <- !app_assoc; reflexivity|].
      split; [exists (take_while not_heading tl); symmetry;
              apply take_drop_while|].
      split.
      { constructor; [reflexivity|]. apply Forall_app.
        split; [exact (tmdb_lines_proper m Hi)|].
        constructor; [reflexivity|].
        exact (incl_Forall (incl_take_while not_heading tl) Hp). }
      intros W st2 Hw. apply step_skips with (t := t); [exact Ht| | |].
      * unfold exempt, block_properties.
        cbn [app has_properties skipn].
        change (is_properties (ln ":PROPERTIES:")) with true. cbv iota.
        rewrite Hm. cbn [app].
        apply orb_true_iff. right.
        exact (read_properties_with_id [] x _ eq_refl Hx).
      * cbn [forallb]. rewrite forallb_app. cbn [forallb].
        rewrite tmdb_lines_not_heading, forallb_take_while. reflexivity.
      * rewrite Hw. apply hd_drop_while.
Qed.

(** The lines [W] a run writes from a state on, and the second run over
    them: it copies them and makes no lookup. *)
Lemma rerun_loop (fuel : nat) :
  forall st r,
    blocks_closed (rest st) = true ->
    Forall (fun l => proper_line l = true) (rest st) ->
    process_loop search fuel st = Some r -> raised r = None ->
    exists W,
      hd_error W = hd_error (rest st)
      /\ Forall (fun l => proper_line l = true) W
      /\ final_disk r = match output_lines st ++ W with
                        | [] => disk st
                        | _ :: _ => output_lines st ++ W
                        end
      /\ forall fuel2 st2,
           rest st2 = W -> List.length W <= fuel2 ->
           process_loop search' fuel2 st2
           = Some {| raised := None;
                     final_disk := match output_lines st2 ++ W with
                                   | [] => disk st2
                                   | _ :: _ => output_lines st2 ++ W
                                   end;
                     final_calls := calls st2 |}.
Proof.
  assert (Hstop : forall st r fuel0,
             rest st = [] -> process_loop search fuel0 st = Some r ->
             exists W,
               hd_error W = hd_error (rest st)
               /\ Forall (fun l => proper_line l = true) W
               /\ final_disk r = match output_lines st ++ W with
                                 | [] => disk st
                                 | _ :: _ => output_lines st ++ W
                                 end
               /\ forall fuel2 st2,
                    rest st2 = W -> List.length W <= fuel2 ->
                    process_loop search' fuel2 st2
                    = Some {| raised := None;
                              final_disk := match output_lines st2 ++ W with
                                            | [] => disk st2
                                            | _ :: _ => output_lines st2 ++ W
                                            end;
                              final_calls := calls st2 |}).
  { intros st r fuel0 Er Hr. exists []. rewrite Er.
    split; [reflexivity|]. split; [constructor|]. split.
    - destruct fuel0; cbn [process_loop] in Hr; rewrite Er in Hr;
        injection Hr as <-; cbn [final_disk]; rewrite app_nil_r; reflexivity.
    - intros fuel2 st2 E2 _.
      destruct fuel2; cbn [process_loop]; rewrite E2, app_nil_r; reflexivity. }
  induction fuel as [|fuel IH]; intros st r Hb Hp Hr Hn.
  - destruct (rest st) as [|line tl] eqn:Er.
    + rewrite <- Er. exact (Hstop st r 0 Er Hr).
    + cbn [process_loop] in Hr. rewrite Er in Hr. discriminate.
  - destruct (rest st) as [|line tl] eqn:Er.
    + rewrite <- Er. exact (Hstop st r (S fuel) Er Hr).
    + cbn [process_loop] in Hr. rewrite Er in Hr.
      destruct (step search line tl st) as [[st'|e] log] eqn:Es.
      2:{ injection Hr as <-. discriminate Hn. }
      destruct (rerun_step line tl st st' log Hb (Forall_inv_tail Hp) Es)
        as [added [Hout [[pre Hpre] [Hpa Hsecond]]]].
      assert (Hb' : blocks_closed (rest st') = true).
      { cbn [blocks_closed] in Hb. apply andb_true_iff in Hb.
        destruct Hb as [_ Hb]. rewrite Hpre in Hb.
        exact (blocks_closed_app pre _ Hb). }
      assert (Hp' : Forall (fun l => proper_line l = true) (rest st')).
      { pose proof (Forall_inv_tail Hp) as H. rewrite Hpre in H.
        apply Forall_app in H. apply H. }
      destruct (IH st' r Hb' Hp' Hr Hn) as [W' [Hhd [HpW [Hfd Hrun]]]].
      exists (line :: added ++ W').
      split; [reflexivity|].
      split; [constructor; [exact (Forall_inv Hp)|];
              apply Forall_app; split; assumption|].
      split.
      * rewrite Hfd, Hout, <- app_assoc. cbn [app].
        destruct (output_lines st ++ line :: added ++ W') as [|x l] eqn:E0;
          [|reflexivity].
        apply app_eq_nil in E0. destruct E0; discriminate.
      * intros fuel2 st2 E2 Hlen.
        destruct fuel2 as [|fuel2]; [cbn [List.length] in Hlen; lia|].
        cbn [process_loop]. rewrite E2, (Hsecond W' st2 Hhd).
        rewrite Hrun.
        -- cbn [output_lines disk calls]. rewrite <- app_assoc.
           reflexivity.
        -- reflexivity.
        -- cbn [List.length] in Hlen. rewrite length_app in Hlen. lia.
Qed.

(** X16. Under a lookup that finds for every query results with an
    identifier that is not zero and a title of one line, take a file whose
    lines each end with their newline and in which no property block after
    a heading holds a heading before its [:END:] line. The run ends; when
    it ends without exception, the file it wrote is read back as the lines
    written, and a second run over it, with any lookup, makes no lookup
    and writes the same file again. *)
Theorem rerun_makes_no_lookup (lines : list str) :
  Forall (fun l => proper_line l = true) lines ->
  blocks_closed lines = true ->
  exists r,
    process_org_file search lines = Some r
    /\ (raised r = None ->
        readlines (writelines (final_disk r)) = final_disk r
        /\ process_org_file search' (final_disk r)
           = Some {| raised := None;
                     final_disk := final_disk r;
                     final_calls := [] |}).
Proof.
  intros Hp Hb.
  destruct (process_org_file_total search lines) as [r Hr].
  exists r. split; [exact Hr|]. intros Hn.
  unfold process_org_file in Hr.
  destruct (rerun_loop (List.length lines)
              {| rest := lines; output_lines := []; disk := lines;
                 calls := [] |} r Hb Hp Hr Hn)
    as [W [Hhd [HpW [Hfd Hrun]]]].
  cbn [output_lines disk rest app] in *.
  assert (E : final_disk r = W).
  { rewrite Hfd. destruct W as [|w W]; [|reflexivity].
    destruct lines; [reflexivity|discriminate Hhd]. }
  rewrite E. split; [exact (readlines_writelines W HpW)|].
  unfold process_org_file.
  rewrite (Hrun (List.length W)
             {| rest := W; output_lines := []; disk := W; calls := [] |}
             eq_refl (le_n _)).
  cbn [output_lines disk calls app]. destruct W; reflexivity.
Qed.

End Rerun.

Section RerunExamples.
Import Normalizer Scorer EnrichOrgTmdb Aux TextIO Notions Examples Samples.

(** The file of three records, looked up and run again. *)
Lemma rerun_makes_no_lookup_witness :
  exists r,
    process_org_file stub three_doc = Some r
    /\ (raised r = None ->
        readlines (writelines (final_disk r)) = final_disk r
        /\ process_org_file (fun _ _ => []) (final_disk r)
           = Some {| raised := None;
                     final_disk := final_disk r;
                     final_calls := [] |}).
Proof.
  apply (rerun_makes_no_lookup stub (fun _ _ => [])).
  - intros q y. split; [discriminate|reflexivity].
  - repeat constructor.
  - vm_compute. reflexivity.
Defined.

End RerunExamples.

(** ** The lines of the file after a run *)

Section ProcessKeeps.
Import Normalizer Scorer EnrichOrgTmdb Aux TextIO Notions.

Variable search : search_fn.

Lemma terminated_snoc (a : str) : terminated (a ++ [nl]) = true.
Proof.
  unfold terminated. rewrite rev_app_distr. cbn [rev app].
  apply eqb_char_refl.
Qed.

Lemma proper_terminated (l : str) :
  proper_line l = true -> terminated l = true.
Proof.
  unfold proper_line, terminated. destruct (rev l); [discriminate|].
  intros H. apply andb_true_iff in H. apply H.
Qed.

Lemma terminated_inv (l : str) :
  terminated l = true -> exists body, l = body ++ [nl].
Proof.
  unfold terminated. destruct (rev l) as [|c r] eqn:E; [discriminate|].
  intros H. apply eqb_char_eq in H. subst c. exists (rev r).
  rewrite <- (rev_involutive l), E. reflexivity.
Qed.

(** What is read of a string that ends with a newline does not depend
    on what is written after it. *)
Lemma readlines_go_terminated (body : str) :
  forall cur rest,
    readlines_go cur ((body ++ [nl]) ++ rest)
    = readlines_go cur (body ++ [nl]) ++ readlines_go [] rest.
Proof.
  induction body as [|c body IH]; intros cur rest.
  - reflexivity.
  - cbn [app readlines_go]. destruct (eqb_char c nl).
    { cbn [app]. f_equal. apply IH. }
    destruct (eqb_char c cr); [|apply IH].
    destruct body as [|d body]; [reflexivity|].
    cbn [app]. destruct (eqb_char d nl) eqn:E0.
    + pose proof (IH [] rest) as H. cbn [app readlines_go] in H.
      rewrite E0 in H. cbn [app] in H. injection H as H.
      cbn [app]. f_equal. exact H.
    + cbn [app]. f_equal. apply IH.
Qed.

Lemma readlines_proper (l : str) : proper_line l = true -> readlines l = [l].
Proof.
  intros H. destruct (proper_line_inv l H) as [body [-> Hb]].
  unfold readlines.
  pose proof (readlines_go_body body Hb [] []) as E.
  cbn [app] in E. rewrite E. cbn [readlines_go rev].
  rewrite app_nil_r, rev_involutive. reflexivity.
Qed.

(** The lines read of a written file are those read of each string
    written, when each ends with a newline. *)
Lemma readlines_strings (ls : list str) :
  Forall (fun l => terminated l = true) ls ->
  readlines (writelines ls) = flat_map readlines ls.
Proof.
  intros H. induction H as [|l ls Hl H IH]; [reflexivity|].
  destruct (terminated_inv l Hl) as [body ->].
  unfold readlines, writelines in *. cbn [List.concat flat_map].
  rewrite readlines_go_terminated, IH. reflexivity.
Qed.

Lemma subseq_behind {A} (p a b : list A) : subseq a b -> subseq a (p ++ b).
Proof.
  intros H. induction p as [|x p IH]; [exact H|].
  cbn [app]. apply subseq_drop. exact IH.
Qed.

Lemma subseq_read (a b : list str) :
  subseq a b ->
  Forall (fun l => proper_line l = true) a ->
  subseq a (flat_map readlines b).
Proof.
  intros H. induction H as [|x a b H IH|x a b H IH]; intros Ha.
  - constructor.
  - cbn [flat_map]. rewrite (readlines_proper x (Forall_inv Ha)).
    cbn [app]. apply subseq_keep. apply IH. exact (Forall_inv_tail Ha).
  - cbn [flat_map]. apply subseq_behind. apply IH. exact Ha.
Qed.

Lemma tmdb_lines_terminated (m : match_info) :
  Forall (fun l => terminated l = true) (tmdb_lines m).
Proof.
  unfold tmdb_lines. apply Forall_app. split.
  - destruct (found m); [|constructor].
    repeat constructor; rewrite app_assoc; apply terminated_snoc.
  - destruct (needs_review m); repeat constructor.
Qed.

(** The ways a turn of the loop can go, whatever the lookup returns. *)
Lemma step_shape (line : str) (tl : list str) (st st' : state)
    (log : list query) :
  step search line tl st = (Ok st', log) ->
  st' = {| rest := tl; output_lines := output_lines st ++ [line];
           disk := disk st; calls := calls st |}
  \/ st' = skip_entry line tl st
  \/ exists m,
       st' = if has_properties tl
             then
               finish_entry
                 (((output_lines st ++ line :: firstn 1 tl)
                   ++ filter (fun l => negb (is_suggested l && found m))
                        (take_while not_end (skipn 1 tl))
                   ++ tmdb_lines m)
                  ++ firstn 1 (drop_while not_end (skipn 1 tl)))
                 (skipn 1 (drop_while not_end (skipn 1 tl))) log
             else
               finish_entry
                 (output_lines st ++ [line] ++ [ln ":PROPERTIES:"]
                  ++ tmdb_lines m ++ [ln ":END:"]) tl log.
Proof.
  unfold step. destruct (is_heading line).
  2:{ intros H. injection H as <- _. left. reflexivity. }
  destruct (parse_org_title line) as [[[o c] y]|].
  2:{ intros H. injection H as <- _. left. reflexivity. }
  match goal with
  | |- (if ?b then _ else _) = _ -> _ => destruct b
  end.
  { intros H. injection H as <- _. right. left. reflexivity. }
  destruct (dict_mem (lit "TMDB_ID") _).
  { intros H. injection H as <- _. right. left. reflexivity. }
  destruct (find_best_match search _ y) as [[m|e] made]; [|discriminate].
  intros H. right. right. exists m. unfold has_properties.
  destruct (match tl with l1 :: _ => is_properties l1 | [] => false end);
    injection H as <- <-; reflexivity.
Qed.

(** One turn of the loop: every string written or left ends with a
    newline when those before did. *)
Lemma step_terminated (line : str) (tl : list str) (st st' : state)
    (log : list query) :
  step search line tl st = (Ok st', log) ->
  Forall (fun l => terminated l = true) (output_lines st ++ line :: tl) ->
  Forall (fun l => terminated l = true) (output_lines st' ++ rest st').
Proof.
  intros Hs Hall.
  apply Forall_app in Hall. destruct Hall as [Ho Hl].
  pose proof (Forall_inv Hl) as Hline. pose proof (Forall_inv_tail Hl) as Ht.
  destruct (step_shape line tl st st' log Hs) as [->|[->|[m ->]]].
  - cbn [output_lines rest]. rewrite <- app_assoc.
    apply Forall_app. split; assumption.
  - unfold skip_entry. cbn [output_lines rest].
    rewrite <- app_assoc. cbn [app]. rewrite take_drop_while.
    apply Forall_app. split; assumption.
  - pose proof (tmdb_lines_terminated m) as Hm.
    set (T := tmdb_lines m) in *.
    destruct (has_properties tl);
      match goal with
      | |- context [finish_entry ?o ?r ?l] =>
          destruct (finish_entry_whole o r l) as [E1 _]
      end;
      rewrite E1.
    + assert (Hend : Forall (fun l => terminated l = true)
                       (drop_while not_end (skipn 1 tl))).
      { refine (incl_Forall (incl_drop_while not_end _) _).
        exact (incl_Forall (incl_skipn 1 tl) Ht). }
      rewrite !Forall_app. repeat split; try assumption.
      * constructor; [exact Hline|].
        exact (incl_Forall (incl_firstn 1 tl) Ht).
      * refine (incl_Forall (incl_filter _ _) _).
        refine (incl_Forall (incl_take_while not_end _) _).
        exact (incl_Forall (incl_skipn 1 tl) Ht).
      * exact (incl_Forall (incl_firstn 1 _) Hend).
      * exact (incl_Forall (incl_skipn 1 _) Hend).
    + rewrite !Forall_app. repeat split; try assumption;
        repeat constructor; assumption.
Qed.

Lemma process_loop_terminated (fuel : nat) :
  forall st r,
    Forall (fun l => terminated l = true) (output_lines st ++ rest st) ->
    Forall (fun l => terminated l = true) (disk st) ->
    process_loop search fuel st = Some r ->
    Forall (fun l => terminated l = true) (final_disk r).
Proof.
  assert (Hend : forall st,
            rest st = [] ->
            Forall (fun l => terminated l = true)
              (output_lines st ++ rest st) ->
            Forall (fun l => terminated l = true) (disk st) ->
            Forall (fun l => terminated l = true)
              match output_lines st with
              | [] => disk st
              | _ :: _ => output_lines st
              end).
  { intros st Er H1 H2. rewrite Er, app_nil_r in H1.
    destruct (output_lines st); assumption. }
  induction fuel as [|fuel IH]; intros st r H1 H2.
  - cbn [process_loop]. destruct (rest st) eqn:Er; [|discriminate].
    intros H. injection H as <-. cbn [final_disk].
    apply Hend; [exact Er|rewrite Er; exact H1|exact H2].
  - cbn [process_loop]. destruct (rest st) as [|line tl] eqn:Er.
    + intros H. injection H as <-. cbn [final_disk].
      apply Hend; [exact Er|rewrite Er; exact H1|exact H2].
    + destruct (step search line tl st) as [[st'|e] log] eqn:Es.
      * pose proof (step_terminated line tl st st' log Es H1) as K1.
        destruct (step_keeps search line tl st st' log Es) as [_ K2].
        apply IH; [exact K1|].
        destruct K2 as [-> | ->]; assumption.
      * intros H. injection H as <-. exact H2.
Qed.

(** X6. Whatever the lookup returns, and also when the run ends in an
    exception: for a file whose lines each end with their newline, the
    strings [process_org_file] last wrote, and the lines of the file on
    disk read back, hold every line of the file it read, in the same
    order, but for lines of the search hint: the run only adds lines,
    and takes out none but these. *)
Theorem process_keeps_lines (lines : list str) :
  Forall (fun l => proper_line l = true) lines ->
  exists r,
    process_org_file search lines = Some r
    /\ subseq (filter not_suggested lines) (final_disk r)
    /\ subseq (filter not_suggested lines)
         (readlines (writelines (final_disk r))).
Proof.
  intros Hp.
  assert (Ht : Forall (fun l => terminated l = true) lines).
  { refine (Forall_impl _ _ Hp). exact proper_terminated. }
  destruct (process_org_file_total search lines) as [r Hr].
  exists r. split; [exact Hr|].
  unfold process_org_file in Hr.
  assert (K : subseq (filter not_suggested lines) (final_disk r)).
  { apply (process_loop_keeps search lines) in Hr; [exact Hr| |];
      cbn [output_lines rest disk app]; apply subseq_filter. }
  split; [exact K|].
  rewrite readlines_strings.
  - apply subseq_read; [exact K|].
    exact (incl_Forall (incl_filter _ _) Hp).
  - apply (process_loop_terminated _ _ r) in Hr; [exact Hr| |];
      cbn [output_lines rest disk app]; exact Ht.
Qed.

End ProcessKeeps.

Section ProcessKeepsExamples.
Import Normalizer Scorer EnrichOrgTmdb Aux TextIO Notions Examples Samples.

(** The file of three records. *)
Lemma process_keeps_lines_witness :
  exists r,
    process_org_file stub three_doc = Some r
    /\ subseq (filter not_suggested three_doc) (final_disk r)
    /\ subseq (filter not_suggested three_doc)
         (readlines (writelines (final_disk r))).
Proof.
  apply (process_keeps_lines stub three_doc). repeat constructor.
Defined.

End ProcessKeepsExamples.

(** ** The knowledge base *)

Section KnowledgeFacts.
Import InjectKnowledge KnowledgeBatches Notions.

Lemma fold_left_concat {A B} (f : A -> B -> A) (ls : list (list B)) :
  forall a,
    fold_left (fun acc l => fold_left f l acc) ls a
    = fold_left f (List.concat ls) a.
Proof.
  induction ls as [|l ls IH]; intros a; [reflexivity|].
  cbn [fold_left List.concat]. rewrite fold_left_app. apply IH.
Qed.

Lemma dict_get_not_in {V} (k : str) (d : dict V) :
  dict_get k d = None -> ~ In k (map fst d).
Proof.
  induction d as [|[k' v] d IH]; intros H; [intros []|].
  cbn [dict_get] in H. destruct (eqb_str k k') eqn:E; [discriminate|].
  intros [Hk|Hk].
  - cbn [fst] in Hk. subst k'. rewrite eqb_str_refl in E. discriminate.
  - exact (IH H Hk).
Qed.

(** The keys after [d[k] = v]: a key that is there keeps its place, a new
    one goes last. *)
Lemma dict_set_keys {V} (k : str) (v : V) (d : dict V) :
  map fst (dict_set k v d)
  = match dict_get k d with
    | Some _ => map fst d
    | None => map fst d ++ [k]
    end.
Proof.
  induction d as [|[k' v'] d IH]; [reflexivity|].
  cbn [dict_set dict_get]. destruct (eqb_str k k') eqn:E; [reflexivity|].
  cbn [map fst]. rewrite IH. destruct (dict_get k d); reflexivity.
Qed.

Lemma dict_set_nodup {V} (k : str) (v : V) (d : dict V) :
  NoDup (map fst d) -> NoDup (map fst (dict_set k v d)).
Proof.
  intros H. rewrite dict_set_keys. destruct (dict_get k d) eqn:E; [exact H|].
  apply NoDup_app; [exact H|repeat constructor; intros []|].
  intros x Hx [<-|[]]. exact (dict_get_not_in k d E Hx).
Qed.

Lemma load_entry_get (title : str) (K : dict knowledge_entry)
    (e : batch_entry) :
  dict_get title (load_entry K e)
  = if titled title e then Some (snd e) else dict_get title K.
Proof.
  unfold load_entry, titled. destruct (fst e) as [[|c t]|]; try reflexivity.
  destruct (eqb_str (c :: t) title) eqn:E.
  - apply eqb_str_eq in E. rewrite <- E. apply dict_get_set_same.
  - apply dict_get_set_other. apply eqb_str_neq. exact E.
Qed.

Lemma load_entries (entries : list batch_entry) (title : str) :
  dict_get title (fold_left load_entry entries []) = last_titled title entries
  /\ NoDup (map fst (fold_left load_entry entries []))
  /\ List.length (fold_left load_entry entries [])
     <= List.length (filter has_title entries).
Proof.
  induction entries as [|e entries [IH1 [IH2 IH3]]] using rev_ind.
  - split; [reflexivity|]. split; [constructor|]. cbn. lia.
  - rewrite fold_left_app. cbn [fold_left]. split; [|split].
    + rewrite load_entry_get, IH1. unfold last_titled.
      rewrite rev_app_distr. cbn [rev app find].
      destruct (titled title e); reflexivity.
    + unfold load_entry. destruct (fst e) as [[|c t]|]; try exact IH2.
      apply dict_set_nodup. exact IH2.
    + rewrite filter_app, length_app. cbn [filter].
      set (K := fold_left load_entry entries []) in *.
      set (n := List.length (filter has_title entries)) in *.
      unfold load_entry, has_title.
      destruct (fst e) as [[|c t]|]; cbn [truthy_str List.length]; try lia.
      match goal with
      | |- context [List.length (dict_set ?k ?v ?d)] =>
          rewrite <- (length_map fst (dict_set k v d)), dict_set_keys;
          rewrite <- (length_map fst d) in IH3;
          destruct (dict_get k d)
      end; rewrite ?length_app; cbn [List.length]; lia.
Qed.

(** X17. In the knowledge base [load_knowledge_batches] builds, a title
    stands for the last object of that title in the batch files, taken in
    the order of their sorted paths; objects without title or with an
    empty one are left out; no title is held twice, and the base holds no
    more entries than there are objects with a title. *)
Theorem knowledge_last_wins (batches : list (list batch_entry)) (title : str) :
  dict_get title (load_knowledge_batches batches)
  = last_titled title (List.concat batches)
  /\ NoDup (map fst (load_knowledge_batches batches))
  /\ List.length (load_knowledge_batches batches)
     <= List.length (filter has_title (List.concat batches)).
Proof.
  unfold load_knowledge_batches. rewrite fold_left_concat.
  apply load_entries.
Qed.

End KnowledgeFacts.

(** ** The rows of match_movies.py *)

Section MatchRows.
Import Normalizer Scorer MatchMovies MatchMoviesFile Notions.

Variable search : search_fn.

Lemma headings_from_cons (n : nat) (line : str) (lines : list str) :
  headings_from n (line :: lines)
  = match parse_org_entry line n with Some p => [p] | None => [] end
    ++ headings_from (S n) lines.
Proof. reflexivity. Qed.

Lemma parse_entry_heading (line : str) (n : nat) (p : parsed_entry) :
  parse_org_entry line n = Some p ->
  startswith [star] (strip line) = true /\ line_number p = n
  /\ parses line = true.
Proof.
  unfold parse_org_entry, parses, parse_org_title, heading_text.
  destruct (strip line) as [|c r]; [discriminate|].
  destruct (eqb_char c star) eqn:E; [|discriminate].
  apply eqb_char_eq in E. subst c.
  match goal with
  | |- match ?x with _ => _ end = _ -> _ => destruct x; [|discriminate]
  end.
  intros H. injection H as <-. repeat split; reflexivity.
Qed.

Lemma parse_entry_none (line : str) (n : nat) :
  parse_org_entry line n = None -> parses line = false.
Proof.
  unfold parse_org_entry, parses, parse_org_title.
  destruct (heading_text line); [discriminate|reflexivity].
Qed.

(** The loop gives a row to each heading, in order, or stops at the
    first heading whose lookup raises. *)
Lemma process_lines_rows (lines : list str) :
  forall n,
    match process_lines search n lines with
    | Ok rows =>
        map fst rows = headings_from n lines
        /\ Forall (fun r => find_best_match search (fst r) = Ok (snd r)) rows
    | Raise e =>
        exists a p b,
          headings_from n lines = a ++ p :: b
          /\ find_best_match search p = Raise e
          /\ Forall (fun p' => is_ok (find_best_match search p') = true) a
    end.
Proof.
  induction lines as [|line lines IH]; intros n.
  - split; [reflexivity|constructor].
  - rewrite headings_from_cons. cbn [process_lines]. specialize (IH (S n)).
    destruct (parse_org_entry line n) as [p|] eqn:Ep.
    + destruct (parse_entry_heading line n p Ep) as [Hh _].
      rewrite Hh. cbn [negb].
      destruct (find_best_match search p) as [m|e] eqn:Em; cbn [bind].
      * destruct (process_lines search (S n) lines) as [rows|e]; cbn [bind].
        -- destruct IH as [IH1 IH2]. split.
           ++ cbn [map fst app]. f_equal. exact IH1.
           ++ constructor; [exact Em|exact IH2].
        -- destruct IH as [a [q [b [H1 [H2 H3]]]]].
           exists (p :: a), q, b. rewrite H1. split; [reflexivity|].
           split; [exact H2|]. constructor; [|exact H3].
           rewrite Em. reflexivity.
      * exists [], p, (headings_from (S n) lines).
        split; [reflexivity|]. split; [exact Em|constructor].
    + cbn [app]. destruct (negb (startswith [star] (strip line))); exact IH.
Qed.

(** The headings carry the numbers of their lines. *)
Lemma headings_from_lines (lines : list str) :
  forall n,
    Forall
      (fun p =>
         n <= line_number p < n + List.length lines
         /\ exists line,
              nth_error lines (line_number p - n) = Some line
              /\ parse_org_entry line (line_number p) = Some p)
      (headings_from n lines)
    /\ ForallOrdPairs lt (map line_number (headings_from n lines))
    /\ List.length (headings_from n lines)
       = List.length (filter parses lines).
Proof.
  induction lines as [|line lines IH]; intros n.
  - split; [constructor|]. split; [constructor|reflexivity].
  - rewrite headings_from_cons. destruct (IH (S n)) as [IH1 [IH2 IH3]].
    assert (Htl : Forall
                    (fun p =>
                       n <= line_number p < n + List.length (line :: lines)
                       /\ exists l,
                            nth_error (line :: lines) (line_number p - n)
                            = Some l
                            /\ parse_org_entry l (line_number p) = Some p)
                    (headings_from (S n) lines)).
    { refine (Forall_impl _ _ IH1). intros p [Hr [l [Hl Hp]]].
      cbn [List.length]. split; [lia|]. exists l. split; [|exact Hp].
      replace (line_number p - n) with (S (line_number p - S n)) by lia.
      exact Hl. }
    destruct (parse_org_entry line n) as [p|] eqn:Ep.
    + destruct (parse_entry_heading line n p Ep) as [_ [Hn Hp]].
      cbn [app map filter List.length]. rewrite Hp. split; [|split].
      * constructor; [|exact Htl]. rewrite Hn. cbn [List.length].
        split; [lia|]. exists line. rewrite Nat.sub_diag.
        split; [reflexivity|exact Ep].
      * constructor; [|exact IH2]. apply Forall_map.
        refine (Forall_impl _ _ IH1). intros q [Hr _]. lia.
      * cbn [List.length]. f_equal. exact IH3.
    + cbn [app filter]. rewrite (parse_entry_none line n Ep).
      split; [exact Htl|]. split; [exact IH2|exact IH3].
Qed.

(** X18. [process_org_file] of [match_movies.py] returns one row for each
    line that [parse_org_entry] reads as a heading, in the order of the
    file, with the match [find_best_match] gives it; when a lookup raises,
    the exception of the first such heading ends the run and no row is
    returned. The [line_number] of a row is the number of its line,
    counted from 1: the numbers lie within the file, grow from row to
    row, and the line of that number is the one the row was parsed
    from. *)
Theorem match_rows_follow_file (lines : list str) :
  match process_org_file search lines with
  | Ok rows =>
      map fst rows = headings_from 1 lines
      /\ Forall (fun r => find_best_match search (fst r) = Ok (snd r)) rows
  | Raise e =>
      exists a p b,
        headings_from 1 lines = a ++ p :: b
        /\ find_best_match search p = Raise e
        /\ Forall (fun p' => is_ok (find_best_match search p') = true) a
  end
  /\ Forall
       (fun p =>
          1 <= line_number p <= List.length lines
          /\ exists line,
               nth_error lines (line_number p - 1) = Some line
               /\ parse_org_entry line (line_number p) = Some p)
       (headings_from 1 lines)
  /\ ForallOrdPairs lt (map line_number (headings_from 1 lines))
  /\ List.length (headings_from 1 lines) = List.length (filter parses lines).
Proof.
  split; [exact (process_lines_rows lines 1)|].
  destruct (headings_from_lines lines 1) as [H1 [H2 H3]].
  split; [|split; assumption].
  refine (Forall_impl _ _ H1). intros p [Hr He]. split; [lia|exact He].
Qed.

End MatchRows.

(** ** The counters of enrich_org_tmdb.py *)

Section EnrichCounters.
Import Normalizer Scorer EnrichOrgTmdb EnrichStats Aux Notions.

Variable search : search_fn.

Lemma find_best_match_made (title : str) (year_hint : option Z) :
  1 <= List.length (snd (find_best_match search title year_hint)) <= 2.
Proof.
  split; [|apply find_best_match_calls].
  unfold find_best_match, lookup.
  destruct (search title year_hint); [|cbn; lia].
  destruct (truthy_int year_hint); cbn; lia.
Qed.

Lemma count_match_ok (m : match_info) (s : stats) (log made : list query) :
  1 <= List.length made <= 2 ->
  EnrichStats.total s
  = S (skipped_verified s + EnrichStats.skipped s + looked_up s) ->
  used_suggested_search s <= S (looked_up s) ->
  looked_up s <= List.length log <= 2 * looked_up s ->
  stats_ok (count_match m s) (log ++ made)
  /\ EnrichStats.total (count_match m s) = EnrichStats.total s.
Proof.
  intros Hm Ht Hu Hl. unfold count_match, stats_ok, looked_up in *.
  rewrite length_app.
  destruct (tmdb_id m);
    [destruct (Qle_bool HIGH_CONFIDENCE_THRESHOLD _);
     [|destruct (Qle_bool MEDIUM_CONFIDENCE_THRESHOLD _)]|];
    cbn [count_high count_medium count_low count_no_match
         EnrichStats.total high_confidence medium_confidence low_confidence
         no_match EnrichStats.skipped skipped_verified used_suggested_search];
    lia.
Qed.

(** A turn of the loop keeps the counters in step with the lookups. *)
Lemma stats_step_ok (line : str) (tl : list str) (st st' : state)
    (log : list query) (s : stats) :
  step search line tl st = (Ok st', log) ->
  stats_ok s (calls st) ->
  stats_ok (stats_step search line tl s) (calls st')
  /\ EnrichStats.total (stats_step search line tl s)
     <= EnrichStats.total s + List.length (filter parses [line]).
Proof.
  intros Hs Hok. unfold step in Hs. unfold stats_step.
  cbn [filter]. unfold parses.
  destruct (is_heading line).
  2:{ injection Hs as <- _. cbn [calls]. split; [exact Hok|lia]. }
  destruct (parse_org_title line) as [[[o c] y]|].
  2:{ injection Hs as <- _. cbn [calls]. split; [exact Hok|lia]. }
  cbn [List.length].
  set (properties :=
         if match tl with l1 :: _ => is_properties l1 | [] => false end
         then read_properties (skipn 1 tl) else []) in *.
  destruct (ai_verified properties).
  { injection Hs as <- _. cbn [skip_entry calls].
    destruct Hok as [Ht [Hu Hl]]. unfold stats_ok, looked_up in *.
    cbn [count_skipped_verified count_total EnrichStats.total
         high_confidence medium_confidence low_confidence no_match
         EnrichStats.skipped skipped_verified used_suggested_search]. lia. }
  destruct (dict_mem (lit "TMDB_ID") properties).
  { injection Hs as <- _. cbn [skip_entry calls].
    destruct Hok as [Ht [Hu Hl]]. unfold stats_ok, looked_up in *.
    cbn [count_skipped count_total EnrichStats.total
         high_confidence medium_confidence low_confidence no_match
         EnrichStats.skipped skipped_verified used_suggested_search]. lia. }
  destruct Hok as [Ht [Hu Hl]].
  destruct (dict_get (lit "SUGGESTED_SEARCH") properties) as [v|];
    match type of Hs with
    | context [find_best_match search ?q y] =>
        pose proof (find_best_match_made q y) as Hm;
        destruct (find_best_match search q y) as [[m|e] made];
        [|discriminate Hs]
    end;
    cbn [fst snd] in *;
    (assert (Hc : calls st' = calls st ++ made)
       by (destruct (match tl with l1 :: _ => is_properties l1 | [] => false end);
           injection Hs as <- _; reflexivity));
    rewrite Hc;
    match goal with
    | |- context [count_match ?m0 ?s0] =>
        destruct (count_match_ok m0 s0 (calls st) made Hm) as [G1 G2]
    end;
    try (unfold looked_up in *;
         cbn [count_used_suggested_search count_total EnrichStats.total
              high_confidence medium_confidence low_confidence no_match
              EnrichStats.skipped skipped_verified used_suggested_search];
         lia);
    (split; [exact G1|]); rewrite G2;
    cbn [count_used_suggested_search count_total EnrichStats.total]; lia.
Qed.

Lemma stats_loop_ok (fuel : nat) :
  forall st s,
    List.length (rest st) <= fuel ->
    stats_ok s (calls st) ->
    exists r out,
      process_loop search fuel st = Some r
      /\ stats_loop search fuel st s = Some out
      /\ match out with
         | Raise e => raised r = Some e
         | Ok s' =>
             raised r = None
             /\ stats_ok s' (final_calls r)
             /\ EnrichStats.total s'
                <= EnrichStats.total s
                   + List.length (filter parses (rest st))
         end.
Proof.
  induction fuel as [|fuel IH]; intros st s Hl Hok.
  - destruct (rest st) as [|line tl] eqn:Er; [|cbn in Hl; lia].
    do 2 eexists. cbn [process_loop stats_loop]. rewrite Er.
    split; [reflexivity|]. split; [reflexivity|].
    cbn [raised final_calls filter List.length].
    split; [reflexivity|]. split; [exact Hok|lia].
  - cbn [process_loop stats_loop].
    destruct (rest st) as [|line tl] eqn:Er.
    + do 2 eexists. split; [reflexivity|]. split; [reflexivity|].
      cbn [raised final_calls filter List.length].
      split; [reflexivity|]. split; [exact Hok|lia].
    + destruct (step search line tl st) as [[st'|e] log] eqn:Es.
      * destruct (step_output search line tl st st' log Es) as [_ Hlen].
        destruct (stats_step_ok line tl st st' log s Es Hok) as [Hok' Ht].
        destruct (step_calls search line tl st _ _ Es) as [_ [_ Hp]].
        cbn [List.length] in Hl.
        destruct (IH st' (stats_step search line tl s)) as [r [out [H1 [H2 H3]]]];
          [lia|exact Hok'|].
        exists r, out. split; [exact H1|]. split; [exact H2|].
        destruct out as [s'|e]; [|exact H3].
        destruct H3 as [H3 [H4 H5]]. split; [exact H3|]. split; [exact H4|].
        change (line :: tl) with ([line] ++ tl).
        rewrite filter_app, length_app. lia.
      * do 2 eexists. split; [reflexivity|]. split; reflexivity.
Qed.

(** X19. The statistics [process_org_file] of [enrich_org_tmdb.py]
    returns add up. The run returns them exactly when no exception ends
    it; then [total] is the sum of the two counters of skipped records
    and the four counters of matches, so [processed] of
    [print_statistics] is the sum of these four; [used_suggested_search]
    is at most [processed]; the lookups made are at least [processed] and
    at most twice as many; and [total] is at most the number of lines
    read as headings. *)
Theorem enrich_stats_add_up (lines : list str) :
  exists r out,
    process_org_file search lines = Some r
    /\ process_org_file_stats search lines = Some out
    /\ match out with
       | Raise e => raised r = Some e
       | Ok s =>
           raised r = None
           /\ EnrichStats.total s
              = skipped_verified s + EnrichStats.skipped s
                + high_confidence s + medium_confidence s
                + low_confidence s + no_match s
           /\ processed s
              = high_confidence s + medium_confidence s
                + low_confidence s + no_match s
           /\ used_suggested_search s <= processed s
           /\ processed s <= List.length (final_calls r) <= 2 * processed s
           /\ EnrichStats.total s <= List.length (filter parses lines)
       end.
Proof.
  unfold process_org_file, process_org_file_stats.
  destruct (stats_loop_ok (List.length lines)
              {| rest := lines; output_lines := []; disk := lines;
                 calls := [] |} no_stats (le_n _))
    as [r [out [H1 [H2 H3]]]].
  { unfold stats_ok, looked_up. cbn. lia. }
  exists r, out. split; [exact H1|]. split; [exact H2|].
  destruct out as [s|e]; [|exact H3].
  destruct H3 as [H3 [[Ht [Hu Hl]] Hn]]. cbn [rest no_stats EnrichStats.total] in Hn.
  split; [exact H3|]. unfold processed, looked_up in *. lia.
Qed.

End EnrichCounters.
